(** * stencil-async: a shallow embedding of [src/stencil-async.ts]

    The module keeps one registration per component instance, patches the
    component's lifecycle hooks, and caches the latest value of every promise
    and observable read by [async(...)] during a render.

    JavaScript objects are modelled by identities ([nat]) into explicit
    stores; closures are modelled by data ([Hook], [Callback]) that records
    the variables they capture; the host (Stencil), promises and observables
    are modelled by a small environment that follows their contracts. *)

From Stdlib Require Import String ZArith Bool Arith Lia List.
From stdpp Require Import base list.
Import ListNotations.

Local Open Scope string_scope.
Local Open Scope list_scope.

(** ** JavaScript values *)

(** Objects carry their identity and whether their [then] / [subscribe]
    properties are callable: that is all [isPromise] and [isSubscribable]
    inspect. *)
#[warnings="-register-all"]
Inductive Value : Type :=
| VUndefined
| VNull
| VBool (b : bool)
| VNum (n : Z)
| VStr (s : string)
| VArr (items : list Value)
| VObj (id : nat) (then_callable subscribe_callable : bool).

(** [!!obj] *)
Definition truthy (obj : Value) : bool :=
  match obj with
  | VUndefined | VNull => false
  | VBool b => b
  | VNum n => negb (Z.eqb n 0)
  | VStr s => negb (String.eqb s "")
  | VArr _ | VObj _ _ _ => true
  end.

(** [typeof obj] *)
Definition typeof (obj : Value) : string :=
  match obj with
  | VUndefined => "undefined"
  | VNull => "object"
  | VBool _ => "boolean"
  | VNum _ => "number"
  | VStr _ => "string"
  | VArr _ | VObj _ _ _ => "object"
  end.

(** [typeof obj.then === 'function'] and [typeof obj.subscribe === 'function'];
    primitives and arrays have neither property. *)
Definition then_is_function (obj : Value) : bool :=
  match obj with VObj _ t _ => t | _ => false end.

Definition subscribe_is_function (obj : Value) : bool :=
  match obj with VObj _ _ s => s | _ => false end.

Definition isPromise (obj : Value) : bool :=
  truthy obj && then_is_function obj.

Definition isSubscribable (obj : Value) : bool :=
  truthy obj && subscribe_is_function obj.

(** Object identity, the key under which a [Map] stores an object. *)
Definition ident (obj : Value) : nat :=
  match obj with VObj id _ _ => id | _ => 0 end.

(** ** Insertion-ordered maps keyed by object identity (JavaScript [Map]) *)

Module JsMap.
Definition t (V : Type) : Type := list (nat * V).

Fixpoint get {V} (k : nat) (m : t V) : option V :=
  match m with
  | [] => None
  | (k', v) :: m' => if Nat.eqb k' k then Some v else get k m'
  end.

Definition has {V} (k : nat) (m : t V) : bool :=
  match get k m with Some _ => true | None => false end.

Fixpoint set {V} (k : nat) (v : V) (m : t V) : t V :=
  match m with
  | [] => [(k, v)]
  | (k', v') :: m' =>
      if Nat.eqb k' k then (k, v) :: m' else (k', v') :: set k v m'
  end.

Fixpoint delete {V} (k : nat) (m : t V) : t V :=
  match m with
  | [] => []
  | (k', v') :: m' =>
      if Nat.eqb k' k then delete k m' else (k', v') :: delete k m'
  end.

Definition keys {V} (m : t V) : list nat := map fst m.
Definition values {V} (m : t V) : list V := map snd m.
Definition size {V} (m : t V) : nat := length m.
End JsMap.

(** [array.includes(x)] on an array of object identities. *)
Definition includes (x : nat) (l : list nat) : bool := existsb (Nat.eqb x) l.

(** ** Closures as data *)

(** What a render function does, as far as this module can observe: it calls
    [async(src)] some number of times, each next step depending on the values
    it got back, and returns a value. *)
Inductive Prog : Type :=
| Ret (v : Value)
| Read (src : Value) (k : Value -> Prog).

(** A hook slot holds [undefined], a function of the component's author, or
    one of the three closures created by [init], which capture [component]
    and [compReg]. *)
Inductive Hook : Type :=
| HAbsent
| HUser (f : nat) (body : Prog)
| HConnect (component compReg : nat)
| HDisconnect (component compReg : nat)
| HRender (component compReg : nat).

Definition present (h : Hook) : bool :=
  match h with HAbsent => false | _ => true end.

(** The arrow functions passed to [promise.then] and [obs$.subscribe]. *)
Inductive Callback : Type :=
| CbPromise (component compReg promise : nat)
| CbObservable (component observableReg : nat).

(** ** Records of the source *)

Record ComponentInterface : Type := {
  connectedCallback : Hook;
  disconnectedCallback : Hook;
  render : Hook;
}.

Record ObservableRegistration : Type := {
  subscription : option nat;
  result : option Value;
}.

Record ComponentRegistration : Type := {
  promises : JsMap.t Value;
  observables : JsMap.t nat;
  recentlyUsedObservables : list nat;
  origMethods : ComponentInterface;
}.

(** ** Environment: promises and observables *)

(** A promise is pending ([settled = None]) or fulfilled; [reactions] are the
    continuations registered by [then] that have not run yet. *)
Record Thenable : Type := {
  settled : option Value;
  reactions : list Callback;
}.

(** A subscription handed out by [subscribe]. *)
Record Subscription : Type := {
  sub_source : nat;
  sub_next : Callback;
  sub_closed : bool;
}.

(** ** The whole state *)

Record State : Type := {
  (* module state *)
  componentRegistrations : JsMap.t nat;
  regs : list ComponentRegistration;
  oregs : list ObservableRegistration;
  (* host *)
  components : JsMap.t ComponentInterface;
  renderingRef : option nat;
  forceUpdates : list nat;
  console : list (string * Value);
  calls : list nat;
  (* asynchronous sources *)
  thenables : JsMap.t Thenable;
  sync_emits : JsMap.t (list Value);
  subs : list Subscription;
}.

Definition set_componentRegistrations (f : JsMap.t nat -> JsMap.t nat)
    (st : State) : State :=
  {| componentRegistrations := f (componentRegistrations st);
     regs := regs st; oregs := oregs st; components := components st;
     renderingRef := renderingRef st; forceUpdates := forceUpdates st;
     console := console st; calls := calls st; thenables := thenables st;
     sync_emits := sync_emits st; subs := subs st |}.

Definition set_regs (f : list ComponentRegistration -> list ComponentRegistration)
    (st : State) : State :=
  {| componentRegistrations := componentRegistrations st;
     regs := f (regs st); oregs := oregs st; components := components st;
     renderingRef := renderingRef st; forceUpdates := forceUpdates st;
     console := console st; calls := calls st; thenables := thenables st;
     sync_emits := sync_emits st; subs := subs st |}.

Definition set_oregs (f : list ObservableRegistration -> list ObservableRegistration)
    (st : State) : State :=
  {| componentRegistrations := componentRegistrations st;
     regs := regs st; oregs := f (oregs st); components := components st;
     renderingRef := renderingRef st; forceUpdates := forceUpdates st;
     console := console st; calls := calls st; thenables := thenables st;
     sync_emits := sync_emits st; subs := subs st |}.

Definition set_components (f : JsMap.t ComponentInterface -> JsMap.t ComponentInterface)
    (st : State) : State :=
  {| componentRegistrations := componentRegistrations st;
     regs := regs st; oregs := oregs st; components := f (components st);
     renderingRef := renderingRef st; forceUpdates := forceUpdates st;
     console := console st; calls := calls st; thenables := thenables st;
     sync_emits := sync_emits st; subs := subs st |}.

Definition set_renderingRef (r : option nat) (st : State) : State :=
  {| componentRegistrations := componentRegistrations st;
     regs := regs st; oregs := oregs st; components := components st;
     renderingRef := r; forceUpdates := forceUpdates st;
     console := console st; calls := calls st; thenables := thenables st;
     sync_emits := sync_emits st; subs := subs st |}.

Definition set_forceUpdates (f : list nat -> list nat) (st : State) : State :=
  {| componentRegistrations := componentRegistrations st;
     regs := regs st; oregs := oregs st; components := components st;
     renderingRef := renderingRef st; forceUpdates := f (forceUpdates st);
     console := console st; calls := calls st; thenables := thenables st;
     sync_emits := sync_emits st; subs := subs st |}.

Definition set_console (f : list (string * Value) -> list (string * Value))
    (st : State) : State :=
  {| componentRegistrations := componentRegistrations st;
     regs := regs st; oregs := oregs st; components := components st;
     renderingRef := renderingRef st; forceUpdates := forceUpdates st;
     console := f (console st); calls := calls st; thenables := thenables st;
     sync_emits := sync_emits st; subs := subs st |}.

Definition set_calls (f : list nat -> list nat) (st : State) : State :=
  {| componentRegistrations := componentRegistrations st;
     regs := regs st; oregs := oregs st; components := components st;
     renderingRef := renderingRef st; forceUpdates := forceUpdates st;
     console := console st; calls := f (calls st); thenables := thenables st;
     sync_emits := sync_emits st; subs := subs st |}.

Definition set_thenables (f : JsMap.t Thenable -> JsMap.t Thenable) (st : State) : State :=
  {| componentRegistrations := componentRegistrations st;
     regs := regs st; oregs := oregs st; components := components st;
     renderingRef := renderingRef st; forceUpdates := forceUpdates st;
     console := console st; calls := calls st; thenables := f (thenables st);
     sync_emits := sync_emits st; subs := subs st |}.

Definition set_subs (f : list Subscription -> list Subscription) (st : State) : State :=
  {| componentRegistrations := componentRegistrations st;
     regs := regs st; oregs := oregs st; components := components st;
     renderingRef := renderingRef st; forceUpdates := forceUpdates st;
     console := console st; calls := calls st; thenables := thenables st;
     sync_emits := sync_emits st; subs := f (subs st) |}.

(** ** A state monad with exceptions

    A thrown exception keeps the state reached so far, as in JavaScript.
    [OutOfFuel] only arises from the bound on nested hook calls. *)

Inductive Outcome (A : Type) : Type :=
| Returned (a : A)
| Thrown (e : string)
| OutOfFuel.
Arguments Returned {A} a.
Arguments Thrown {A} e.
Arguments OutOfFuel {A}.

Definition M (A : Type) : Type := State -> Outcome A * State.

Definition ret {A} (a : A) : M A := fun st => (Returned a, st).

Definition bind {A B} (m : M A) (k : A -> M B) : M B :=
  fun st =>
    match m st with
    | (Returned a, st') => k a st'
    | (Thrown e, st') => (Thrown e, st')
    | (OutOfFuel, st') => (OutOfFuel, st')
    end.

Definition throw {A} (e : string) : M A := fun st => (Thrown e, st).
Definition get_state : M State := fun st => (Returned st, st).
Definition modify (f : State -> State) : M unit := fun st => (Returned tt, f st).

Notation "'let*' x ':=' m 'in' k" := (bind m (fun x => k))
  (at level 10, x name, m at level 100, k at level 200).
Notation "m '>>' k" := (bind m (fun _ => k))
  (at level 100, k at level 200, right associativity).

Fixpoint forEach {A} (f : A -> M unit) (l : list A) : M unit :=
  match l with
  | [] => ret tt
  | x :: l' => f x >> forEach f l'
  end.

(** [m], after which [f] is applied to the state whatever the outcome of [m]
    was: a statement that follows a [try] block. *)
Definition finally {A} (m : M A) (f : State -> State) : M A :=
  fun st => let (out, st') := m st in (out, f st').

(** ** Store accessors *)

Definition no_hooks : ComponentInterface :=
  {| connectedCallback := HAbsent; disconnectedCallback := HAbsent; render := HAbsent |}.

Definition empty_reg : ComponentRegistration :=
  {| promises := []; observables := []; recentlyUsedObservables := [];
     origMethods := no_hooks |}.

Definition empty_oreg : ObservableRegistration :=
  {| subscription := None; result := None |}.

Definition pending : Thenable := {| settled := None; reactions := [] |}.

Definition component_at (st : State) (c : nat) : ComponentInterface :=
  default no_hooks (JsMap.get c (components st)).

Definition reg_at (st : State) (r : nat) : ComponentRegistration :=
  default empty_reg (regs st !! r).

Definition oreg_at (st : State) (o : nat) : ObservableRegistration :=
  default empty_oreg (oregs st !! o).

Definition thenable_at (st : State) (p : nat) : Thenable :=
  default pending (JsMap.get p (thenables st)).

Definition with_promises (f : JsMap.t Value -> JsMap.t Value)
    (R : ComponentRegistration) : ComponentRegistration :=
  {| promises := f (promises R); observables := observables R;
     recentlyUsedObservables := recentlyUsedObservables R;
     origMethods := origMethods R |}.

Definition with_observables (f : JsMap.t nat -> JsMap.t nat)
    (R : ComponentRegistration) : ComponentRegistration :=
  {| promises := promises R; observables := f (observables R);
     recentlyUsedObservables := recentlyUsedObservables R;
     origMethods := origMethods R |}.

Definition with_recentlyUsedObservables (f : list nat -> list nat)
    (R : ComponentRegistration) : ComponentRegistration :=
  {| promises := promises R; observables := observables R;
     recentlyUsedObservables := f (recentlyUsedObservables R);
     origMethods := origMethods R |}.

Definition with_subscription (sub : option nat)
    (O : ObservableRegistration) : ObservableRegistration :=
  {| subscription := sub; result := result O |}.

Definition with_result (v : option Value)
    (O : ObservableRegistration) : ObservableRegistration :=
  {| subscription := subscription O; result := v |}.

Definition update_reg (r : nat) (f : ComponentRegistration -> ComponentRegistration)
    : State -> State :=
  set_regs (alter f r).

Definition update_oreg (o : nat) (f : ObservableRegistration -> ObservableRegistration)
    : State -> State :=
  set_oregs (alter f o).

(** ** Host primitives ([@stencil/core], [console]) *)

(** [forceUpdate(component)]: a re-render request, recorded in order. *)
Definition forceUpdate (component : nat) : M unit :=
  modify (set_forceUpdates (fun l => l ++ [component])).

(** [getRenderingRef()]: the component rendered last, if any. *)
Definition getRenderingRef : M (option nat) :=
  fun st => (Returned (renderingRef st), st).

(** The first property access on a reference; on [undefined] it throws. *)
Definition deref (ref : option nat) : M nat :=
  match ref with
  | Some component => ret component
  | None => throw "TypeError: Cannot read properties of undefined"
  end.

(** [console.error('Invalid value: ', typeof obj, obj)] *)
Definition console_error (obj : Value) : M unit :=
  modify (set_console (fun l => l ++ [(typeof obj, obj)])).

(** ** The two arrow functions *)

(** Both are called with one argument: a promise passes its value to the
    continuation, an observable the value it emits. The continuation's rest
    parameter [...res] therefore holds a one-element array. *)
Definition run_callback (cb : Callback) (arg : Value) : M unit :=
  match cb with
  | CbPromise component compReg promise =>
      (* (...res) => { compReg.promises.set(promise, res); forceUpdate(component); } *)
      let res := VArr [arg] in
      modify (update_reg compReg (with_promises (JsMap.set promise res))) >>
      forceUpdate component
  | CbObservable component observableReg =>
      (* result => { observableReg.result = result; forceUpdate(component); } *)
      modify (update_oreg observableReg (with_result (Some arg))) >>
      forceUpdate component
  end.

(** ** Promises *)

(** [promise.then(cb)]: the continuation is queued; it never runs inside the
    call. *)
Definition promise_then (p : nat) (cb : Callback) : M unit :=
  modify (fun st =>
    set_thenables
      (JsMap.set p {| settled := settled (thenable_at st p);
                      reactions := reactions (thenable_at st p) ++ [cb] |}) st).

(** Runs the queued continuations of a fulfilled promise, each once. *)
Definition run_reactions (p : nat) : M unit :=
  let* st := get_state in
  match settled (thenable_at st p) with
  | None => ret tt
  | Some v =>
      modify (set_thenables (JsMap.set p {| settled := Some v; reactions := [] |})) >>
      forEach (fun cb => run_callback cb v) (reactions (thenable_at st p))
  end.

(** The promise is fulfilled with [v]; a promise settles once. *)
Definition settle (p : nat) (v : Value) : M unit :=
  let* st := get_state in
  match settled (thenable_at st p) with
  | Some _ => ret tt
  | None =>
      modify (set_thenables
                (JsMap.set p {| settled := Some v;
                                reactions := reactions (thenable_at st p) |})) >>
      run_reactions p
  end.

(** ** Observables *)

Definition close (s : Subscription) : Subscription :=
  {| sub_source := sub_source s; sub_next := sub_next s; sub_closed := true |}.

(** [subscription.unsubscribe()] *)
Definition unsubscribe (sub : nat) : M unit :=
  modify (set_subs (alter close sub)).

(** A value pushed to one subscription; a closed subscription drops it. *)
Definition deliver (sub : nat) (v : Value) : M unit :=
  let* st := get_state in
  match subs st !! sub with
  | Some s => if sub_closed s then ret tt else run_callback (sub_next s) v
  | None => ret tt
  end.

(** [obs$.subscribe(next)]: values the observable emits on subscription are
    delivered before [subscribe] returns. *)
Definition subscribe (obs : nat) (next : Callback) : M nat :=
  let* st := get_state in
  let sub := length (subs st) in
  modify (set_subs (fun l => l ++ [{| sub_source := obs; sub_next := next;
                                     sub_closed := false |}])) >>
  forEach (deliver sub) (default [] (JsMap.get obs (sync_emits st))) >>
  ret sub.

Definition subscriptions_of (obs : nat) (l : list Subscription) : list nat :=
  List.filter (fun i => match l !! i with
                        | Some s => Nat.eqb (sub_source s) obs
                        | None => false
                        end)
              (seq 0 (length l)).

(** The observable emits [v] to every subscription it has. *)
Definition emit (obs : nat) (v : Value) : M unit :=
  let* st := get_state in
  forEach (fun sub => deliver sub v) (subscriptions_of obs (subs st)).

(** ** The module: [src/stencil-async.ts] *)

(** [componentRegistrations] is the field of that name in [State]; the object
    a registration refers to lives in [regs]. *)

Definition init (component : nat) : M unit :=
  let* st := get_state in
  if JsMap.has component (componentRegistrations st) then
    (* component already initialized *)
    ret tt
  else
    let compReg :=
      {| promises := []; observables := []; recentlyUsedObservables := [];
         origMethods :=
           {| connectedCallback := connectedCallback (component_at st component);
              disconnectedCallback := disconnectedCallback (component_at st component);
              render := render (component_at st component) |} |} in
    let r := length (regs st) in
    modify (set_regs (fun l => l ++ [compReg])) >>
    modify (set_componentRegistrations (JsMap.set component r)) >>
    modify (set_components
              (JsMap.set component
                 {| connectedCallback := HConnect component r;
                    disconnectedCallback := HDisconnect component r;
                    render := HRender component r |})).

(** [obsReg.subscription.unsubscribe()] *)
Definition unsubscribe_of (obsReg : nat) : M unit :=
  let* st := get_state in
  match subscription (oreg_at st obsReg) with
  | Some sub => unsubscribe sub
  | None => throw "TypeError: Cannot read properties of undefined (reading 'unsubscribe')"
  end.

Definition destroy (component : nat) : M unit :=
  let* st := get_state in
  match JsMap.get component (componentRegistrations st) with
  | None => ret tt
  | Some compReg =>
      (* unsubscribe all component observables *)
      forEach unsubscribe_of (JsMap.values (observables (reg_at st compReg))) >>
      modify (set_componentRegistrations (JsMap.delete component)) >>
      (* reset the methods *)
      let* st := get_state in
      modify (set_components
                (JsMap.set component
                   (let orig := origMethods (reg_at st compReg) in
                    {| connectedCallback := connectedCallback orig;
                       disconnectedCallback := disconnectedCallback orig;
                       render := render orig |})))
  end.

Definition unregisterObservable (component observable : nat) : M unit :=
  let* st := get_state in
  match JsMap.get component (componentRegistrations st) with
  | None => ret tt
  | Some compReg =>
      match JsMap.get observable (observables (reg_at st compReg)) with
      | Some observableRegistration => unsubscribe_of observableRegistration
      | None => ret tt
      end >>
      modify (update_reg compReg (with_observables (JsMap.delete observable)))
  end.

Definition getComponentRegistration (component : nat) : M nat :=
  let* st := get_state in
  (if JsMap.has component (componentRegistrations st) then ret tt
   else (* add registration if it doesn't exist *) init component) >>
  let* st := get_state in
  match JsMap.get component (componentRegistrations st) with
  | Some compReg => ret compReg
  | None => throw "TypeError: Cannot read properties of undefined"
  end.

Definition getPromiseValue (promise : Value) : M Value :=
  let* ref := getRenderingRef in
  let* component := deref ref in
  let* compReg := getComponentRegistration component in
  let* st := get_state in
  (if JsMap.has (ident promise) (promises (reg_at st compReg)) then ret tt
   else
     modify (update_reg compReg (with_promises (JsMap.set (ident promise) VNull))) >>
     promise_then (ident promise) (CbPromise component compReg (ident promise))) >>
  let* st := get_state in
  let value := JsMap.get (ident promise) (promises (reg_at st compReg)) in
  ret (default VUndefined value).

Definition getObservableValue (obs : Value) : M Value :=
  let* ref := getRenderingRef in
  let* component := deref ref in
  let* compReg := getComponentRegistration component in
  modify (update_reg compReg (with_recentlyUsedObservables (fun l => l ++ [ident obs]))) >>
  let* st := get_state in
  (if JsMap.has (ident obs) (observables (reg_at st compReg)) then ret tt
   else
     (* subscribe: an empty object is created first because the observable
        might fire immediately *)
     let observableReg := length (oregs st) in
     modify (set_oregs (fun l => l ++ [empty_oreg])) >>
     let* sub := subscribe (ident obs) (CbObservable component observableReg) in
     modify (update_oreg observableReg (with_subscription (Some sub))) >>
     modify (update_reg compReg (with_observables (JsMap.set (ident obs) observableReg)))) >>
  let* st := get_state in
  match JsMap.get (ident obs) (observables (reg_at st compReg)) with
  | Some observableReg => ret (default VUndefined (result (oreg_at st observableReg)))
  | None => ret VUndefined
  end.

Definition getAsyncValue (obj : Value) : M Value :=
  if isPromise obj then getPromiseValue obj
  else if isSubscribable obj then getObservableValue obj
  else console_error obj >> ret VUndefined.

(** The exported function, [async] in the source. *)
Definition readAsync (obj : Value) : M Value := getAsyncValue obj.

(** ** Calling hooks *)

(** A function written by the component's author: the call is recorded and
    its reads are performed. *)
Fixpoint run_prog (p : Prog) : M Value :=
  match p with
  | Ret v => ret v
  | Read src k => let* v := readAsync src in run_prog (k v)
  end.

Definition unusedObservables (R : ComponentRegistration) : list nat :=
  List.filter (fun obs => negb (includes obs (recentlyUsedObservables R)))
              (JsMap.keys (observables R)).

(** [h.call(component)] for the function held by a hook slot. The three
    closures of [init] read [compReg.origMethods] when they run. [fuel]
    bounds the nesting of closures that call closures. *)
Fixpoint call_hook (fuel : nat) (h : Hook) : M Value :=
  match fuel with
  | 0 => fun st => (OutOfFuel, st)
  | S fuel =>
      match h with
      | HAbsent => throw "TypeError: not a function"
      | HUser f body =>
          modify (set_calls (fun l => l ++ [f])) >> run_prog body
      | HConnect component compReg =>
          init component >>
          let* st := get_state in
          if present (connectedCallback (origMethods (reg_at st compReg))) then
            call_hook fuel (connectedCallback (origMethods (reg_at st compReg))) >>
            ret VUndefined
          else ret VUndefined
      | HDisconnect component compReg =>
          destroy component >>
          let* st := get_state in
          if present (disconnectedCallback (origMethods (reg_at st compReg))) then
            call_hook fuel (disconnectedCallback (origMethods (reg_at st compReg))) >>
            ret VUndefined
          else ret VUndefined
      | HRender component compReg =>
          let* st := get_state in
          if negb (present (render (origMethods (reg_at st compReg)))) then
            ret VUndefined
          else
            modify (update_reg compReg (with_recentlyUsedObservables (fun _ => []))) >>
            let* st := get_state in
            let* renderResult := call_hook fuel (render (origMethods (reg_at st compReg))) in
            (* unsubscribe observables that are not used in render() anymore *)
            let* st := get_state in
            forEach (unregisterObservable component)
                    (unusedObservables (reg_at st compReg)) >>
            let* st := get_state in
            (if Nat.eqb (length (recentlyUsedObservables (reg_at st compReg))) 0
                && Nat.eqb (JsMap.size (promises (reg_at st compReg))) 0
             then (* completely remove stencil-async from the component *)
               destroy component
             else ret tt) >>
            ret renderResult
      end
  end.

(** ** What the host does *)

(** Stencil sets the rendering reference, calls [instance.render] inside a
    [try] block and resets the reference to [null] afterwards, so that
    [getRenderingRef()] returns a component only while that component's
    render function runs. *)
Definition host_render (fuel : nat) (component : nat) : M Value :=
  finally
    (modify (set_renderingRef (Some component)) >>
     let* st := get_state in
     if present (render (component_at st component)) then
       call_hook fuel (render (component_at st component))
     else ret VUndefined)
    (set_renderingRef None).

Definition host_connect (fuel : nat) (component : nat) : M Value :=
  let* st := get_state in
  if present (connectedCallback (component_at st component)) then
    call_hook fuel (connectedCallback (component_at st component))
  else ret VUndefined.

Definition host_disconnect (fuel : nat) (component : nat) : M Value :=
  let* st := get_state in
  if present (disconnectedCallback (component_at st component)) then
    call_hook fuel (disconnectedCallback (component_at st component))
  else ret VUndefined.

(** A state with the given components and nothing else. *)
Definition initial (cs : JsMap.t ComponentInterface) (emits : JsMap.t (list Value)) : State :=
  {| componentRegistrations := []; regs := []; oregs := [];
     components := cs; renderingRef := None; forceUpdates := [];
     console := []; calls := []; thenables := []; sync_emits := emits;
     subs := [] |}.

(** ** Closed forms used in the statements *)

(** The subscriptions [ids], closed one after the other. *)
Definition close_all (ids : list nat) (l : list Subscription) : list Subscription :=
  fold_left (fun l sub => alter close sub l) ids l.

(** The cancel handles held by the registrations [os]. *)
Definition handles (st : State) (os : list nat) : list nat :=
  omap (fun o => subscription (oreg_at st o)) os.

(** Every stream registration of [R] has its cancel handle attached. *)
Definition attached (st : State) (R : ComponentRegistration) : bool :=
  forallb (fun o => match subscription (oreg_at st o) with
                    | Some _ => true
                    | None => false
                    end)
          (JsMap.values (observables R)).

(** The component a callback was created for. *)
Definition cb_component (cb : Callback) : nat :=
  match cb with
  | CbPromise component _ _ => component
  | CbObservable component _ => component
  end.

(** What a caller takes for "no value yet": the values for which
    [async(x) ?? fallback] yields the fallback. *)
Definition unresolved (v : Value) : bool :=
  match v with
  | VUndefined | VNull => true
  | _ => false
  end.

(** Neither capability: the argument [getAsyncValue] rejects. *)
Definition invalid (obj : Value) : bool :=
  negb (isPromise obj) && negb (isSubscribable obj).

(** The state an action leads to. *)
Definition after {A} (m : M A) (st : State) : State := snd (m st).

(** The state after the open subscription of registration [o], owned by
    component [c], has received the values [vs] in order. *)
Definition emitted (c o : nat) (vs : list Value) (st : State) : State :=
  set_forceUpdates (fun l => l ++ repeat c (length vs))
    (match last vs with
     | Some v => update_oreg o (with_result (Some v)) st
     | None => st
     end).

(** The state after component [c], whose registration is [r], has read the
    stream [s] for the first time. *)
Definition subscribed (c r s : nat) (st : State) : State :=
  let o := length (oregs st) in
  let sub := length (subs st) in
  let vs := default [] (JsMap.get s (sync_emits st)) in
  update_reg r (with_observables (JsMap.set s o))
    (update_oreg o (with_subscription (Some sub))
       (emitted c o vs
          (set_subs (fun l => l ++ [{| sub_source := s;
                                      sub_next := CbObservable c o;
                                      sub_closed := false |}])
             (set_oregs (fun l => l ++ [empty_oreg])
                (update_reg r (with_recentlyUsedObservables (fun l => l ++ [s]))
                   st))))).

(** The state after component [c], whose registration is [r], has read the
    promise [p] for the first time. *)
Definition continued (c r p : nat) (st : State) : State :=
  set_thenables
    (JsMap.set p {| settled := settled (thenable_at st p);
                    reactions := reactions (thenable_at st p) ++ [CbPromise c r p] |})
    (update_reg r (with_promises (JsMap.set p VNull)) st).

(** Component [c] has no binding for the stream [s] yet: a read of [s] is
    its first. *)
Definition first_read (c s : nat) (st : State) : bool :=
  match JsMap.get c (componentRegistrations st) with
  | None => true
  | Some r =>
      Nat.ltb r (length (regs st))
      && negb (JsMap.has s (observables (reg_at st r)))
  end.

(** Component [c] has no binding for the promise [p] yet: a read of [p] is
    its first. *)
Definition first_promise_read (c p : nat) (st : State) : bool :=
  match JsMap.get c (componentRegistrations st) with
  | None => true
  | Some r =>
      Nat.ltb r (length (regs st))
      && negb (JsMap.has p (promises (reg_at st r)))
  end.

(** The state after the callbacks [l] have each run once with [v]. *)
Definition reacted (v : Value) (l : list Callback) (st : State) : State :=
  fold_left (fun st cb => after (run_callback cb v) st) l st.

(** The size of a value; an array counts its elements. *)
Fixpoint vsize (v : Value) : nat :=
  match v with
  | VArr items => S (list_sum (map vsize items))
  | _ => 1
  end.

(** ** A stream over time *)

(** What happens to one stream while a component keeps its binding: the
    component reads it, or the stream emits a value. *)
Inductive Act : Type :=
| ARead
| AEmit (v : Value).

Fixpoint run_acts (obs : Value) (acts : list Act) : M (list Value) :=
  match acts with
  | [] => ret []
  | ARead :: rest =>
      let* v := readAsync obs in
      let* vs := run_acts obs rest in
      ret (v :: vs)
  | AEmit v :: rest => emit (ident obs) v >> run_acts obs rest
  end.

(** What the reads are to return: the value emitted most recently, [latest]
    standing for it before the first [AEmit]. *)
Fixpoint expected (latest : Value) (acts : list Act) : list Value :=
  match acts with
  | [] => []
  | ARead :: rest => latest :: expected latest rest
  | AEmit v :: rest => expected v rest
  end.

Fixpoint emissions (acts : list Act) : nat :=
  match acts with
  | [] => 0
  | ARead :: rest => emissions rest
  | AEmit _ :: rest => S (emissions rest)
  end.

Definition is_open (l : list Subscription) (i : nat) : bool :=
  match l !! i with
  | Some s => negb (sub_closed s)
  | None => false
  end.

(** The subscriptions to [obs] that have not been cancelled. *)
Definition open_subscriptions_of (obs : nat) (l : list Subscription) : list nat :=
  List.filter (is_open l) (subscriptions_of obs l).

(** The number of re-renders requested for component [c] so far. *)
Definition requests (c : nat) (st : State) : nat :=
  count_occ Nat.eq_dec (forceUpdates st) c.

(** Every open subscription to [s] belongs to a component other than [c]. *)
Definition foreign (c s : nat) (l : list Subscription) : bool :=
  forallb (fun i => match l !! i with
                    | Some x => negb (Nat.eqb (cb_component (sub_next x)) c)
                    | None => true
                    end)
          (open_subscriptions_of s l).

(** From [st] to [st'] the stream bindings of registration [r] and the
    subscriptions stayed as they were, and the registration object [o] did
    not lose the value [v]. *)
Definition undisturbed (r o : nat) (v : Value) (st st' : State) : Prop :=
  subs st' = subs st
  /\ componentRegistrations st' = componentRegistrations st
  /\ renderingRef st' = renderingRef st
  /\ length (regs st') = length (regs st)
  /\ observables (reg_at st' r) = observables (reg_at st r)
  /\ length (oregs st') = length (oregs st)
  /\ (result (oreg_at st o) = Some v -> result (oreg_at st' o) = Some v).

(** ** The render wrapper as the specification words it *)

(** Section 4.3, step 4: clear [recentlyUsedStreams]; invoke the original
    render hook if present and capture its result; run the reaper over the
    just-computed [recentlyUsedStreams]; if no stream bindings and no deferred
    bindings remain, destroy the binding; return the captured result. *)
Definition wrapped_render_spec (fuel : nat) (component compReg : nat) : M Value :=
  modify (update_reg compReg (with_recentlyUsedObservables (fun _ => []))) >>
  let* st := get_state in
  let* renderResult :=
    (if present (render (origMethods (reg_at st compReg))) then
       call_hook fuel (render (origMethods (reg_at st compReg)))
     else ret VUndefined) in
  let* st := get_state in
  forEach (unregisterObservable component) (unusedObservables (reg_at st compReg)) >>
  let* st := get_state in
  (if Nat.eqb (JsMap.size (observables (reg_at st compReg))) 0
      && Nat.eqb (JsMap.size (promises (reg_at st compReg))) 0
   then destroy component
   else ret tt) >>
  ret renderResult.

(** ** Streams a render function reads *)

(** The stream a call [async(src)] reads, if it reads one. *)
Definition stream_read (src : Value) : option nat :=
  if isPromise src then None
  else if isSubscribable src then Some (ident src)
  else None.

(** The state in which the original render function [HUser f body] starts
    when the wrapper of registration [r] calls it. *)
Definition pass_start (r f : nat) (st : State) : State :=
  set_calls (fun l => l ++ [f])
    (update_reg r (with_recentlyUsedObservables (fun _ => [])) st).

(** The streams the render function reads in that pass. *)
Definition pass_reads (r f : nat) (body : Prog) (st : State) : list nat :=
  recentlyUsedObservables (reg_at (after (run_prog body) (pass_start r f st)) r).

(** ** The reaper in closed form *)

(** The state after [unregisterObservable] ran for stream [s] on the
    registration [r]. *)
Definition unregistered (r s : nat) (st : State) : State :=
  update_reg r (with_observables (JsMap.delete s))
    (match JsMap.get s (observables (reg_at st r)) with
     | Some o =>
         match subscription (oreg_at st o) with
         | Some sub => set_subs (alter close sub) st
         | None => st
         end
     | None => st
     end).

Definition reaped (r : nat) (l : list nat) (st : State) : State :=
  fold_left (fun st s => unregistered r s st) l st.

Definition deleted {V} (l : list nat) (m : JsMap.t V) : JsMap.t V :=
  fold_left (fun m s => JsMap.delete s m) l m.

(** The subscription [i] exists and has been cancelled. *)
Definition closed_at (st : State) (i : nat) : Prop :=
  exists x, subs st !! i = Some x /\ sub_closed x = true.

(** ** Invariants of a render pass *)

(** The facts a render pass of component [c] with registration [r] relies
    on. *)
Definition bound_inv (c r : nat) (st : State) : Prop :=
  renderingRef st = Some c
  /\ JsMap.get c (componentRegistrations st) = Some r
  /\ r < length (regs st)
  /\ attached st (reg_at st r) = true
  /\ (forall s, In s (recentlyUsedObservables (reg_at st r)) ->
                In s (JsMap.keys (observables (reg_at st r)))).

(** The binding of stream [s] is in place, untouched and unread. *)
Definition kept (r s o sub : nat) (st : State) : Prop :=
  JsMap.get s (observables (reg_at st r)) = Some o
  /\ subscription (oreg_at st o) = Some sub
  /\ sub < length (subs st)
  /\ ~ In s (recentlyUsedObservables (reg_at st r)).

(** ** Everything that can happen *)

(** The host renders, connects or disconnects a component; a promise
    settles or runs the continuations queued on it since; a stream emits;
    [async] is called outside a render function; somebody assigns the hooks
    of a component. *)
Inductive Event : Type :=
| HostRender (c : nat)
| HostConnect (c : nat)
| HostDisconnect (c : nat)
| Settles (p : nat) (v : Value)
| Reacts (p : nat)
| Emits (s : nat) (v : Value)
| Reads (src : Value)
| Assigns (c : nat) (hooks : ComponentInterface).

Definition run_event (fuel : nat) (e : Event) : M unit :=
  match e with
  | HostRender c => host_render fuel c >> ret tt
  | HostConnect c => host_connect fuel c >> ret tt
  | HostDisconnect c => host_disconnect fuel c >> ret tt
  | Settles p v => settle p v
  | Reacts p => run_reactions p
  | Emits s v => emit s v
  | Reads src => readAsync src >> ret tt
  | Assigns c hooks => modify (set_components (JsMap.set c hooks))
  end.

(** A run goes on after an exception, as the host does. *)
Fixpoint run_events (fuel : nat) (es : list Event) (st : State) : State :=
  match es with
  | [] => st
  | e :: es' => run_events fuel es' (after (run_event fuel e) st)
  end.

(** From [st] to [st'] no registration object was lost or had its snapshot
    of the hooks changed, and no component got a second entry. *)
Definition evolves (st st' : State) : Prop :=
  (NoDup (JsMap.keys (componentRegistrations st)) ->
   NoDup (JsMap.keys (componentRegistrations st')))
  /\ length (regs st) <= length (regs st')
  /\ (forall r, r < length (regs st) ->
                origMethods (reg_at st' r) = origMethods (reg_at st r)).

Definition keeps {A} (m : M A) : Prop := forall st, evolves st (after m st).

(** ** Well-formed states *)

(** Every registered component refers to a registration object that exists,
    and every stream binding of every registration object has its cancel
    handle attached, the handle being a subscription that exists. *)
Definition wf (st : State) : Prop :=
  (forall c r, JsMap.get c (componentRegistrations st) = Some r ->
               r < length (regs st))
  /\ (forall r o, In o (JsMap.values (observables (reg_at st r))) ->
                  exists sub, subscription (oreg_at st o) = Some sub
                              /\ sub < length (subs st)).

Definition holds {A} (m : M A) : Prop := forall st, wf st -> wf (after m st).

(** ** Sample components, sources and states *)

(** The state in which the host calls the render hook of component [c]: the
    rendering reference is [c]. *)
Definition rendering (c : nat) (st : State) : State :=
  set_renderingRef (Some c) st.

Definition aPromise : Value := VObj 7 true false.
Definition aStream : Value := VObj 9 false true.
Definition aBoth : Value := VObj 8 true true.

(** A component whose render function reads [src] and returns what it got. *)
Definition reader (src : Value) : ComponentInterface :=
  {| connectedCallback := HAbsent;
     disconnectedCallback := HUser 2 (Ret VUndefined);
     render := HUser 1 (Read src Ret) |}.

(** One component reading a promise, rendered once. *)
Definition promise_rendered : State :=
  after (host_render 2 0) (initial [(0, reader aPromise)] []).

(** One component reading a stream, rendered once. *)
Definition stream_rendered : State :=
  after (host_render 2 0) (initial [(0, reader aStream)] []).

(** The component of [promise_rendered], disconnected while the promise is
    pending. *)
Definition promise_disconnected : State :=
  after (host_disconnect 3 0) promise_rendered.

(** A component about to be rendered for the first time, reading a stream
    that emits 1 and 2 as soon as it is subscribed to. *)
Definition eager_stream_start : State :=
  set_renderingRef (Some 0)
    (initial [(0, reader aStream)] [(9, [VNum 1; VNum 2])]).

(** A render function that reads a stream only while its promise is
    pending. *)
Definition fickle : Prog :=
  Read aPromise (fun v => match v with
                          | VNull => Read aStream Ret
                          | _ => Ret v
                          end).

(** A component with that render function, rendered once, after which the
    promise settled. *)
Definition fickle_settled : State :=
  after (settle 7 (VStr "X"))
    (after (host_render 2 0)
       (initial [(0, {| connectedCallback := HAbsent;
                        disconnectedCallback := HAbsent;
                        render := HUser 1 fickle |})] [])).

(** Two components that read the same stream: the first was rendered, the
    host has begun the first render of the second. *)
Definition second_reader_start : State :=
  set_renderingRef (Some 1)
    (after (host_render 2 0)
       (initial [(0, reader aStream); (1, reader aStream)] [])).

(** The same, the second component having just been installed. *)
Definition second_reader : State := after (init 1) second_reader_start.

(** ** What a render pass leaves alone *)

(** From [st] to [st'], seen from registration [r]: hooks, registry and the
    record of user calls are the same; the promise and stream bindings of [r]
    that existed still exist; the registration objects and subscriptions that
    existed are as they were; other registrations are untouched; and every
    stream binding of [r] that is new has a subscription that is new. *)
Definition pass_frame (r : nat) (st st' : State) : Prop :=
  components st' = components st
  /\ componentRegistrations st' = componentRegistrations st
  /\ calls st' = calls st
  /\ (forall p x, JsMap.get p (promises (reg_at st r)) = Some x ->
                  JsMap.get p (promises (reg_at st' r)) = Some x)
  /\ (forall s o, JsMap.get s (observables (reg_at st r)) = Some o ->
                  JsMap.get s (observables (reg_at st' r)) = Some o)
  /\ (forall o, o < length (oregs st) -> oreg_at st' o = oreg_at st o)
  /\ length (oregs st) <= length (oregs st')
  /\ (forall i, i < length (subs st) -> subs st' !! i = subs st !! i)
  /\ length (subs st) <= length (subs st')
  /\ (forall r', r' <> r -> reg_at st' r' = reg_at st r')
  /\ origMethods (reg_at st' r) = origMethods (reg_at st r)
  /\ (forall s o, JsMap.get s (observables (reg_at st' r)) = Some o ->
                  JsMap.get s (observables (reg_at st r)) = Some o
                  \/ exists sub, subscription (oreg_at st' o) = Some sub
                                 /\ length (subs st) <= sub).

(** A promise that settled before the component reading it is rendered for
    the first time, at the moment the host begins that render. *)
Definition settled_before_read : State :=
  rendering 0 (after (settle 7 (VStr "X")) (initial [(0, reader aPromise)] [])).

(** The promises bound when the render function of a pass returns. *)
Definition pass_promises (r f : nat) (body : Prog) (st : State) : JsMap.t Value :=
  promises (reg_at (after (run_prog body) (pass_start r f st)) r).

(** No stream of registration [R] other than [s] has the cancel handle
    [sub]. *)
Definition own_handle (s sub : nat) (st : State) (R : ComponentRegistration) : bool :=
  forallb (fun so => Nat.eqb (fst so) s
                     || match subscription (oreg_at st (snd so)) with
                        | Some h => negb (Nat.eqb h sub)
                        | None => true
                        end)
          (observables R).

(** A render function that reads nothing. *)
Definition idle : Prog := Ret (VStr "nothing to show").

(** A component that was rendered once reading a stream, and whose render
    function has since been replaced in the snapshot by one that reads
    nothing. *)
Definition gone_idle : State :=
  update_reg 0
    (fun R => {| promises := promises R; observables := observables R;
                 recentlyUsedObservables := recentlyUsedObservables R;
                 origMethods := {| connectedCallback := HAbsent;
                                   disconnectedCallback := HAbsent;
                                   render := HUser 1 idle |} |})
    stream_rendered.

(** ** Whose functions the hooks are *)

(** A hook of the component's author: a function of theirs, or nothing. *)
Definition own_hook (h : Hook) : bool :=
  match h with
  | HAbsent | HUser _ _ => true
  | _ => false
  end.

Definition own_hooks (i : ComponentInterface) : bool :=
  own_hook (connectedCallback i) && own_hook (disconnectedCallback i)
  && own_hook (render i).

Definition is_function (h : Hook) : bool :=
  match h with HUser _ _ => true | _ => false end.

(** The slot holds the wrapper [w] or a hook of the author. *)
Definition wrapper_or_own (w h : Hook) : Prop := h = w \/ own_hook h = true.

(** The hooks of component [c] are the author's, except that while [c] is
    registered a slot may hold the wrapper of its registration. *)
Definition hooks_ok (st : State) (c : nat) : Prop :=
  match JsMap.get c (componentRegistrations st) with
  | Some r =>
      wrapper_or_own (HConnect c r) (connectedCallback (component_at st c))
      /\ wrapper_or_own (HDisconnect c r) (disconnectedCallback (component_at st c))
      /\ wrapper_or_own (HRender c r) (render (component_at st c))
  | None => own_hooks (component_at st c) = true
  end.

(** Wrappers are found only in the slots of the component they were made
    for, and only while it is registered; snapshots hold hooks of the author;
    the snapshot of a registered component has a render function; and the
    component being rendered is registered or has a render function. *)
Definition tidy (st : State) : Prop :=
  (forall c, hooks_ok st c)
  /\ (forall r, own_hooks (origMethods (reg_at st r)) = true)
  /\ (forall c r, JsMap.get c (componentRegistrations st) = Some r ->
                  is_function (render (origMethods (reg_at st r))) = true)
  /\ (forall c, renderingRef st = Some c ->
                JsMap.has c (componentRegistrations st) = true
                \/ is_function (render (component_at st c)) = true).

(** From [st] to [st'] hooks, registry, rendering reference and snapshots
    are the same. *)
Definition steady (st st' : State) : Prop :=
  components st' = components st
  /\ componentRegistrations st' = componentRegistrations st
  /\ renderingRef st' = renderingRef st
  /\ (forall r, origMethods (reg_at st' r) = origMethods (reg_at st r)).

Definition calm {A} (m : M A) : Prop := forall st, steady st (after m st).

Definition safe_at {A} (m : M A) (st : State) : Prop :=
  wf st -> tidy st ->
  wf (after m st) /\ tidy (after m st)
  /\ renderingRef (after m st) = renderingRef st.

Definition safe {A} (m : M A) : Prop := forall st, safe_at m st.

(** An event in which the hooks assigned, if any, are the author's own. *)
Definition plain_event (e : Event) : bool :=
  match e with
  | Assigns _ hooks => own_hooks hooks
  | _ => true
  end.

(** * Properties *)

(** ** Maps *)

Module JsMapFacts.
Import JsMap.

Lemma get_set_eq {V} k (v : V) m : get k (set k v m) = Some v.
Proof.
  induction m as [|[k' v'] m IH]; simpl.
  - now rewrite Nat.eqb_refl.
  - destruct (Nat.eqb k' k) eqn:E; simpl.
    + now rewrite Nat.eqb_refl.
    + now rewrite E.
Qed.

Lemma get_set_ne {V} k k' (v : V) m : k <> k' -> get k' (set k v m) = get k' m.
Proof.
  intros Hne. induction m as [|[k0 v0] m IH]; simpl.
  - destruct (Nat.eqb_spec k k'); congruence.
  - destruct (Nat.eqb_spec k0 k) as [->|Hk]; simpl.
    + destruct (Nat.eqb_spec k k'); congruence.
    + destruct (Nat.eqb_spec k0 k'); congruence.
Qed.

Lemma get_delete_eq {V} k (m : t V) : get k (delete k m) = None.
Proof.
  induction m as [|[k0 v0] m IH]; simpl; [reflexivity|].
  destruct (Nat.eqb k0 k) eqn:E; simpl; [assumption|now rewrite E].
Qed.

Lemma get_delete_ne {V} k k' (m : t V) : k <> k' -> get k' (delete k m) = get k' m.
Proof.
  intros Hne. induction m as [|[k0 v0] m IH]; simpl; [reflexivity|].
  destruct (Nat.eqb_spec k0 k) as [->|Hk]; simpl.
  - destruct (Nat.eqb_spec k k'); congruence.
  - destruct (Nat.eqb_spec k0 k'); congruence.
Qed.

Lemma get_None_keys {V} k (m : t V) : get k m = None <-> ~ In k (keys m).
Proof.
  induction m as [|[k0 v0] m IH]; simpl; [tauto|].
  destruct (Nat.eqb_spec k0 k) as [->|Hk].
  - split; [discriminate|tauto].
  - rewrite IH. tauto.
Qed.

Lemma has_keys {V} k (m : t V) : has k m = true <-> In k (keys m).
Proof.
  unfold has. destruct (get k m) eqn:E.
  - split; [intros _|reflexivity].
    destruct (in_dec Nat.eq_dec k (keys m)) as [|Hn]; [assumption|].
    apply get_None_keys in Hn. congruence.
  - split; [discriminate|]. intros Hin. apply get_None_keys in E. tauto.
Qed.

Lemma has_false_get {V} k (m : t V) : has k m = false <-> get k m = None.
Proof. unfold has. destruct (get k m); split; congruence. Qed.

Lemma has_true_get {V} k (m : t V) : has k m = true <-> exists v, get k m = Some v.
Proof.
  unfold has. destruct (get k m); split; eauto; try discriminate.
  intros [? ?]; discriminate.
Qed.

Lemma get_Some_values {V} k (v : V) m : get k m = Some v -> In v (values m).
Proof.
  induction m as [|[k0 v0] m IH]; simpl; [discriminate|].
  destruct (Nat.eqb k0 k); [intros [= ->]; now left|auto].
Qed.

Lemma keys_delete {V} k k' (m : t V) :
  In k' (keys (delete k m)) <-> k' <> k /\ In k' (keys m).
Proof.
  induction m as [|[k0 v0] m IH]; simpl; [tauto|].
  destruct (Nat.eqb_spec k0 k) as [->|Hk]; simpl; rewrite IH.
  - split; [tauto|]. intros [Hne [Heq|Hin]]; [congruence|tauto].
  - split; [|tauto]. intros [<-|[? ?]]; [split; [assumption|now left]|tauto].
Qed.

Lemma keys_set {V} k k' (v : V) m :
  In k' (keys (set k v m)) <-> k' = k \/ In k' (keys m).
Proof.
  induction m as [|[k0 v0] m IH]; simpl.
  - intuition congruence.
  - destruct (Nat.eqb_spec k0 k) as [->|Hk]; simpl; [intuition congruence|].
    rewrite IH. tauto.
Qed.

Lemma NoDup_keys_set {V} k (v : V) m : NoDup (keys m) -> NoDup (keys (set k v m)).
Proof.
  induction m as [|[k0 v0] m IH]; simpl; intros Hnd.
  - repeat constructor. now rewrite list_elem_of_In.
  - apply NoDup_cons in Hnd as [Hnot Hnd].
    destruct (Nat.eqb_spec k0 k) as [->|Hk]; simpl.
    + now apply NoDup_cons.
    + apply NoDup_cons. split; [|auto].
      rewrite list_elem_of_In in Hnot |- *.
      rewrite keys_set. intros [?|Hin]; [congruence|tauto].
Qed.

Lemma NoDup_keys_delete {V} k (m : t V) : NoDup (keys m) -> NoDup (keys (delete k m)).
Proof.
  induction m as [|[k0 v0] m IH]; simpl; intros Hnd; [assumption|].
  apply NoDup_cons in Hnd as [Hnot Hnd].
  destruct (Nat.eqb k0 k); simpl; [auto|].
  apply NoDup_cons. split; [|auto].
  rewrite list_elem_of_In in Hnot |- *. rewrite keys_delete. tauto.
Qed.

Lemma delete_absent {V} k (m : t V) : get k m = None -> delete k m = m.
Proof.
  induction m as [|[k0 v0] m IH]; simpl; [reflexivity|].
  destruct (Nat.eqb k0 k); [discriminate|]. intros H. now rewrite IH.
Qed.

Lemma delete_set_absent {V} k (v : V) (m : t V) :
  get k m = None -> delete k (set k v m) = m.
Proof.
  induction m as [|[k0 v0] m IH]; simpl.
  - now rewrite Nat.eqb_refl.
  - destruct (Nat.eqb k0 k) eqn:E; [discriminate|].
    intros H. simpl. rewrite E. now rewrite IH.
Qed.
End JsMapFacts.

(** ** Records and state updates *)

Lemma hooks_eta (h : ComponentInterface) :
  {| connectedCallback := connectedCallback h;
     disconnectedCallback := disconnectedCallback h;
     render := render h |} = h.
Proof. now destruct h. Qed.

Lemma component_at_set st c h f :
  (forall m, JsMap.get c (f m) = Some h) ->
  component_at (set_components f st) c = h.
Proof. intros Hf. unfold component_at. simpl. now rewrite Hf. Qed.

(** ** Closing subscriptions *)

Lemma close_all_length ids l : length (close_all ids l) = length l.
Proof.
  revert l. induction ids as [|i ids IH]; intros l; simpl; [reflexivity|].
  unfold close_all in *. simpl. rewrite IH. apply length_alter.
Qed.

Lemma close_all_lookup ids l i s :
  l !! i = Some s ->
  exists s', close_all ids l !! i = Some s'
    /\ sub_source s' = sub_source s /\ sub_next s' = sub_next s
    /\ (sub_closed s = true -> sub_closed s' = true)
    /\ (In i ids -> sub_closed s' = true)
    /\ (~ In i ids -> s' = s).
Proof.
  revert l s. induction ids as [|j ids IH]; intros l s Hl.
  - exists s. simpl. tauto.
  - unfold close_all in *. simpl.
    destruct (Nat.eq_dec j i) as [->|Hne].
    + destruct (IH (alter close i l) (close s)) as (s' & H1 & H2 & H3 & H4 & H5 & H6).
      { rewrite list_lookup_alter_eq, Hl. reflexivity. }
      exists s'. simpl in *. intuition congruence.
    + destruct (IH (alter close j l) s) as (s' & H1 & H2 & H3 & H4 & H5 & H6).
      { now rewrite list_lookup_alter_ne. }
      exists s'. simpl. intuition congruence.
Qed.

Lemma forEach_unsubscribe_of os st :
  forallb (fun o => match subscription (oreg_at st o) with
                    | Some _ => true
                    | None => false
                    end) os = true ->
  forEach unsubscribe_of os st
  = (Returned tt, set_subs (close_all (handles st os)) st).
Proof.
  revert st. induction os as [|o os IH]; intros st Hall.
  - now destruct st.
  - simpl in Hall. apply andb_true_iff in Hall as [Hsub Hall].
    destruct (subscription (oreg_at st o)) as [sub|] eqn:Esub; [|discriminate].
    clear Hsub. rename Esub into Hsub.
    simpl. unfold bind at 1. unfold unsubscribe_of at 1, bind, get_state.
    cbv beta. rewrite Hsub. unfold unsubscribe, modify.
    rewrite IH by exact Hall.
    now destruct st.
Qed.

(** ** [init] and [destroy] *)

Lemma init_installed st c :
  JsMap.has c (componentRegistrations st) = true ->
  init c st = (Returned tt, st).
Proof. intros H. unfold init, bind, get_state. now rewrite H. Qed.

Lemma init_fresh st c :
  JsMap.has c (componentRegistrations st) = false ->
  init c st
  = (Returned tt,
     set_components
       (JsMap.set c {| connectedCallback := HConnect c (length (regs st));
                       disconnectedCallback := HDisconnect c (length (regs st));
                       render := HRender c (length (regs st)) |})
       (set_componentRegistrations (JsMap.set c (length (regs st)))
          (set_regs (fun l => l ++ [ {| promises := []; observables := [];
                                        recentlyUsedObservables := [];
                                        origMethods := component_at st c |} ])
             st))).
Proof.
  intros H. unfold init, bind, get_state. rewrite H.
  unfold modify. now rewrite hooks_eta.
Qed.

Lemma destroy_absent st c :
  JsMap.get c (componentRegistrations st) = None ->
  destroy c st = (Returned tt, st).
Proof. intros H. unfold destroy, bind, get_state. now rewrite H. Qed.

Lemma destroy_live st c r :
  JsMap.get c (componentRegistrations st) = Some r ->
  attached st (reg_at st r) = true ->
  destroy c st
  = (Returned tt,
     set_components (JsMap.set c (origMethods (reg_at st r)))
       (set_componentRegistrations (JsMap.delete c)
          (set_subs
             (close_all (handles st (JsMap.values (observables (reg_at st r)))))
             st))).
Proof.
  intros Hget Hatt. unfold destroy, bind at 1, get_state. rewrite Hget.
  unfold bind at 1. rewrite forEach_unsubscribe_of by exact Hatt.
  unfold bind, modify, get_state.
  change (reg_at (set_componentRegistrations _ (set_subs _ st)) r) with (reg_at st r).
  now rewrite hooks_eta.
Qed.

Lemma handles_In st os o sub :
  In o os -> subscription (oreg_at st o) = Some sub -> In sub (handles st os).
Proof.
  intros Hin Hsub. unfold handles. apply list_elem_of_In.
  apply list_elem_of_omap. exists o. split; [now apply list_elem_of_In|assumption].
Qed.

(** ** Hooks after [destroy] *)

(** C10. Whatever the component's three hook slots hold when [destroy] runs
    on a live binding, it overwrites all three with the registration's
    snapshot: hooks assigned since installation are discarded, and a slot
    whose snapshot is absent ends up absent. *)
Theorem destroy_overwrites_hooks (st : State) (c r : nat) (assigned : ComponentInterface) :
  JsMap.get c (componentRegistrations st) = Some r ->
  attached st (reg_at st r) = true ->
  let st1 := set_components (JsMap.set c assigned) st in
  let st2 := after (destroy c) st1 in
  component_at st1 c = assigned
  /\ fst (destroy c st1) = Returned tt
  /\ connectedCallback (component_at st2 c) = connectedCallback (origMethods (reg_at st r))
  /\ disconnectedCallback (component_at st2 c) = disconnectedCallback (origMethods (reg_at st r))
  /\ render (component_at st2 c) = render (origMethods (reg_at st r))
  /\ (connectedCallback (origMethods (reg_at st r)) = HAbsent ->
      connectedCallback (component_at st2 c) = HAbsent)
  /\ (disconnectedCallback (origMethods (reg_at st r)) = HAbsent ->
      disconnectedCallback (component_at st2 c) = HAbsent)
  /\ (render (origMethods (reg_at st r)) = HAbsent ->
      render (component_at st2 c) = HAbsent).
Proof.
  intros Hget Hatt st1 st2.
  assert (H1 : component_at st1 c = assigned).
  { apply component_at_set. intros m. apply JsMapFacts.get_set_eq. }
  assert (Hd : destroy c st1
               = (Returned tt,
                  set_components (JsMap.set c (origMethods (reg_at st r)))
                    (set_componentRegistrations (JsMap.delete c)
                       (set_subs
                          (close_all (handles st1 (JsMap.values (observables (reg_at st r)))))
                          st1)))).
  { apply (destroy_live st1 c r); assumption. }
  assert (H2 : component_at st2 c = origMethods (reg_at st r)).
  { unfold st2, after. rewrite Hd. cbn [snd].
    apply component_at_set. intros m. apply JsMapFacts.get_set_eq. }
  rewrite H2, Hd. cbn [fst]. repeat split; auto.
Qed.

Lemma destroy_overwrites_hooks_witness :
  let assigned := {| connectedCallback := HUser 5 (Ret VNull);
                     disconnectedCallback := HUser 6 (Ret VNull);
                     render := HUser 7 (Ret VNull) |} in
  let st1 := set_components (JsMap.set 0 assigned) stream_rendered in
  component_at st1 0 = assigned
  /\ connectedCallback (component_at (after (destroy 0) st1) 0) = HAbsent
  /\ render (component_at (after (destroy 0) st1) 0) = HUser 1 (Read aStream Ret).
Proof.
  intros assigned st1.
  destruct (destroy_overwrites_hooks stream_rendered 0 0 assigned)
    as (H1 & _ & H3 & _ & H5 & _); [reflexivity|reflexivity|].
  repeat split; assumption.
Defined.

(** ** Classification *)

(** C9. An argument with neither capability is reported on the console and
    [readAsync] returns [undefined]; nothing else in the state changes, so no
    binding entry is created, and nothing is thrown. [null] and [undefined]
    are such arguments. An object with both capabilities is read as a
    promise. *)
Theorem readAsync_invalid_source (obj : Value) (st : State) :
  (invalid obj = true ->
   readAsync obj st
   = (Returned VUndefined, set_console (fun l => l ++ [(typeof obj, obj)]) st))
  /\ (isPromise obj = true -> isSubscribable obj = true ->
      readAsync obj st = getPromiseValue obj st)
  /\ invalid VNull = true /\ invalid VUndefined = true.
Proof.
  repeat split.
  - unfold invalid. intros H. apply andb_true_iff in H as [Hp Hs].
    apply negb_true_iff in Hp, Hs.
    unfold readAsync, getAsyncValue. now rewrite Hp, Hs.
  - intros Hp _. unfold readAsync, getAsyncValue. now rewrite Hp.
Qed.

Lemma readAsync_invalid_source_witness :
  readAsync VNull stream_rendered
  = (Returned VUndefined,
     set_console (fun l => l ++ [("object", VNull)]) stream_rendered)
  /\ readAsync aBoth stream_rendered = getPromiseValue aBoth stream_rendered.
Proof.
  split.
  - apply (proj1 (readAsync_invalid_source VNull stream_rendered)). reflexivity.
  - apply (proj1 (proj2 (readAsync_invalid_source aBoth stream_rendered)));
      reflexivity.
Defined.

(** ** Callbacks that fire late *)

Lemma run_callback_eq cb v st :
  run_callback cb v st
  = (Returned tt,
     set_forceUpdates (fun l => l ++ [cb_component cb])
       (match cb with
        | CbPromise _ r p =>
            update_reg r (with_promises (JsMap.set p (VArr [v]))) st
        | CbObservable _ o => update_oreg o (with_result (Some v)) st
        end)).
Proof. now destruct cb. Qed.

Lemma deliver_closed sub v st x :
  subs st !! sub = Some x -> sub_closed x = true ->
  deliver sub v st = (Returned tt, st).
Proof.
  intros Hx Hc. unfold deliver, bind, get_state. now rewrite Hx, Hc.
Qed.

(** C2, as the code has it. A continuation or an emission callback that runs
    after its binding was destroyed does not bring the binding back and leaves
    the hooks, the subscriptions and the promises' queues alone, but it is not
    a no-op: it stores its value in the detached record it captured and
    requests a re-render of the component. What keeps a destroyed binding's
    streams quiet is that their subscriptions were closed: a value pushed to a
    closed subscription is dropped. *)
Theorem late_callback_effect (st : State) (cb : Callback) (v : Value) :
  JsMap.get (cb_component cb) (componentRegistrations st) = None ->
  exists st',
    run_callback cb v st = (Returned tt, st')
    /\ componentRegistrations st' = componentRegistrations st
    /\ JsMap.get (cb_component cb) (componentRegistrations st') = None
    /\ components st' = components st
    /\ subs st' = subs st
    /\ thenables st' = thenables st
    /\ forceUpdates st' = forceUpdates st ++ [cb_component cb]
    /\ match cb with
       | CbPromise _ r p =>
           regs st' = alter (with_promises (JsMap.set p (VArr [v]))) r (regs st)
           /\ oregs st' = oregs st
       | CbObservable _ o =>
           oregs st' = alter (with_result (Some v)) o (oregs st)
           /\ regs st' = regs st
       end
    /\ (forall sub x w, subs st !! sub = Some x -> sub_closed x = true ->
                        deliver sub w st = (Returned tt, st)).
Proof.
  intros Habs. eexists. split; [apply run_callback_eq|].
  destruct cb; cbn; repeat split; auto; intros; eapply deliver_closed; eauto.
Qed.

Lemma late_callback_effect_witness :
  exists st',
    run_callback (CbPromise 0 0 7) (VStr "X") promise_disconnected = (Returned tt, st')
    /\ forceUpdates st' = [0]
    /\ JsMap.get 7 (promises (reg_at st' 0)) = Some (VArr [VStr "X"]).
Proof.
  destruct (late_callback_effect promise_disconnected (CbPromise 0 0 7) (VStr "X"))
    as (st' & H1 & _ & _ & _ & _ & _ & H2 & [H3 _] & _); [reflexivity|].
  exists st'. split; [exact H1|]. split; [exact H2|].
  unfold reg_at. rewrite H3. reflexivity.
Defined.

(** C2, as stated, fails: the component of [promise_disconnected] has no
    binding any more, yet when its promise settles the continuation changes
    the detached record and requests a re-render. *)
Lemma late_continuation_not_noop :
  JsMap.get 0 (componentRegistrations promise_disconnected) = None
  /\ forceUpdates promise_disconnected = []
  /\ forceUpdates (after (settle 7 (VStr "X")) promise_disconnected) = [0]
  /\ regs (after (settle 7 (VStr "X")) promise_disconnected)
     <> regs promise_disconnected
  /\ run_callback (CbPromise 0 0 7) (VStr "X") promise_disconnected
     <> (Returned tt, promise_disconnected).
Proof.
  repeat split; try reflexivity; vm_compute; intros H; discriminate H.
Qed.

(** ** States are equal when their fields are *)

Lemma State_eq (a b : State) :
  componentRegistrations a = componentRegistrations b ->
  regs a = regs b -> oregs a = oregs b -> components a = components b ->
  renderingRef a = renderingRef b -> forceUpdates a = forceUpdates b ->
  console a = console b -> calls a = calls b -> thenables a = thenables b ->
  sync_emits a = sync_emits b -> subs a = subs b -> a = b.
Proof. destruct a, b; simpl; intros; subst; reflexivity. Qed.

Lemma with_result_twice v w (l : list ObservableRegistration) (o : nat) :
  alter (with_result (Some w)) o (alter (with_result (Some v)) o l)
  = alter (with_result (Some w)) o l.
Proof.
  rewrite list_alter_alter_eq. apply list_alter_ext; [|reflexivity].
  intros x _. reflexivity.
Qed.

(** ** Delivering values to an open subscription *)

Lemma emitted_cons c o v vs st :
  emitted c o vs (emitted c o [v] st) = emitted c o (v :: vs) st.
Proof.
  unfold emitted. cbn [last length repeat].
  destruct vs as [|w vs].
  - apply State_eq; try reflexivity. cbn. now rewrite app_nil_r.
  - change (last (v :: w :: vs)) with (last (w :: vs)).
    destruct (last (w :: vs)) as [z|] eqn:E.
    + apply State_eq; try reflexivity.
      * cbn. apply with_result_twice.
      * cbn. now rewrite <- app_assoc.
    + apply last_None in E. discriminate.
Qed.

Lemma emitted_nil c o st : emitted c o [] st = st.
Proof. apply State_eq; try reflexivity. cbn. apply app_nil_r. Qed.

Lemma deliver_open sub v st x c o :
  subs st !! sub = Some x -> sub_closed x = false ->
  sub_next x = CbObservable c o ->
  deliver sub v st = (Returned tt, emitted c o [v] st).
Proof.
  intros Hx Hc Hn. unfold deliver, bind, get_state. rewrite Hx, Hc, Hn.
  reflexivity.
Qed.

Lemma forEach_deliver_open sub vs st x c o :
  subs st !! sub = Some x -> sub_closed x = false ->
  sub_next x = CbObservable c o ->
  forEach (deliver sub) vs st = (Returned tt, emitted c o vs st).
Proof.
  intros Hx Hc Hn. revert st Hx.
  induction vs as [|v vs IH]; intros st Hx.
  - cbn [forEach]. unfold ret. now rewrite emitted_nil.
  - cbn [forEach]. unfold bind.
    rewrite (deliver_open sub v st x c o Hx Hc Hn).
    rewrite IH by exact Hx. now rewrite emitted_cons.
Qed.

(** ** Looking up the registration *)

Lemma getComponentRegistration_live st c r :
  JsMap.get c (componentRegistrations st) = Some r ->
  getComponentRegistration c st = (Returned r, st).
Proof.
  intros H. unfold getComponentRegistration, bind, get_state.
  assert (Hh : JsMap.has c (componentRegistrations st) = true).
  { apply JsMapFacts.has_true_get. eauto. }
  rewrite Hh. cbn. now rewrite H.
Qed.

Lemma getComponentRegistration_fresh st c :
  JsMap.has c (componentRegistrations st) = false ->
  getComponentRegistration c st
  = (Returned (length (regs st)), after (init c) st).
Proof.
  intros H. unfold getComponentRegistration, bind at 1, get_state.
  rewrite H. unfold bind at 1, after.
  rewrite (init_fresh st c H). cbn [snd]. unfold bind, get_state.
  cbn [componentRegistrations set_components set_componentRegistrations].
  now rewrite JsMapFacts.get_set_eq.
Qed.

Lemma init_fresh_live st c :
  JsMap.has c (componentRegistrations st) = false ->
  let st1 := after (init c) st in
  JsMap.get c (componentRegistrations st1) = Some (length (regs st))
  /\ reg_at st1 (length (regs st))
     = {| promises := []; observables := []; recentlyUsedObservables := [];
          origMethods := component_at st c |}
  /\ length (regs st1) = S (length (regs st))
  /\ renderingRef st1 = renderingRef st
  /\ oregs st1 = oregs st /\ subs st1 = subs st
  /\ thenables st1 = thenables st /\ sync_emits st1 = sync_emits st
  /\ forceUpdates st1 = forceUpdates st.
Proof.
  intros H st1. unfold st1, after. rewrite (init_fresh st c H). cbn [snd].
  split; [apply JsMapFacts.get_set_eq|]. split.
  - unfold reg_at. cbn. rewrite lookup_app_r by lia. now rewrite Nat.sub_diag.
  - cbn. rewrite length_app. cbn. repeat split; lia.
Qed.

(** ** Running the monad *)

Ltac mstep := unfold bind, ret, modify, get_state, throw; cbv beta iota.
Ltac msimpl := repeat progress mstep.
Ltac enter_read Href :=
  unfold bind at 1, getRenderingRef; rewrite Href;
  unfold bind at 1, deref, ret at 1; unfold bind at 1.

(** ** Registration records after an update *)

Lemma reg_at_update_eq st r f :
  r < length (regs st) -> reg_at (update_reg r f st) r = f (reg_at st r).
Proof.
  intros Hr. unfold reg_at, update_reg. cbn.
  rewrite list_lookup_alter_eq.
  destruct (lookup_lt_is_Some_2 (regs st) r Hr) as [R ->]. reflexivity.
Qed.

Lemma reg_at_update_ne st r r' f :
  r <> r' -> reg_at (update_reg r f st) r' = reg_at st r'.
Proof.
  intros Hne. unfold reg_at, update_reg. cbn.
  now rewrite list_lookup_alter_ne.
Qed.

Lemma reg_at_bound st r :
  reg_at st r <> empty_reg -> r < length (regs st).
Proof.
  intros H. destruct (Nat.lt_ge_cases r (length (regs st))) as [|Hge]; [assumption|].
  exfalso. apply H. unfold reg_at. now rewrite lookup_ge_None_2.
Qed.

Lemma oreg_at_update_eq st o f :
  o < length (oregs st) -> oreg_at (update_oreg o f st) o = f (oreg_at st o).
Proof.
  intros Ho. unfold oreg_at, update_oreg. cbn.
  rewrite list_lookup_alter_eq.
  destruct (lookup_lt_is_Some_2 (oregs st) o Ho) as [R ->]. reflexivity.
Qed.

Lemma oreg_at_update_ne st o o' f :
  o <> o' -> oreg_at (update_oreg o f st) o' = oreg_at st o'.
Proof.
  intros Hne. unfold oreg_at, update_oreg. cbn.
  now rewrite list_lookup_alter_ne.
Qed.

(** ** What [emitted] changes *)

Lemma emitted_frame c o vs st :
  componentRegistrations (emitted c o vs st) = componentRegistrations st
  /\ regs (emitted c o vs st) = regs st
  /\ components (emitted c o vs st) = components st
  /\ renderingRef (emitted c o vs st) = renderingRef st
  /\ console (emitted c o vs st) = console st
  /\ calls (emitted c o vs st) = calls st
  /\ thenables (emitted c o vs st) = thenables st
  /\ sync_emits (emitted c o vs st) = sync_emits st
  /\ subs (emitted c o vs st) = subs st
  /\ forceUpdates (emitted c o vs st) = forceUpdates st ++ repeat c (length vs)
  /\ length (oregs (emitted c o vs st)) = length (oregs st).
Proof.
  unfold emitted. destruct (last vs); cbn; repeat split; auto.
  apply length_alter.
Qed.

Lemma emitted_oregs c o vs st :
  oregs (emitted c o vs st)
  = match last vs with
    | Some v => alter (with_result (Some v)) o (oregs st)
    | None => oregs st
    end.
Proof. unfold emitted. now destruct (last vs). Qed.

(** ** Reading a promise *)

Lemma getPromiseValue_known st c r obj :
  renderingRef st = Some c ->
  JsMap.get c (componentRegistrations st) = Some r ->
  JsMap.has (ident obj) (promises (reg_at st r)) = true ->
  getPromiseValue obj st
  = (Returned (default VUndefined (JsMap.get (ident obj) (promises (reg_at st r)))), st).
Proof.
  intros Href Hget Hhas. unfold getPromiseValue, bind at 1, getRenderingRef.
  rewrite Href. unfold bind at 1, deref, ret at 1.
  unfold bind at 1. rewrite (getComponentRegistration_live st c r Hget).
  unfold bind, get_state. rewrite Hhas. reflexivity.
Qed.

Lemma getPromiseValue_first st c r obj :
  renderingRef st = Some c ->
  JsMap.get c (componentRegistrations st) = Some r ->
  r < length (regs st) ->
  JsMap.has (ident obj) (promises (reg_at st r)) = false ->
  getPromiseValue obj st = (Returned VNull, continued c r (ident obj) st).
Proof.
  intros Href Hget Hr Hhas. unfold getPromiseValue, bind at 1, getRenderingRef.
  rewrite Href. unfold bind at 1, deref, ret at 1.
  unfold bind at 1. rewrite (getComponentRegistration_live st c r Hget).
  unfold bind, get_state. rewrite Hhas.
  unfold promise_then. msimpl.
  change (reg_at (set_thenables ?f ?s) r) with (reg_at s r).
  rewrite reg_at_update_eq by assumption. cbn [promises with_promises].
  rewrite JsMapFacts.get_set_eq. reflexivity.
Qed.

Lemma getPromiseValue_init st c obj :
  renderingRef st = Some c ->
  JsMap.has c (componentRegistrations st) = false ->
  getPromiseValue obj st = getPromiseValue obj (after (init c) st).
Proof.
  intros Href Hhas.
  destruct (init_fresh_live st c Hhas) as (Hget & _ & _ & Href' & _).
  rewrite Href in Href'.
  unfold getPromiseValue at 1. enter_read Href.
  rewrite (getComponentRegistration_fresh st c Hhas).
  symmetry. unfold getPromiseValue at 1. enter_read Href'.
  now rewrite (getComponentRegistration_live _ c _ Hget).
Qed.

(** ** Reading a stream *)

Lemma getObservableValue_bound st c r obj o :
  renderingRef st = Some c ->
  JsMap.get c (componentRegistrations st) = Some r ->
  r < length (regs st) ->
  JsMap.get (ident obj) (observables (reg_at st r)) = Some o ->
  getObservableValue obj st
  = (Returned (default VUndefined (result (oreg_at st o))),
     update_reg r (with_recentlyUsedObservables (fun l => l ++ [ident obj])) st).
Proof.
  intros Href Hget Hr Ho. unfold getObservableValue, bind at 1, getRenderingRef.
  rewrite Href. unfold bind at 1, deref, ret at 1.
  unfold bind at 1. rewrite (getComponentRegistration_live st c r Hget).
  unfold bind, get_state, modify. cbn [fst snd].
  rewrite reg_at_update_eq by assumption.
  cbn [observables with_recentlyUsedObservables].
  unfold JsMap.has. rewrite Ho. unfold ret.
  rewrite reg_at_update_eq by assumption.
  cbn [observables with_recentlyUsedObservables]. rewrite Ho. reflexivity.
Qed.

Lemma subscribed_reg c r s st :
  r < length (regs st) ->
  reg_at (subscribed c r s st) r
  = {| promises := promises (reg_at st r);
       observables := JsMap.set s (length (oregs st)) (observables (reg_at st r));
       recentlyUsedObservables := recentlyUsedObservables (reg_at st r) ++ [s];
       origMethods := origMethods (reg_at st r) |}.
Proof.
  intros Hr. unfold subscribed.
  rewrite reg_at_update_eq.
  - unfold reg_at at 1. cbn [regs update_oreg set_oregs].
    destruct (emitted_frame c (length (oregs st))
                (default [] (JsMap.get s (sync_emits st)))
                (set_subs
                   (fun l => l ++ [{| sub_source := s;
                                      sub_next := CbObservable c (length (oregs st));
                                      sub_closed := false |}])
                   (set_oregs (fun l => l ++ [empty_oreg])
                      (update_reg r (with_recentlyUsedObservables (fun l => l ++ [s])) st))))
      as (_ & -> & _).
    change (default empty_reg (regs (set_subs ?f (set_oregs ?g ?x)) !! r))
      with (reg_at x r).
    rewrite reg_at_update_eq by assumption. reflexivity.
  - cbn [regs update_oreg set_oregs].
    destruct (emitted_frame c (length (oregs st))
                (default [] (JsMap.get s (sync_emits st)))
                (set_subs
                   (fun l => l ++ [{| sub_source := s;
                                      sub_next := CbObservable c (length (oregs st));
                                      sub_closed := false |}])
                   (set_oregs (fun l => l ++ [empty_oreg])
                      (update_reg r (with_recentlyUsedObservables (fun l => l ++ [s])) st))))
      as (_ & -> & _).
    cbn. now rewrite length_alter.
Qed.

Lemma subscribed_oregs c r s st :
  oregs (subscribed c r s st)
  = oregs st ++ [{| subscription := Some (length (subs st));
                    result := last (default [] (JsMap.get s (sync_emits st))) |}].
Proof.
  unfold subscribed. cbn [oregs update_reg set_regs update_oreg set_oregs].
  rewrite emitted_oregs. cbn [oregs set_subs set_oregs update_reg set_regs].
  destruct (last (default [] (JsMap.get s (sync_emits st)))) as [v|].
  - rewrite list_alter_alter_eq.
    rewrite (alter_app_r_alt _ (oregs st) [empty_oreg] (length (oregs st)))
      by lia.
    now rewrite Nat.sub_diag.
  - rewrite (alter_app_r_alt _ (oregs st) [empty_oreg] (length (oregs st)))
      by lia.
    now rewrite Nat.sub_diag.
Qed.

Lemma subscribed_frame c r s st :
  componentRegistrations (subscribed c r s st) = componentRegistrations st
  /\ components (subscribed c r s st) = components st
  /\ renderingRef (subscribed c r s st) = renderingRef st
  /\ console (subscribed c r s st) = console st
  /\ calls (subscribed c r s st) = calls st
  /\ thenables (subscribed c r s st) = thenables st
  /\ sync_emits (subscribed c r s st) = sync_emits st
  /\ subs (subscribed c r s st)
     = subs st ++ [{| sub_source := s;
                      sub_next := CbObservable c (length (oregs st));
                      sub_closed := false |}]
  /\ forceUpdates (subscribed c r s st)
     = forceUpdates st
       ++ repeat c (length (default [] (JsMap.get s (sync_emits st))))
  /\ length (regs (subscribed c r s st)) = length (regs st)
  /\ (forall r', r' <> r -> reg_at (subscribed c r s st) r' = reg_at st r').
Proof.
  unfold subscribed.
  set (st3 := set_subs _ _).
  destruct (emitted_frame c (length (oregs st))
              (default [] (JsMap.get s (sync_emits st))) st3)
    as (H1 & H2 & H3 & H4 & H5 & H6 & H7 & H8 & H9 & H10 & H11).
  cbn [componentRegistrations components renderingRef console calls thenables
       sync_emits subs forceUpdates regs update_reg update_oreg set_regs set_oregs].
  rewrite H1, H3, H4, H5, H6, H7, H8, H9, H10, H2.
  repeat split; try reflexivity.
  - cbn. now rewrite !length_alter.
  - intros r' Hne. unfold reg_at.
    cbn [regs update_reg update_oreg set_regs set_oregs].
    rewrite H2. cbn. now rewrite !list_lookup_alter_ne by congruence.
Qed.

Lemma getObservableValue_fresh st c r obj :
  renderingRef st = Some c ->
  JsMap.get c (componentRegistrations st) = Some r ->
  r < length (regs st) ->
  JsMap.has (ident obj) (observables (reg_at st r)) = false ->
  getObservableValue obj st
  = (Returned (default VUndefined
                 (last (default [] (JsMap.get (ident obj) (sync_emits st))))),
     subscribed c r (ident obj) st).
Proof.
  intros Href Hget Hr Hhas. unfold getObservableValue, bind at 1, getRenderingRef.
  rewrite Href. unfold bind at 1, deref, ret at 1.
  unfold bind at 1. rewrite (getComponentRegistration_live st c r Hget).
  unfold bind at 1, modify at 1. unfold bind at 1, get_state at 1.
  rewrite reg_at_update_eq by assumption.
  cbn [observables with_recentlyUsedObservables]. rewrite Hhas.
  unfold bind at 1. unfold bind at 1, modify at 1.
  unfold bind at 1. unfold subscribe, bind at 1, get_state at 1.
  unfold bind at 1, modify at 1. unfold bind at 1.
  cbn [subs set_oregs update_reg set_regs sync_emits oregs].
  erewrite forEach_deliver_open; cycle 1.
  { cbn [subs set_subs set_oregs update_reg set_regs].
    rewrite lookup_app_r by lia. rewrite Nat.sub_diag. reflexivity. }
  { reflexivity. }
  { reflexivity. }
  unfold ret at 1. unfold bind at 1, modify at 1. unfold modify at 1.
  fold (subscribed c r (ident obj) st).
  unfold bind, get_state, ret.
  rewrite subscribed_reg by assumption. cbn [observables].
  rewrite JsMapFacts.get_set_eq.
  unfold oreg_at. rewrite subscribed_oregs.
  rewrite lookup_app_r by lia. rewrite Nat.sub_diag. reflexivity.
Qed.

Lemma getObservableValue_init st c obj :
  renderingRef st = Some c ->
  JsMap.has c (componentRegistrations st) = false ->
  getObservableValue obj st = getObservableValue obj (after (init c) st).
Proof.
  intros Href Hhas.
  destruct (init_fresh_live st c Hhas) as (Hget & _ & _ & Href' & _).
  rewrite Href in Href'.
  unfold getObservableValue at 1. enter_read Href.
  rewrite (getComponentRegistration_fresh st c Hhas).
  symmetry. unfold getObservableValue at 1. enter_read Href'.
  now rewrite (getComponentRegistration_live _ c _ Hget).
Qed.

(** ** A stream that emits on subscription *)

(** C8. When the stream emits during [subscribe], the first read of it
    returns the value emitted last, the binding stored for the stream holds
    the cancel handle together with that value, and one re-render was
    requested for each value emitted. *)
Theorem first_read_keeps_immediate_emission
    (st : State) (c : nat) (obs : Value) (vs : list Value) (v : Value) :
  isPromise obs = false ->
  isSubscribable obs = true ->
  renderingRef st = Some c ->
  JsMap.get (ident obs) (sync_emits st) = Some (vs ++ [v]) ->
  first_read c (ident obs) st = true ->
  exists st' r o sub,
    readAsync obs st = (Returned v, st')
    /\ JsMap.get c (componentRegistrations st') = Some r
    /\ JsMap.get (ident obs) (observables (reg_at st' r)) = Some o
    /\ oregs st' !! o = Some {| subscription := Some sub; result := Some v |}
    /\ subs st' !! sub
       = Some {| sub_source := ident obs; sub_next := CbObservable c o;
                 sub_closed := false |}
    /\ forceUpdates st' = forceUpdates st ++ repeat c (length (vs ++ [v])).
Proof.
  intros Hp Hs Href Hem Hfirst.
  assert (Hgen : forall st0 r,
             renderingRef st0 = Some c ->
             JsMap.get c (componentRegistrations st0) = Some r ->
             r < length (regs st0) ->
             JsMap.has (ident obs) (observables (reg_at st0 r)) = false ->
             JsMap.get (ident obs) (sync_emits st0) = Some (vs ++ [v]) ->
             forceUpdates st0 = forceUpdates st ->
             exists st' r o sub,
               getObservableValue obs st0 = (Returned v, st')
               /\ JsMap.get c (componentRegistrations st') = Some r
               /\ JsMap.get (ident obs) (observables (reg_at st' r)) = Some o
               /\ oregs st' !! o = Some {| subscription := Some sub; result := Some v |}
               /\ subs st' !! sub
                  = Some {| sub_source := ident obs; sub_next := CbObservable c o;
                            sub_closed := false |}
               /\ forceUpdates st' = forceUpdates st ++ repeat c (length (vs ++ [v]))).
  { intros st0 r Href0 Hget0 Hr0 Hhas0 Hem0 Hfu0.
    exists (subscribed c r (ident obs) st0), r, (length (oregs st0)), (length (subs st0)).
    destruct (subscribed_frame c r (ident obs) st0)
      as (H1 & _ & _ & _ & _ & _ & _ & H8 & H9 & _).
    split.
    { rewrite (getObservableValue_fresh st0 c r obs Href0 Hget0 Hr0 Hhas0).
      rewrite Hem0. cbn [from_option id]. now rewrite last_snoc. }
    split; [now rewrite H1|]. split.
    { rewrite subscribed_reg by assumption. cbn [observables].
      apply JsMapFacts.get_set_eq. }
    split.
    { rewrite subscribed_oregs, Hem0. cbn [from_option id]. rewrite last_snoc.
      rewrite lookup_app_r by lia. now rewrite Nat.sub_diag. }
    split.
    { rewrite H8. rewrite lookup_app_r by lia. now rewrite Nat.sub_diag. }
    rewrite H9, Hem0, Hfu0. reflexivity. }
  unfold readAsync, getAsyncValue. rewrite Hp, Hs.
  unfold first_read in Hfirst.
  destruct (JsMap.get c (componentRegistrations st)) as [r|] eqn:Hget.
  - apply andb_true_iff in Hfirst as [Hr Hhas].
    apply Nat.ltb_lt in Hr. apply negb_true_iff in Hhas.
    apply (Hgen st r); auto.
  - assert (Hhas : JsMap.has c (componentRegistrations st) = false).
    { now apply JsMapFacts.has_false_get. }
    rewrite (getObservableValue_init st c obs Href Hhas).
    destruct (init_fresh_live st c Hhas)
      as (Hget1 & Hreg1 & Hlen1 & Href1 & _ & _ & _ & Hem1 & Hfu1).
    apply (Hgen (after (init c) st) (length (regs st))); auto.
    + congruence.
    + lia.
    + now rewrite Hreg1.
    + now rewrite Hem1.
Qed.

Lemma first_read_keeps_immediate_emission_witness :
  exists st' r o sub,
    readAsync aStream eager_stream_start = (Returned (VNum 2), st')
    /\ JsMap.get 0 (componentRegistrations st') = Some r
    /\ JsMap.get 9 (observables (reg_at st' r)) = Some o
    /\ oregs st' !! o = Some {| subscription := Some sub; result := Some (VNum 2) |}
    /\ subs st' !! sub
       = Some {| sub_source := 9; sub_next := CbObservable 0 o;
                 sub_closed := false |}
    /\ forceUpdates st' = [0; 0].
Proof.
  apply (first_read_keeps_immediate_emission
           eager_stream_start 0 aStream [VNum 1] (VNum 2)); reflexivity.
Defined.

(** ** Settling a promise *)

Lemma forEach_run_callback v l st :
  forEach (fun cb => run_callback cb v) l st = (Returned tt, reacted v l st).
Proof.
  revert st. induction l as [|cb l IH]; intros st; [reflexivity|].
  cbn [forEach]. unfold bind. rewrite run_callback_eq. rewrite IH.
  unfold reacted. cbn [fold_left]. unfold after. now rewrite run_callback_eq.
Qed.

Lemma reacted_snoc v l cb st :
  reacted v (l ++ [cb]) st = after (run_callback cb v) (reacted v l st).
Proof. unfold reacted. now rewrite fold_left_app. Qed.

Lemma reacted_frame v l st :
  componentRegistrations (reacted v l st) = componentRegistrations st
  /\ components (reacted v l st) = components st
  /\ renderingRef (reacted v l st) = renderingRef st
  /\ subs (reacted v l st) = subs st
  /\ thenables (reacted v l st) = thenables st
  /\ length (regs (reacted v l st)) = length (regs st)
  /\ forceUpdates (reacted v l st) = forceUpdates st ++ map cb_component l.
Proof.
  revert st. induction l as [|cb l IH]; intros st.
  - cbn. rewrite app_nil_r. tauto.
  - unfold reacted. cbn [fold_left]. fold (reacted v l (after (run_callback cb v) st)).
    destruct (IH (after (run_callback cb v) st)) as (H1 & H2 & H3 & H4 & H5 & H6 & H7).
    rewrite H1, H2, H3, H4, H5, H6, H7.
    unfold after. rewrite run_callback_eq. cbn [snd map].
    destruct cb; cbn; rewrite ?length_alter, <- ?app_assoc; tauto.
Qed.

Lemma settle_pending st p v :
  settled (thenable_at st p) = None ->
  settle p v st
  = (Returned tt,
     reacted v (reactions (thenable_at st p))
       (set_thenables (JsMap.set p {| settled := Some v; reactions := [] |})
          (set_thenables
             (JsMap.set p {| settled := Some v;
                             reactions := reactions (thenable_at st p) |}) st))).
Proof.
  intros Hp. unfold settle, bind at 1, get_state at 1. rewrite Hp.
  unfold bind at 1, modify at 1. unfold run_reactions, bind at 1, get_state at 1.
  unfold thenable_at at 1 2 3. cbn [thenables set_thenables].
  rewrite JsMapFacts.get_set_eq. cbn [from_option id settled reactions].
  unfold bind at 1, modify at 1.
  rewrite forEach_run_callback.
  now rewrite JsMapFacts.get_set_eq.
Qed.

Lemma settle_settled st p v w :
  settled (thenable_at st p) = Some w -> settle p v st = (Returned tt, st).
Proof. intros Hp. unfold settle, bind, get_state. now rewrite Hp. Qed.

Lemma continued_frame c r p st :
  componentRegistrations (continued c r p st) = componentRegistrations st
  /\ renderingRef (continued c r p st) = renderingRef st
  /\ length (regs (continued c r p st)) = length (regs st)
  /\ forceUpdates (continued c r p st) = forceUpdates st
  /\ thenable_at (continued c r p st) p
     = {| settled := settled (thenable_at st p);
          reactions := reactions (thenable_at st p) ++ [CbPromise c r p] |}.
Proof.
  unfold continued. cbn. rewrite length_alter. repeat split.
  unfold thenable_at. cbn. now rewrite JsMapFacts.get_set_eq.
Qed.

Lemma vsize_wrap v : VArr [v] <> v.
Proof.
  intros H. apply (f_equal vsize) in H. cbn in H. lia.
Qed.

(** The life of a promise read by a component whose binding stays in place:
    unresolved reads, the settlement, settled reads. *)
Lemma promise_lifecycle st c r obj v :
  isPromise obj = true ->
  renderingRef st = Some c ->
  JsMap.get c (componentRegistrations st) = Some r ->
  r < length (regs st) ->
  JsMap.has (ident obj) (promises (reg_at st r)) = false ->
  settled (thenable_at st (ident obj)) = None ->
  let st1 := after (readAsync obj) st in
  let st2 := after (settle (ident obj) v) st1 in
  readAsync obj st = (Returned VNull, st1)
  /\ readAsync obj st1 = (Returned VNull, st1)
  /\ fst (settle (ident obj) v st1) = Returned tt
  /\ readAsync obj st2 = (Returned (VArr [v]), st2)
  /\ forceUpdates st2
     = forceUpdates st
       ++ map cb_component (reactions (thenable_at st (ident obj))) ++ [c]
  /\ (forall w, settle (ident obj) w st2 = (Returned tt, st2)).
Proof.
  intros Hp Href Hget Hr Hhas Hpend st1 st2.
  assert (Hread : readAsync obj st = (Returned VNull, continued c r (ident obj) st)).
  { unfold readAsync, getAsyncValue. rewrite Hp.
    now apply getPromiseValue_first. }
  assert (Hst1 : st1 = continued c r (ident obj) st).
  { unfold st1, after. now rewrite Hread. }
  destruct (continued_frame c r (ident obj) st) as (F1 & F2 & F3 & F4 & F5).
  rewrite <- Hst1 in F1, F2, F3, F4, F5.
  assert (Hreg1 : reg_at st1 r
                  = with_promises (JsMap.set (ident obj) VNull) (reg_at st r)).
  { rewrite Hst1. unfold continued.
    change (reg_at (set_thenables ?f ?s) r) with (reg_at s r).
    now apply reg_at_update_eq. }
  assert (Hpend1 : settled (thenable_at st1 (ident obj)) = None).
  { now rewrite F5. }
  assert (Hsettle := settle_pending st1 (ident obj) v Hpend1).
  rewrite F5 in Hsettle. cbn [reactions] in Hsettle.
  rewrite reacted_snoc in Hsettle.
  set (base := set_thenables _ (set_thenables _ st1)) in Hsettle.
  assert (Hst2 : st2 = after (run_callback (CbPromise c r (ident obj)) v)
                             (reacted v (reactions (thenable_at st (ident obj))) base)).
  { unfold st2, after at 1. now rewrite Hsettle. }
  destruct (reacted_frame v (reactions (thenable_at st (ident obj))) base)
    as (G1 & G2 & G3 & G4 & G5 & G6 & G7).
  set (mid := reacted v (reactions (thenable_at st (ident obj))) base) in *.
  assert (Hst2' : st2 = set_forceUpdates (fun l => l ++ [c])
                          (update_reg r (with_promises (JsMap.set (ident obj) (VArr [v]))) mid)).
  { rewrite Hst2. unfold after. now rewrite run_callback_eq. }
  assert (Hmidlen : r < length (regs mid)).
  { rewrite G6. unfold base. cbn. lia. }
  split; [now rewrite Hst1|].
  split.
  { unfold readAsync, getAsyncValue. rewrite Hp.
    rewrite (getPromiseValue_known st1 c r obj); try congruence.
    - rewrite Hreg1. cbn [promises with_promises].
      now rewrite JsMapFacts.get_set_eq.
    - rewrite Hreg1. cbn [promises with_promises].
      apply JsMapFacts.has_true_get. rewrite JsMapFacts.get_set_eq. eauto. }
  split; [now rewrite Hsettle|].
  assert (Hreg2 : JsMap.get (ident obj) (promises (reg_at st2 r)) = Some (VArr [v])).
  { rewrite Hst2'.
    change (reg_at (set_forceUpdates ?f ?s) r) with (reg_at s r).
    rewrite reg_at_update_eq by assumption. cbn [promises with_promises].
    apply JsMapFacts.get_set_eq. }
  split.
  { unfold readAsync, getAsyncValue. rewrite Hp.
    rewrite (getPromiseValue_known st2 c r obj).
    - now rewrite Hreg2.
    - rewrite Hst2'. cbn. rewrite G3. unfold base. cbn. congruence.
    - rewrite Hst2'. cbn. rewrite G1. unfold base. cbn. congruence.
    - apply JsMapFacts.has_true_get. eauto. }
  split.
  { rewrite Hst2'. cbn. rewrite G7. unfold base. cbn. rewrite F4.
    now rewrite <- app_assoc. }
  intros w. apply settle_settled with v.
  rewrite Hst2'. unfold thenable_at. cbn. rewrite G5. unfold base. cbn.
  now rewrite JsMapFacts.get_set_eq.
Qed.

(** C1, at the point where the code departs from it. While the promise is
    pending every read returns [null]; when it settles with [v] one re-render
    is requested for this component; but from then on every read returns the
    one-element array [[v]] that the rest parameter of the continuation
    collected, never [v] itself. *)
Theorem settled_promise_is_read_as_array (st : State) (c r : nat) (obj v : Value) :
  isPromise obj = true ->
  renderingRef st = Some c ->
  JsMap.get c (componentRegistrations st) = Some r ->
  r < length (regs st) ->
  JsMap.has (ident obj) (promises (reg_at st r)) = false ->
  thenable_at st (ident obj) = pending ->
  let st1 := after (readAsync obj) st in
  let st2 := after (settle (ident obj) v) st1 in
  readAsync obj st = (Returned VNull, st1)
  /\ readAsync obj st1 = (Returned VNull, st1)
  /\ forceUpdates st2 = forceUpdates st ++ [c]
  /\ readAsync obj st2 = (Returned (VArr [v]), st2)
  /\ VArr [v] <> v.
Proof.
  intros Hp Href Hget Hr Hhas Hpend st1 st2.
  destruct (promise_lifecycle st c r obj v Hp Href Hget Hr Hhas)
    as (H1 & H2 & _ & H4 & H5 & _).
  { now rewrite Hpend. }
  rewrite Hpend in H5. cbn in H5.
  repeat split; auto. apply vsize_wrap.
Qed.

Lemma settled_promise_is_read_as_array_witness :
  let st1 := after (readAsync aPromise) (rendering 0 stream_rendered) in
  let st2 := after (settle 7 (VStr "X")) st1 in
  readAsync aPromise (rendering 0 stream_rendered) = (Returned VNull, st1)
  /\ readAsync aPromise st1 = (Returned VNull, st1)
  /\ forceUpdates st2 = forceUpdates (rendering 0 stream_rendered) ++ [0]
  /\ readAsync aPromise st2 = (Returned (VArr [VStr "X"]), st2)
  /\ VArr [VStr "X"] <> VStr "X".
Proof.
  apply (settled_promise_is_read_as_array (rendering 0 stream_rendered) 0 0
           aPromise (VStr "X")); try reflexivity.
  vm_compute. lia.
Defined.

(** The same for the first read of the promise by a component that may not
    be installed yet: that read installs the module and goes on as above. *)
Lemma promise_lifecycle_first st c obj v :
  isPromise obj = true ->
  renderingRef st = Some c ->
  first_promise_read c (ident obj) st = true ->
  settled (thenable_at st (ident obj)) = None ->
  let st1 := after (readAsync obj) st in
  let st2 := after (settle (ident obj) v) st1 in
  readAsync obj st = (Returned VNull, st1)
  /\ readAsync obj st1 = (Returned VNull, st1)
  /\ fst (settle (ident obj) v st1) = Returned tt
  /\ readAsync obj st2 = (Returned (VArr [v]), st2)
  /\ forceUpdates st2
     = forceUpdates st
       ++ map cb_component (reactions (thenable_at st (ident obj))) ++ [c]
  /\ (forall w, settle (ident obj) w st2 = (Returned tt, st2)).
Proof.
  intros Hp Href Hfirst Hpend. unfold first_promise_read in Hfirst.
  destruct (JsMap.get c (componentRegistrations st)) as [r|] eqn:Hget.
  - apply andb_true_iff in Hfirst as [Hr Hhas].
    apply Nat.ltb_lt in Hr. apply negb_true_iff in Hhas.
    exact (promise_lifecycle st c r obj v Hp Href Hget Hr Hhas Hpend).
  - assert (Hhas : JsMap.has c (componentRegistrations st) = false).
    { unfold JsMap.has. now rewrite Hget. }
    destruct (init_fresh_live st c Hhas)
      as (I1 & I2 & I3 & I4 & _ & _ & I7 & _ & I9).
    assert (Hsame : readAsync obj st = readAsync obj (after (init c) st)).
    { unfold readAsync, getAsyncValue. rewrite Hp.
      exact (getPromiseValue_init st c obj Href Hhas). }
    assert (Hth : thenable_at (after (init c) st) (ident obj)
                  = thenable_at st (ident obj)).
    { unfold thenable_at. now rewrite I7. }
    remember (after (init c) st) as s0 eqn:Es0.
    destruct (promise_lifecycle s0 c (length (regs st)) obj v)
      as (L1 & L2 & L3 & L4 & L5 & L6); try assumption.
    + congruence.
    + lia.
    + now rewrite I2.
    + now rewrite Hth.
    + assert (Hafter : after (readAsync obj) st = after (readAsync obj) s0)
        by (unfold after; now rewrite Hsame).
      cbn zeta. rewrite Hafter, Hsame. rewrite Hth, I9 in L5.
      repeat split; assumption.
Qed.

(** C3. A promise that settles to [undefined] or to [null] is read as [null]
    before it settles, which is an unresolved marker, and as a one-element
    array afterwards, which is not: the settled read differs from the
    unresolved one. The first of these reads may be the one that installs the
    module on the component. *)
Theorem unresolved_differs_from_settled_nullish (st : State) (c : nat) (obj v : Value) :
  v = VUndefined \/ v = VNull ->
  isPromise obj = true ->
  renderingRef st = Some c ->
  first_promise_read c (ident obj) st = true ->
  settled (thenable_at st (ident obj)) = None ->
  let st1 := after (readAsync obj) st in
  let st2 := after (settle (ident obj) v) st1 in
  fst (readAsync obj st) = Returned VNull
  /\ fst (readAsync obj st1) = Returned VNull
  /\ fst (readAsync obj st2) = Returned (VArr [v])
  /\ unresolved VNull = true
  /\ unresolved (VArr [v]) = false
  /\ VArr [v] <> VNull.
Proof.
  intros _ Hp Href Hfirst Hpend st1 st2.
  destruct (promise_lifecycle_first st c obj v Hp Href Hfirst Hpend)
    as (H1 & H2 & _ & H4 & _).
  subst st1 st2. rewrite H4, H2, H1. repeat split; discriminate.
Qed.

Lemma unresolved_differs_from_settled_nullish_witness :
  let st0 := rendering 0 (initial [(0, reader aPromise)] []) in
  let st1 := after (readAsync aPromise) st0 in
  let st2 := after (settle 7 VUndefined) st1 in
  fst (readAsync aPromise st0) = Returned VNull
  /\ fst (readAsync aPromise st1) = Returned VNull
  /\ fst (readAsync aPromise st2) = Returned (VArr [VUndefined])
  /\ unresolved VNull = true
  /\ unresolved (VArr [VUndefined]) = false
  /\ VArr [VUndefined] <> VNull.
Proof.
  apply (unresolved_differs_from_settled_nullish
           (rendering 0 (initial [(0, reader aPromise)] [])) 0 aPromise VUndefined);
    try reflexivity.
  now left.
Defined.

Lemma length_regs_update_reg r f st :
  length (regs (update_reg r f st)) = length (regs st).
Proof. unfold update_reg. cbn. apply length_alter. Qed.

(** ** Emissions *)

Lemma deliver_subs i v st :
  exists st', deliver i v st = (Returned tt, st') /\ subs st' = subs st.
Proof.
  unfold deliver, bind, get_state.
  destruct (subs st !! i) as [x|]; [|now exists st].
  destruct (sub_closed x); [now exists st|].
  rewrite run_callback_eq. eexists. split; [reflexivity|].
  now destruct (sub_next x).
Qed.

Lemma deliver_not_open i v st :
  is_open (subs st) i = false -> deliver i v st = (Returned tt, st).
Proof.
  unfold is_open, deliver, bind, get_state.
  destruct (subs st !! i) as [x|]; [|reflexivity].
  destruct (sub_closed x); [reflexivity|discriminate].
Qed.

Lemma forEach_deliver_open_only v l st :
  forEach (fun i => deliver i v) l st
  = forEach (fun i => deliver i v) (List.filter (is_open (subs st)) l) st.
Proof.
  revert st. induction l as [|i l IH]; intros st; [reflexivity|].
  cbn [forEach List.filter].
  destruct (is_open (subs st) i) eqn:E.
  - cbn [forEach]. unfold bind.
    destruct (deliver_subs i v st) as (st' & -> & Hs).
    rewrite IH. now rewrite Hs.
  - unfold bind. rewrite (deliver_not_open i v st E). apply IH.
Qed.

Lemma subscriptions_of_snoc s l x :
  subscriptions_of s (l ++ [x])
  = subscriptions_of s l
    ++ (if Nat.eqb (sub_source x) s then [length l] else []).
Proof.
  unfold subscriptions_of. rewrite length_app. cbn [length].
  rewrite seq_app. cbn [seq]. rewrite List.filter_app. f_equal.
  - apply List.filter_ext_in. intros i Hi. apply in_seq in Hi.
    now rewrite lookup_app_l by lia.
  - cbn [List.filter]. rewrite lookup_app_r by lia.
    replace (0 + length l - length l) with 0 by lia. reflexivity.
Qed.

Lemma open_subscriptions_of_snoc s l c o :
  open_subscriptions_of s
    (l ++ [{| sub_source := s; sub_next := CbObservable c o; sub_closed := false |}])
  = open_subscriptions_of s l ++ [length l].
Proof.
  unfold open_subscriptions_of. rewrite subscriptions_of_snoc.
  cbn [sub_source]. rewrite Nat.eqb_refl. rewrite List.filter_app. f_equal.
  - apply List.filter_ext_in. intros i Hi. unfold subscriptions_of in Hi.
    apply List.filter_In in Hi as [Hi _]. apply in_seq in Hi.
    unfold is_open. now rewrite lookup_app_l by lia.
  - cbn [List.filter]. unfold is_open. rewrite lookup_app_r by lia.
    now rewrite Nat.sub_diag.
Qed.

(** ** A stream while its binding lasts *)

Lemma requests_snoc c c' st :
  requests c (set_forceUpdates (fun l => l ++ [c']) st)
  = requests c st + (if Nat.eq_dec c' c then 1 else 0).
Proof.
  unfold requests. cbn [forceUpdates set_forceUpdates].
  rewrite count_occ_app. cbn. destruct (Nat.eq_dec c' c); lia.
Qed.

Lemma undisturbed_refl r o v st : undisturbed r o v st st.
Proof. unfold undisturbed. tauto. Qed.

Lemma undisturbed_trans r o v a b c :
  undisturbed r o v a b -> undisturbed r o v b c -> undisturbed r o v a c.
Proof.
  unfold undisturbed.
  intros (A1 & A2 & A3 & A4 & A5 & A6 & A7) (B1 & B2 & B3 & B4 & B5 & B6 & B7).
  repeat split; try congruence. auto.
Qed.

Lemma observables_update_promises st r r' f :
  observables (reg_at (update_reg r' (with_promises f) st) r)
  = observables (reg_at st r).
Proof.
  destruct (Nat.eq_dec r' r) as [->|Hne].
  - destruct (Nat.lt_ge_cases r (length (regs st))) as [Hlt|Hge].
    + now rewrite reg_at_update_eq.
    + unfold reg_at, update_reg. cbn.
      now rewrite !lookup_ge_None_2 by (rewrite ?length_alter; lia).
  - now rewrite reg_at_update_ne.
Qed.

Lemma result_update_result st o o' v :
  o' = o /\ o < length (oregs st) \/ result (oreg_at st o) = Some v ->
  result (oreg_at (update_oreg o' (with_result (Some v)) st) o) = Some v.
Proof.
  intros H. destruct (Nat.eq_dec o' o) as [->|Hne].
  - destruct (Nat.lt_ge_cases o (length (oregs st))) as [Hlt|Hge].
    + now rewrite oreg_at_update_eq.
    + destruct H as [[_ H]|H]; [lia|].
      unfold oreg_at in H. rewrite lookup_ge_None_2 in H by lia. discriminate.
  - rewrite oreg_at_update_ne by assumption.
    destruct H as [[H _]|H]; [congruence|assumption].
Qed.

(** One delivery, to any subscription, seen from a binding of component
    [c] whose registration object is [o]. *)
Lemma deliver_undisturbed c r o v i st :
  exists st',
    deliver i v st = (Returned tt, st')
    /\ undisturbed r o v st st'
    /\ ((forall x, subs st !! i = Some x ->
                   sub_closed x = true \/ cb_component (sub_next x) <> c) ->
        requests c st' = requests c st)
    /\ (forall x, subs st !! i = Some x -> sub_closed x = false ->
                  sub_next x = CbObservable c o -> o < length (oregs st) ->
                  result (oreg_at st' o) = Some v
                  /\ requests c st' = S (requests c st)).
Proof.
  unfold deliver, bind, get_state.
  destruct (subs st !! i) as [x|] eqn:Hx.
  2:{ exists st. split; [reflexivity|]. split; [apply undisturbed_refl|].
      split; [reflexivity|]. intros; discriminate. }
  destruct (sub_closed x) eqn:Hc.
  { exists st. split; [reflexivity|]. split; [apply undisturbed_refl|].
    split; [reflexivity|]. intros y [= <-] Hy. congruence. }
  rewrite run_callback_eq. eexists. split; [reflexivity|].
  destruct (sub_next x) as [c' r' p'|c' o'] eqn:Hn; cbn [cb_component].
  - split; [|split].
    + unfold undisturbed. cbn. rewrite length_alter. repeat split; auto.
      change (reg_at (set_forceUpdates ?f ?s) r) with (reg_at s r).
      apply observables_update_promises.
    + intros Hf. rewrite requests_snoc.
      destruct (Hf x eq_refl) as [Hf'|Hf']; [congruence|].
      rewrite Hn in Hf'. cbn in Hf'.
      destruct (Nat.eq_dec c' c); [congruence|].
      change (requests c (update_reg r' (with_promises (JsMap.set p' (VArr [v]))) st))
        with (requests c st). lia.
    + intros y [= <-] _ Hy. congruence.
  - split; [|split].
    + unfold undisturbed.
      cbn [subs componentRegistrations renderingRef regs oregs
           set_forceUpdates update_oreg set_oregs].
      rewrite length_alter. repeat split; auto.
      intros Hw.
      change (oreg_at (set_forceUpdates ?f ?s) o) with (oreg_at s o).
      apply result_update_result. now right.
    + intros Hf. rewrite requests_snoc.
      destruct (Hf x eq_refl) as [Hf'|Hf']; [congruence|].
      rewrite Hn in Hf'. cbn in Hf'.
      destruct (Nat.eq_dec c' c); [congruence|].
      change (requests c (update_oreg o' (with_result (Some v)) st))
        with (requests c st). lia.
    + intros y [= <-] _ Hy Ho. rewrite Hn in Hy. injection Hy as -> ->. split.
      * change (oreg_at (set_forceUpdates ?f ?s) o) with (oreg_at s o).
        apply result_update_result. now left.
      * rewrite requests_snoc. destruct (Nat.eq_dec c c); [|congruence].
        change (requests c (update_oreg o (with_result (Some v)) st))
          with (requests c st). lia.
Qed.

(** Deliveries to the subscriptions [l], seen from the binding whose open
    subscription is [sub]: if [sub] is among them, the value is stored in the
    binding and one re-render is requested for its component, whatever other
    components are subscribed. *)
Lemma forEach_deliver_binding c r o sub x0 v l :
  NoDup l ->
  sub_closed x0 = false ->
  sub_next x0 = CbObservable c o ->
  forall st,
    subs st !! sub = Some x0 ->
    o < length (oregs st) ->
    (forall i x, In i l -> i <> sub -> subs st !! i = Some x ->
                 sub_closed x = true \/ cb_component (sub_next x) <> c) ->
    exists st',
      forEach (fun i => deliver i v) l st = (Returned tt, st')
      /\ undisturbed r o v st st'
      /\ (In sub l -> result (oreg_at st' o) = Some v)
      /\ requests c st'
         = requests c st + (if in_dec Nat.eq_dec sub l then 1 else 0).
Proof.
  intros Hnd Hopen Hnext. induction l as [|i l IH]; intros st Hsub Ho Hforeign.
  - exists st. split; [reflexivity|]. split; [apply undisturbed_refl|].
    split; [intros []|]. cbn. lia.
  - apply NoDup_cons in Hnd as [Hnotin Hnd]. rewrite list_elem_of_In in Hnotin.
    destruct (deliver_undisturbed c r o v i st)
      as (st1 & Hd & Hu1 & Hreq_other & Hreq_own).
    pose proof Hu1 as (U1 & _ & _ & _ & _ & U6 & U7).
    destruct (IH Hnd st1) as (st' & Hrun & Hu & Hres & Hreq).
    { now rewrite U1. }
    { now rewrite U6. }
    { intros j x Hj Hne Hx. rewrite U1 in Hx. apply (Hforeign j x); auto.
      now right. }
    exists st'. cbn [forEach]. unfold bind. rewrite Hd.
    split; [exact Hrun|]. split; [now apply undisturbed_trans with st1|].
    destruct (Nat.eq_dec i sub) as [->|Hne].
    + destruct (Hreq_own x0 Hsub Hopen Hnext Ho) as [Hr1 Hq1].
      pose proof Hu as (_ & _ & _ & _ & _ & _ & V7).
      split; [intros _; now apply V7|].
      rewrite Hreq, Hq1.
      destruct (in_dec Nat.eq_dec sub l) as [Hin|_]; [tauto|].
      destruct (in_dec Nat.eq_dec sub (sub :: l)) as [_|Hn]; [lia|].
      exfalso. apply Hn. now left.
    + split.
      * intros [Heq|Hin]; [congruence|auto].
      * rewrite Hreq, Hreq_other.
        -- destruct (in_dec Nat.eq_dec sub l) as [Hin|Hn];
             destruct (in_dec Nat.eq_dec sub (i :: l)) as [Hin'|Hn'];
             try lia.
           ++ exfalso. apply Hn'. now right.
           ++ destruct Hin' as [Heq|Hin']; [congruence|tauto].
        -- intros x Hx. apply (Hforeign i x); auto. now left.
Qed.

Lemma subscriptions_of_In s l i x :
  l !! i = Some x -> sub_source x = s -> In i (subscriptions_of s l).
Proof.
  intros Hx Hs. unfold subscriptions_of. apply List.filter_In. split.
  - apply in_seq. apply lookup_lt_Some in Hx. lia.
  - rewrite Hx, Hs. apply Nat.eqb_refl.
Qed.

Lemma subscriptions_of_NoDup s l : NoDup (subscriptions_of s l).
Proof.
  unfold subscriptions_of.
  apply NoDup_ListNoDup, List.NoDup_filter, List.seq_NoDup.
Qed.

Lemma foreign_spec c s l :
  foreign c s l = true ->
  forall i x, In i (subscriptions_of s l) -> l !! i = Some x ->
              sub_closed x = true \/ cb_component (sub_next x) <> c.
Proof.
  intros Hf i x Hin Hx. destruct (sub_closed x) eqn:Hc; [now left|right].
  unfold foreign in Hf. rewrite forallb_forall in Hf.
  specialize (Hf i). rewrite Hx in Hf.
  assert (Hopen : In i (open_subscriptions_of s l)).
  { unfold open_subscriptions_of. apply List.filter_In. split; [assumption|].
    unfold is_open. now rewrite Hx, Hc. }
  apply Hf in Hopen. apply negb_true_iff, Nat.eqb_neq in Hopen. exact Hopen.
Qed.

Lemma run_acts_bound obs c r o sub acts :
  isPromise obs = false -> isSubscribable obs = true ->
  forall st,
    renderingRef st = Some c ->
    JsMap.get c (componentRegistrations st) = Some r ->
    r < length (regs st) ->
    JsMap.get (ident obs) (observables (reg_at st r)) = Some o ->
    o < length (oregs st) ->
    subs st !! sub
    = Some {| sub_source := ident obs; sub_next := CbObservable c o;
              sub_closed := false |} ->
    (forall i x, In i (subscriptions_of (ident obs) (subs st)) -> i <> sub ->
                 subs st !! i = Some x ->
                 sub_closed x = true \/ cb_component (sub_next x) <> c) ->
    exists st',
      run_acts obs acts st
      = (Returned (expected (default VUndefined (result (oreg_at st o))) acts), st')
      /\ requests c st' = requests c st + emissions acts
      /\ subs st' = subs st.
Proof.
  intros Hp Hs. induction acts as [|[|v] acts IH];
    intros st Href Hget Hr Ho Holen Hsub Hforeign.
  - exists st. cbn. auto.
  - cbn [run_acts expected emissions]. unfold bind at 1.
    unfold readAsync, getAsyncValue. rewrite Hp, Hs.
    rewrite (getObservableValue_bound st c r obs o Href Hget Hr Ho).
    set (st1 := update_reg r _ st).
    destruct (IH st1) as (st' & Hrun & Hfu & Hsubs); try assumption.
    + unfold st1. now rewrite length_regs_update_reg.
    + unfold st1. rewrite reg_at_update_eq by assumption. exact Ho.
    + exists st'. unfold bind. rewrite Hrun. unfold ret.
      change (oreg_at st1 o) with (oreg_at st o). auto.
  - cbn [run_acts expected emissions]. unfold bind at 1.
    unfold emit, bind at 1, get_state.
    destruct (forEach_deliver_binding c r o sub
                {| sub_source := ident obs; sub_next := CbObservable c o;
                   sub_closed := false |} v
                (subscriptions_of (ident obs) (subs st))
                (subscriptions_of_NoDup _ _) eq_refl eq_refl st Hsub Holen Hforeign)
      as (st1 & Hrun1 & (U1 & U2 & U3 & U4 & U5 & U6 & U7) & Hres & Hreq).
    rewrite Hrun1.
    assert (Hin : In sub (subscriptions_of (ident obs) (subs st))).
    { now apply subscriptions_of_In with (x := {| sub_source := ident obs;
                                                   sub_next := CbObservable c o;
                                                   sub_closed := false |}). }
    destruct (IH st1) as (st' & Hrun & Hfu & Hsubs).
    + now rewrite U3.
    + now rewrite U2.
    + now rewrite U4.
    + now rewrite U5.
    + now rewrite U6.
    + now rewrite U1.
    + now rewrite U1.
    + exists st'. rewrite Hrun, Hfu, Hsubs, U1, Hreq, (Hres Hin).
      destruct (in_dec Nat.eq_dec sub (subscriptions_of (ident obs) (subs st)));
        [|tauto].
      cbn [from_option id]. repeat split. lia.
Qed.

(** Before the first emission the reads are to return [undefined]; after an
    emission of [v], the reads up to the next emission are to return [v]. *)
Lemma expected_before_first_emission n rest :
  expected VUndefined (repeat ARead n ++ rest)
  = repeat VUndefined n ++ expected VUndefined rest.
Proof. induction n as [|n IH]; cbn; [reflexivity|now rewrite IH]. Qed.

Lemma expected_after_emission x v n rest :
  expected x (AEmit v :: repeat ARead n ++ rest)
  = repeat v n ++ expected v rest.
Proof. cbn. induction n as [|n IH]; cbn; [reflexivity|now rewrite IH]. Qed.

(** The reads and emissions that follow the first read of a stream by an
    installed component. *)
Lemma stream_lifecycle_installed
    (st : State) (c r : nat) (obs : Value) (acts : list Act) :
  isPromise obs = false ->
  isSubscribable obs = true ->
  renderingRef st = Some c ->
  JsMap.get c (componentRegistrations st) = Some r ->
  r < length (regs st) ->
  JsMap.has (ident obs) (observables (reg_at st r)) = false ->
  foreign c (ident obs) (subs st) = true ->
  let at_subscription := default [] (JsMap.get (ident obs) (sync_emits st)) in
  exists st',
    run_acts obs (ARead :: acts) st
    = (Returned (expected (default VUndefined (last at_subscription)) (ARead :: acts)),
       st')
    /\ requests c st' = requests c st + length at_subscription + emissions acts
    /\ length (subs st') = S (length (subs st)).
Proof.
  intros Hp Hs Href Hget Hr Hhas Hforeign vs.
  cbn [run_acts expected]. unfold bind at 1.
  unfold readAsync at 1, getAsyncValue. rewrite Hp, Hs.
  rewrite (getObservableValue_fresh st c r obs Href Hget Hr Hhas).
  fold vs.
  destruct (subscribed_frame c r (ident obs) st)
    as (F1 & F2 & F3 & F4 & F5 & F6 & F7 & F8 & F9 & F10 & F11).
  destruct (run_acts_bound obs c r (length (oregs st)) (length (subs st)) acts Hp Hs
              (subscribed c r (ident obs) st))
    as (st' & Hrun & Hfu & Hsubs).
  - now rewrite F3.
  - now rewrite F1.
  - now rewrite F10.
  - rewrite subscribed_reg by assumption. cbn [observables].
    apply JsMapFacts.get_set_eq.
  - rewrite subscribed_oregs, length_app. cbn. lia.
  - rewrite F8. rewrite lookup_app_r by lia. now rewrite Nat.sub_diag.
  - intros i x Hin Hne Hx. rewrite F8 in Hin, Hx.
    rewrite subscriptions_of_snoc in Hin. cbn [sub_source] in Hin.
    rewrite Nat.eqb_refl in Hin. apply in_app_or in Hin as [Hin|[Heq|[]]];
      [|congruence].
    assert (Hi : i < length (subs st)).
    { unfold subscriptions_of in Hin. apply List.filter_In in Hin as [Hin _].
      apply in_seq in Hin. lia. }
    rewrite lookup_app_l in Hx by assumption.
    now apply (foreign_spec c (ident obs) (subs st) Hforeign i x).
  - exists st'. unfold bind. rewrite Hrun. unfold ret.
    assert (Hres : result (oreg_at (subscribed c r (ident obs) st) (length (oregs st)))
                   = last vs).
    { unfold oreg_at. rewrite subscribed_oregs.
      rewrite lookup_app_r by lia. now rewrite Nat.sub_diag. }
    rewrite Hres. split; [reflexivity|]. split.
    { rewrite Hfu. unfold requests at 1. rewrite F9. fold vs.
      rewrite count_occ_app, count_occ_repeat_eq by reflexivity.
      unfold requests. lia. }
    rewrite Hsubs, F8, length_app. cbn. lia.
Qed.

(** C7. From the first read of a stream on, as long as the component keeps
    its binding: each read returns the value emitted most recently, which is
    [undefined] until the stream has emitted (values emitted at subscription
    count); every emission requests one re-render of the component,
    whichever other components are subscribed to the stream; and the reads
    subscribe once in total. The first read may be the one that installs the
    module on the component. *)
Theorem stream_reads_follow_emissions
    (st : State) (c : nat) (obs : Value) (acts : list Act) :
  isPromise obs = false ->
  isSubscribable obs = true ->
  renderingRef st = Some c ->
  first_read c (ident obs) st = true ->
  foreign c (ident obs) (subs st) = true ->
  let at_subscription := default [] (JsMap.get (ident obs) (sync_emits st)) in
  exists st',
    run_acts obs (ARead :: acts) st
    = (Returned (expected (default VUndefined (last at_subscription)) (ARead :: acts)),
       st')
    /\ requests c st' = requests c st + length at_subscription + emissions acts
    /\ length (subs st') = S (length (subs st)).
Proof.
  intros Hp Hs Href Hfirst Hforeign. unfold first_read in Hfirst.
  destruct (JsMap.get c (componentRegistrations st)) as [r|] eqn:Hget.
  - apply andb_true_iff in Hfirst as [Hr Hhas].
    apply Nat.ltb_lt in Hr. apply negb_true_iff in Hhas.
    exact (stream_lifecycle_installed st c r obs acts Hp Hs Href Hget Hr Hhas
             Hforeign).
  - assert (Hhas : JsMap.has c (componentRegistrations st) = false).
    { unfold JsMap.has. now rewrite Hget. }
    destruct (init_fresh_live st c Hhas)
      as (I1 & I2 & I3 & I4 & _ & I6 & _ & I8 & I9).
    assert (Hsame : run_acts obs (ARead :: acts) st
                    = run_acts obs (ARead :: acts) (after (init c) st)).
    { cbn [run_acts]. unfold bind at 1 3.
      unfold readAsync, getAsyncValue. rewrite Hp, Hs.
      now rewrite (getObservableValue_init st c obs Href Hhas). }
    remember (after (init c) st) as s0 eqn:Es0.
    destruct (stream_lifecycle_installed s0 c (length (regs st)) obs acts Hp Hs)
      as (st' & H1 & H2 & H3).
    + congruence.
    + exact I1.
    + lia.
    + now rewrite I2.
    + now rewrite I6.
    + exists st'. cbn zeta in *. rewrite Hsame.
      unfold requests in *. rewrite I8, I9 in *. rewrite I6 in H3. auto.
Qed.

Lemma stream_reads_follow_emissions_witness :
  exists st',
    run_acts aStream [ARead; ARead; AEmit (VNum 1); ARead; AEmit (VNum 2); ARead]
      second_reader_start
    = (Returned [VUndefined; VUndefined; VNum 1; VNum 2], st')
    /\ requests 1 st' = 2
    /\ length (subs st') = 2.
Proof.
  destruct (stream_reads_follow_emissions second_reader_start 1 aStream
              [ARead; AEmit (VNum 1); ARead; AEmit (VNum 2); ARead])
    as (st' & H1 & H2 & H3); try reflexivity.
  exists st'. split; [exact H1|]. split; [exact H2|exact H3].
Defined.

(** ** What a read preserves *)

Lemma attached_iff st R :
  attached st R = true
  <-> forall o, In o (JsMap.values (observables R)) ->
                exists sub, subscription (oreg_at st o) = Some sub.
Proof.
  unfold attached. rewrite forallb_forall. split; intros H o Ho.
  - specialize (H o Ho). destruct (subscription (oreg_at st o)); [eauto|discriminate].
  - destruct (H o Ho) as [sub ->]. reflexivity.
Qed.

Lemma oreg_at_bound st o sub :
  subscription (oreg_at st o) = Some sub -> o < length (oregs st).
Proof.
  intros H. destruct (Nat.lt_ge_cases o (length (oregs st))) as [|Hge]; [assumption|].
  unfold oreg_at in H. rewrite lookup_ge_None_2 in H by assumption. discriminate.
Qed.

Lemma values_set {V} k (v v' : V) m :
  In v' (JsMap.values (JsMap.set k v m)) -> v' = v \/ In v' (JsMap.values m).
Proof.
  induction m as [|[k0 v0] m IH]; cbn.
  - intuition congruence.
  - destruct (Nat.eqb k0 k); cbn; intuition congruence.
Qed.

Lemma values_delete {V} k (v' : V) m :
  In v' (JsMap.values (JsMap.delete k m)) -> In v' (JsMap.values m).
Proof.
  induction m as [|[k0 v0] m IH]; cbn; [tauto|].
  destruct (Nat.eqb k0 k); cbn; intuition.
Qed.

Lemma subscribed_oreg_old c r s st o :
  o < length (oregs st) -> oreg_at (subscribed c r s st) o = oreg_at st o.
Proof.
  intros Ho. unfold oreg_at. rewrite subscribed_oregs.
  now rewrite lookup_app_l by assumption.
Qed.

Lemma readAsync_inv c r src st :
  bound_inv c r st ->
  exists v st',
    readAsync src st = (Returned v, st')
    /\ bound_inv c r st'
    /\ (forall s o sub, stream_read src <> Some s ->
                        kept r s o sub st -> kept r s o sub st')
    /\ (forall s, In s (recentlyUsedObservables (reg_at st r)) ->
                  In s (recentlyUsedObservables (reg_at st' r)))
    /\ (forall s, stream_read src = Some s ->
                  In s (recentlyUsedObservables (reg_at st' r))).
Proof.
  intros (Href & Hget & Hr & Hatt & Hrec).
  unfold readAsync, getAsyncValue, stream_read.
  destruct (isPromise src) eqn:Hp.
  - destruct (JsMap.has (ident src) (promises (reg_at st r))) eqn:Hhas.
    + rewrite (getPromiseValue_known st c r src Href Hget Hhas).
      eexists _, st. split; [reflexivity|]. split; [repeat split; assumption|].
      split; [auto|]. split; [auto|]. intros; discriminate.
    + rewrite (getPromiseValue_first st c r src Href Hget Hr Hhas).
      eexists _, _. split; [reflexivity|].
      destruct (continued_frame c r (ident src) st) as (F1 & F2 & F3 & _).
      assert (Hreg : reg_at (continued c r (ident src) st) r
                     = with_promises (JsMap.set (ident src) VNull) (reg_at st r)).
      { unfold continued.
        change (reg_at (set_thenables ?f ?s) r) with (reg_at s r).
        now apply reg_at_update_eq. }
      split; [|split; [|split]].
      * unfold bound_inv. rewrite F1, F2, F3, Hreg. repeat split; auto.
      * intros s o sub _ (K1 & K2 & K3 & K4). unfold kept. rewrite Hreg.
        repeat split; auto.
      * rewrite Hreg. auto.
      * intros; discriminate.
  - destruct (isSubscribable src) eqn:Hs.
    + destruct (JsMap.get (ident src) (observables (reg_at st r))) as [o'|] eqn:Ho.
      * rewrite (getObservableValue_bound st c r src o' Href Hget Hr Ho).
        eexists _, _. split; [reflexivity|].
        set (st' := update_reg r _ st).
        assert (Hreg : reg_at st' r
                       = with_recentlyUsedObservables (fun l => l ++ [ident src])
                           (reg_at st r)).
        { now apply reg_at_update_eq. }
        split; [|split; [|split]].
        -- unfold bound_inv. rewrite Hreg. unfold st'.
           rewrite length_regs_update_reg. repeat split; auto.
           cbn [recentlyUsedObservables observables with_recentlyUsedObservables].
           intros s Hin. apply in_app_or in Hin as [Hin|[<-|[]]]; [auto|].
           apply JsMapFacts.has_keys, JsMapFacts.has_true_get. eauto.
        -- intros s o sub Hne (K1 & K2 & K3 & K4). unfold kept. rewrite Hreg.
           repeat split; auto.
           cbn [recentlyUsedObservables with_recentlyUsedObservables].
           intros Hin. apply in_app_or in Hin as [Hin|[<-|[]]]; [tauto|].
           now apply Hne.
        -- rewrite Hreg. cbn [recentlyUsedObservables with_recentlyUsedObservables].
           intros s Hin. apply in_or_app. now left.
        -- rewrite Hreg. cbn [recentlyUsedObservables with_recentlyUsedObservables].
           intros s [= <-]. apply in_or_app. right. now left.
      * assert (Hhas : JsMap.has (ident src) (observables (reg_at st r)) = false).
        { now apply JsMapFacts.has_false_get. }
        rewrite (getObservableValue_fresh st c r src Href Hget Hr Hhas).
        eexists _, _. split; [reflexivity|].
        destruct (subscribed_frame c r (ident src) st)
          as (F1 & _ & F3 & _ & _ & _ & _ & F8 & _ & F10 & _).
        pose proof (subscribed_reg c r (ident src) st Hr) as Hreg.
        split; [|split; [|split]].
        -- unfold bound_inv. rewrite F1, F3, F10, Hreg. repeat split; auto.
           ++ apply attached_iff. cbn [observables]. intros o Hin.
              apply values_set in Hin as [->|Hin].
              ** unfold oreg_at. rewrite subscribed_oregs.
                 rewrite lookup_app_r by lia. rewrite Nat.sub_diag. cbn. eauto.
              ** destruct (proj1 (attached_iff st (reg_at st r)) Hatt o Hin)
                   as [sub Hsub].
                 rewrite subscribed_oreg_old; [eauto|].
                 now apply oreg_at_bound with sub.
           ++ cbn [recentlyUsedObservables observables]. intros s Hin.
              apply JsMapFacts.keys_set.
              apply in_app_or in Hin as [Hin|[<-|[]]]; auto.
        -- intros s o sub Hne (K1 & K2 & K3 & K4). unfold kept. rewrite Hreg.
           cbn [recentlyUsedObservables observables].
           assert (Hs' : ident src <> s) by congruence.
           rewrite JsMapFacts.get_set_ne by assumption.
           rewrite subscribed_oreg_old by now apply oreg_at_bound with sub.
           rewrite F8, length_app. repeat split; auto; [lia|].
           intros Hin. apply in_app_or in Hin as [Hin|[Heq|[]]]; tauto.
        -- rewrite Hreg. cbn [recentlyUsedObservables].
           intros s Hin. apply in_or_app. now left.
        -- rewrite Hreg. cbn [recentlyUsedObservables].
           intros s [= <-]. apply in_or_app. right. now left.
    + unfold console_error, bind, modify, ret. eexists _, _.
      split; [reflexivity|]. split; [repeat split; assumption|].
      split; [auto|]. split; [auto|]. intros; discriminate.
Qed.

Lemma run_prog_inv c r body :
  forall st,
    bound_inv c r st ->
    exists v st',
      run_prog body st = (Returned v, st')
      /\ bound_inv c r st'
      /\ (forall s, In s (recentlyUsedObservables (reg_at st r)) ->
                    In s (recentlyUsedObservables (reg_at st' r)))
      /\ (forall s o sub, ~ In s (recentlyUsedObservables (reg_at st' r)) ->
                          kept r s o sub st -> kept r s o sub st').
Proof.
  induction body as [v|src k IH]; intros st Hinv.
  - exists v, st. cbn. auto.
  - destruct (readAsync_inv c r src st Hinv)
      as (v & st1 & Hread & Hinv1 & Hk1 & Hmono1 & Hin1).
    destruct (IH v st1 Hinv1) as (w & st2 & Hrun & Hinv2 & Hmono2 & Hk2).
    exists w, st2. cbn [run_prog]. unfold bind. rewrite Hread.
    split; [exact Hrun|]. split; [exact Hinv2|]. split; [auto|].
    intros s o sub Hnot Hkept. apply Hk2; [exact Hnot|].
    apply Hk1; [|exact Hkept].
    intros Hs. apply Hnot, Hmono2, Hin1, Hs.
Qed.

(** ** The reaper *)

Lemma closed_at_close st i j :
  closed_at st i -> closed_at (set_subs (alter close j) st) i.
Proof.
  intros (x & Hx & Hc). unfold closed_at. cbn [subs set_subs].
  destruct (Nat.eq_dec j i) as [->|Hne].
  - exists (close x). rewrite list_lookup_alter_eq, Hx. auto.
  - exists x. rewrite list_lookup_alter_ne by assumption. auto.
Qed.

Lemma closed_at_close_eq st i :
  i < length (subs st) -> closed_at (set_subs (alter close i) st) i.
Proof.
  intros Hi. destruct (lookup_lt_is_Some_2 (subs st) i Hi) as [x Hx].
  exists (close x). cbn [subs set_subs]. rewrite list_lookup_alter_eq, Hx. auto.
Qed.

Lemma unregisterObservable_eq c r s st :
  JsMap.get c (componentRegistrations st) = Some r ->
  attached st (reg_at st r) = true ->
  unregisterObservable c s st = (Returned tt, unregistered r s st).
Proof.
  intros Hget Hatt. unfold unregisterObservable, bind at 1, get_state at 1.
  rewrite Hget. unfold unregistered.
  destruct (JsMap.get s (observables (reg_at st r))) as [o|] eqn:Ho.
  - destruct (proj1 (attached_iff st (reg_at st r)) Hatt o) as [sub Hsub].
    { now apply JsMapFacts.get_Some_values with s. }
    unfold bind, unsubscribe_of, bind, get_state. rewrite Hsub. reflexivity.
  - reflexivity.
Qed.

Lemma unregistered_props r s st :
  r < length (regs st) ->
  attached st (reg_at st r) = true ->
  let st' := unregistered r s st in
  componentRegistrations st' = componentRegistrations st
  /\ renderingRef st' = renderingRef st
  /\ oregs st' = oregs st
  /\ components st' = components st
  /\ forceUpdates st' = forceUpdates st
  /\ length (regs st') = length (regs st)
  /\ length (subs st') = length (subs st)
  /\ reg_at st' r = with_observables (JsMap.delete s) (reg_at st r)
  /\ attached st' (reg_at st' r) = true
  /\ (forall i, closed_at st i -> closed_at st' i)
  /\ (forall o sub, JsMap.get s (observables (reg_at st r)) = Some o ->
                    subscription (oreg_at st o) = Some sub ->
                    sub < length (subs st) -> closed_at st' sub).
Proof.
  intros Hr Hatt st'. unfold st', unregistered.
  set (mid := match JsMap.get s (observables (reg_at st r)) with
              | Some o => _
              | None => st
              end).
  assert (Hmid : componentRegistrations mid = componentRegistrations st
                 /\ renderingRef mid = renderingRef st
                 /\ oregs mid = oregs st
                 /\ components mid = components st
                 /\ forceUpdates mid = forceUpdates st
                 /\ regs mid = regs st
                 /\ length (subs mid) = length (subs st)
                 /\ (forall i, closed_at st i -> closed_at mid i)).
  { unfold mid. destruct (JsMap.get s (observables (reg_at st r))) as [o|];
      [|tauto].
    destruct (subscription (oreg_at st o)) as [sub|]; [|tauto].
    cbn. rewrite length_alter. repeat split; auto.
    intros i. apply closed_at_close. }
  destruct Hmid as (M1 & M2 & M3 & M4 & M5 & M6 & M7 & M8).
  assert (Hreg : reg_at (update_reg r (with_observables (JsMap.delete s)) mid) r
                 = with_observables (JsMap.delete s) (reg_at st r)).
  { rewrite reg_at_update_eq by (rewrite M6; assumption).
    unfold reg_at. now rewrite M6. }
  rewrite Hreg. cbn [componentRegistrations renderingRef oregs components
                     forceUpdates subs update_reg set_regs].
  rewrite length_regs_update_reg, M6.
  repeat split; auto.
  - apply attached_iff. cbn [observables with_observables]. intros o Hin.
    apply values_delete in Hin.
    destruct (proj1 (attached_iff st (reg_at st r)) Hatt o Hin) as [sub Hsub].
    exists sub. unfold oreg_at. cbn. rewrite M3. exact Hsub.
  - intros o sub Ho Hsub Hlt. unfold closed_at. cbn [subs update_reg set_regs].
    unfold mid. rewrite Ho, Hsub. now apply closed_at_close_eq.
Qed.

Lemma forEach_unregisterObservable c r l :
  forall st,
    JsMap.get c (componentRegistrations st) = Some r ->
    r < length (regs st) ->
    attached st (reg_at st r) = true ->
    forEach (unregisterObservable c) l st = (Returned tt, reaped r l st).
Proof.
  induction l as [|s l IH]; intros st Hget Hr Hatt; [reflexivity|].
  cbn [forEach]. unfold bind.
  rewrite (unregisterObservable_eq c r s st Hget Hatt).
  destruct (unregistered_props r s st Hr Hatt)
    as (U1 & _ & _ & _ & _ & U6 & _ & _ & U9 & _).
  rewrite IH; [reflexivity| | |assumption].
  - now rewrite U1.
  - now rewrite U6.
Qed.

Lemma keys_deleted {V} l k (m : JsMap.t V) :
  In k (JsMap.keys (deleted l m)) <-> In k (JsMap.keys m) /\ ~ In k l.
Proof.
  revert m. induction l as [|s l IH]; intros m.
  - cbn. tauto.
  - change (deleted (s :: l) m) with (deleted l (JsMap.delete s m)).
    rewrite IH, JsMapFacts.keys_delete. cbn [In]. intuition congruence.
Qed.

Lemma reaped_props r l :
  forall st,
    r < length (regs st) ->
    attached st (reg_at st r) = true ->
    let st' := reaped r l st in
    componentRegistrations st' = componentRegistrations st
    /\ renderingRef st' = renderingRef st
    /\ oregs st' = oregs st
    /\ components st' = components st
    /\ forceUpdates st' = forceUpdates st
    /\ length (regs st') = length (regs st)
    /\ length (subs st') = length (subs st)
    /\ reg_at st' r = with_observables (deleted l) (reg_at st r)
    /\ attached st' (reg_at st' r) = true
    /\ (forall i, closed_at st i -> closed_at st' i)
    /\ (forall s o sub, In s l ->
                        JsMap.get s (observables (reg_at st r)) = Some o ->
                        subscription (oreg_at st o) = Some sub ->
                        sub < length (subs st) -> closed_at st' sub).
Proof.
  induction l as [|s0 l IH]; intros st Hr Hatt.
  - cbn. repeat split; auto; try (now destruct (reg_at st r)); try tauto.
  - cbn zeta. unfold reaped. cbn [fold_left]. fold (reaped r l (unregistered r s0 st)).
    destruct (unregistered_props r s0 st Hr Hatt)
      as (U1 & U2 & U3 & U4 & U5 & U6 & U7 & U8 & U9 & U10 & U11).
    destruct (IH (unregistered r s0 st))
      as (R1 & R2 & R3 & R4 & R5 & R6 & R7 & R8 & R9 & R10 & R11).
    { now rewrite U6. }
    { exact U9. }
    rewrite R1, R2, R3, R4, R5, R6, R7, R8, U1, U2, U3, U4, U5, U6, U7, U8.
    rewrite R8, U8 in R9.
    repeat split; auto.
    intros s o sub Hin Ho Hsub Hlt.
    destruct (Nat.eq_dec s0 s) as [->|Hne].
    + apply R10. now apply (U11 o sub).
    + destruct Hin as [Heq|Hin]; [congruence|].
      apply (R11 s o sub Hin).
      * rewrite U8. cbn [observables with_observables].
        now rewrite JsMapFacts.get_delete_ne.
      * unfold oreg_at. now rewrite U3.
      * now rewrite U7.
Qed.

(** ** The render wrapper *)

Lemma includes_In x l : includes x l = true <-> In x l.
Proof.
  unfold includes. rewrite existsb_exists. split.
  - intros (y & Hy & Heq). apply Nat.eqb_eq in Heq. now subst.
  - intros H. exists x. split; [assumption|apply Nat.eqb_refl].
Qed.

Lemma unusedObservables_In R s :
  In s (unusedObservables R)
  <-> In s (JsMap.keys (observables R)) /\ ~ In s (recentlyUsedObservables R).
Proof.
  unfold unusedObservables. rewrite List.filter_In, negb_true_iff.
  rewrite <- (includes_In s (recentlyUsedObservables R)).
  destruct (includes s (recentlyUsedObservables R)).
  - split; intros [_ H]; [discriminate|]. exfalso. now apply H.
  - split; intros [H _]; (split; [exact H|]); [discriminate|reflexivity].
Qed.



Lemma call_hook_HRender fuel component compReg :
  call_hook (S fuel) (HRender component compReg)
  = (let* st := get_state in
     if negb (present (render (origMethods (reg_at st compReg)))) then
       ret VUndefined
     else
       modify (update_reg compReg (with_recentlyUsedObservables (fun _ => []))) >>
       let* st := get_state in
       let* renderResult := call_hook fuel (render (origMethods (reg_at st compReg))) in
       let* st := get_state in
       forEach (unregisterObservable component)
               (unusedObservables (reg_at st compReg)) >>
       let* st := get_state in
       (if Nat.eqb (length (recentlyUsedObservables (reg_at st compReg))) 0
           && Nat.eqb (JsMap.size (promises (reg_at st compReg))) 0
        then destroy component
        else ret tt) >>
       ret renderResult).
Proof. reflexivity. Qed.

Lemma call_hook_HUser fuel f body :
  call_hook (S fuel) (HUser f body)
  = (modify (set_calls (fun l => l ++ [f])) >> run_prog body).
Proof. reflexivity. Qed.

(** One pass through the wrapper whose original render function is
    [HUser f body]: the state [st0] in which [body] starts, the state [st1]
    in which it ends, the state [st2] the reaper leaves, and what the code
    and the specification's wording do from there. *)
Lemma wrapper_pass fuel c r f body st :
  renderingRef st = Some c ->
  JsMap.get c (componentRegistrations st) = Some r ->
  r < length (regs st) ->
  attached st (reg_at st r) = true ->
  render (origMethods (reg_at st r)) = HUser f body ->
  let st0 := pass_start r f st in
  exists v st1,
    run_prog body st0 = (Returned v, st1)
    /\ bound_inv c r st1
    /\ (forall s o sub, ~ In s (recentlyUsedObservables (reg_at st1 r)) ->
                        kept r s o sub st0 -> kept r s o sub st1)
    /\ let st2 := reaped r (unusedObservables (reg_at st1 r)) st1 in
       call_hook (S (S fuel)) (HRender c r) st
       = ((if Nat.eqb (length (recentlyUsedObservables (reg_at st2 r))) 0
              && Nat.eqb (JsMap.size (promises (reg_at st2 r))) 0
           then destroy c else ret tt) >> ret v) st2
       /\ wrapped_render_spec (S fuel) c r st
          = ((if Nat.eqb (JsMap.size (observables (reg_at st2 r))) 0
                 && Nat.eqb (JsMap.size (promises (reg_at st2 r))) 0
              then destroy c else ret tt) >> ret v) st2.
Proof.
  intros Href Hget Hr Hatt Hrender st0.
  assert (Hreg0 : reg_at st0 r
                  = with_recentlyUsedObservables (fun _ => []) (reg_at st r)).
  { unfold st0, pass_start. change (reg_at (set_calls ?f ?s) r) with (reg_at s r).
    now apply reg_at_update_eq. }
  assert (Hinv0 : bound_inv c r st0).
  { unfold bound_inv. rewrite Hreg0. unfold st0, pass_start. cbn. rewrite length_alter.
    repeat split; auto. intros s []. }
  destruct (run_prog_inv c r body st0 Hinv0) as (v & st1 & Hrun & Hinv1 & _ & Hkeep).
  exists v, st1. split; [exact Hrun|]. split; [exact Hinv1|]. split; [exact Hkeep|].
  destruct Hinv1 as (Href1 & Hget1 & Hr1 & Hatt1 & Hrec1).
  cbn zeta.
  assert (Hclear : reg_at (update_reg r (with_recentlyUsedObservables (fun _ => [])) st) r
                   = with_recentlyUsedObservables (fun _ => []) (reg_at st r)).
  { now apply reg_at_update_eq. }
  split.
  - rewrite call_hook_HRender. unfold bind at 1, get_state at 1.
    rewrite Hrender. cbn [present negb].
    unfold bind at 1, modify at 1. unfold bind at 1, get_state at 1.
    rewrite Hclear. cbn [origMethods with_recentlyUsedObservables].
    rewrite Hrender, call_hook_HUser.
    unfold bind at 1. unfold bind at 1, modify at 1.
    fold (pass_start r f st). fold st0. rewrite Hrun.
    unfold bind at 1, get_state at 1. unfold bind at 1.
    rewrite (forEach_unregisterObservable c r _ st1 Hget1 Hr1 Hatt1).
    reflexivity.
  - unfold wrapped_render_spec. unfold bind at 1, modify at 1.
    unfold bind at 1, get_state at 1.
    rewrite Hclear. cbn [origMethods with_recentlyUsedObservables].
    rewrite Hrender. cbn [present]. rewrite call_hook_HUser.
    unfold bind at 1. unfold bind at 1, modify at 1.
    fold (pass_start r f st). fold st0. rewrite Hrun.
    unfold bind at 1, get_state at 1. unfold bind at 1.
    rewrite (forEach_unregisterObservable c r _ st1 Hget1 Hr1 Hatt1).
    reflexivity.
Qed.

Lemma closed_at_close_all st ids i :
  closed_at st i -> closed_at (set_subs (close_all ids) st) i.
Proof.
  intros (x & Hx & Hc).
  destruct (close_all_lookup ids (subs st) i x Hx) as (x' & Hx' & _ & _ & Hc' & _).
  exists x'. cbn [subs set_subs]. auto.
Qed.

(** What the last step of the wrapper does to a registration, a closed
    subscription and the result. *)
Lemma wrapper_end (cond : bool) c r (v : Value) st :
  JsMap.get c (componentRegistrations st) = Some r ->
  attached st (reg_at st r) = true ->
  exists st',
    ((if cond then destroy c else ret tt) >> ret v) st = (Returned v, st')
    /\ regs st' = regs st
    /\ (forall i, closed_at st i -> closed_at st' i).
Proof.
  intros Hget Hatt. unfold bind. destruct cond.
  - rewrite (destroy_live st c r Hget Hatt). eexists. split; [reflexivity|].
    split; [reflexivity|]. intros i Hi.
    exact (closed_at_close_all st
             (handles st (JsMap.values (observables (reg_at st r)))) i Hi).
  - exists st. auto.
Qed.



(** ** A stream that is no longer read *)

(** C5. A stream that has a binding when the wrapper is called and that the
    render function does not read in that pass has its subscription cancelled
    and its binding removed by the time the wrapper returns; a value the
    stream pushes to that subscription afterwards changes nothing and
    requests no re-render. *)
Theorem unread_stream_is_reaped
    (fuel c r f : nat) (body : Prog) (s o sub : nat) (st : State) :
  renderingRef st = Some c ->
  JsMap.get c (componentRegistrations st) = Some r ->
  r < length (regs st) ->
  attached st (reg_at st r) = true ->
  render (origMethods (reg_at st r)) = HUser f body ->
  JsMap.get s (observables (reg_at st r)) = Some o ->
  subscription (oreg_at st o) = Some sub ->
  sub < length (subs st) ->
  includes s (pass_reads r f body st) = false ->
  exists v st',
    call_hook (S (S fuel)) (HRender c r) st = (Returned v, st')
    /\ JsMap.get s (observables (reg_at st' r)) = None
    /\ closed_at st' sub
    /\ (forall w, deliver sub w st' = (Returned tt, st')).
Proof.
  intros Href Hget Hr Hatt Hrender Hs Ho Hsub Hunread.
  destruct (wrapper_pass fuel c r f body st Href Hget Hr Hatt Hrender)
    as (v & st1 & Hrun & Hinv1 & Hkeep & Hcode & _).
  assert (Hnot : ~ In s (recentlyUsedObservables (reg_at st1 r))).
  { intros Hin. apply includes_In in Hin.
    unfold pass_reads, after in Hunread. rewrite Hrun in Hunread.
    cbn [snd] in Hunread. congruence. }
  assert (Hkept0 : kept r s o sub (pass_start r f st)).
  { unfold kept, pass_start.
    change (reg_at (set_calls ?g ?x) r) with (reg_at x r).
    rewrite reg_at_update_eq by assumption.
    cbn [observables recentlyUsedObservables with_recentlyUsedObservables].
    repeat split; auto. }
  destruct (Hkeep s o sub Hnot Hkept0) as (K1 & K2 & K3 & K4).
  destruct Hinv1 as (Href1 & Hget1 & Hr1 & Hatt1 & Hrec1).
  destruct (reaped_props r (unusedObservables (reg_at st1 r)) st1 Hr1 Hatt1)
    as (R1 & _ & _ & _ & _ & _ & _ & R8 & R9 & _ & R11).
  set (st2 := reaped r (unusedObservables (reg_at st1 r)) st1) in *.
  assert (Hunused : In s (unusedObservables (reg_at st1 r))).
  { apply unusedObservables_In. split; [|exact Hnot].
    apply JsMapFacts.has_keys, JsMapFacts.has_true_get. eauto. }
  destruct (wrapper_end
              (Nat.eqb (length (recentlyUsedObservables (reg_at st2 r))) 0
               && Nat.eqb (JsMap.size (promises (reg_at st2 r))) 0)
              c r v st2) as (st' & Hend & Hregs & Hclosed).
  { now rewrite R1. }
  { exact R9. }
  assert (Hc : closed_at st' sub).
  { apply Hclosed. now apply (R11 s o sub). }
  exists v, st'. split; [now rewrite Hcode|]. split; [|split; [exact Hc|]].
  - unfold reg_at. rewrite Hregs. fold (reg_at st2 r). rewrite R8.
    cbn [observables with_observables].
    apply JsMapFacts.get_None_keys. rewrite keys_deleted. tauto.
  - intros w. destruct Hc as (x & Hx & Hxc). now apply deliver_closed with x.
Qed.

Lemma unread_stream_is_reaped_witness :
  exists v st',
    call_hook 2 (HRender 0 0) (rendering 0 fickle_settled) = (Returned v, st')
    /\ JsMap.get 9 (observables (reg_at st' 0)) = None
    /\ closed_at st' 0
    /\ (forall w, deliver 0 w st' = (Returned tt, st')).
Proof.
  apply (unread_stream_is_reaped 0 0 0 1 fickle 9 0 0 (rendering 0 fickle_settled));
    try reflexivity; vm_compute; lia.
Defined.

(** ** Snapshots are permanent *)

Lemma evolves_refl st : evolves st st.
Proof. unfold evolves. auto. Qed.

Lemma evolves_trans a b c : evolves a b -> evolves b c -> evolves a c.
Proof.
  intros (A1 & A2 & A3) (B1 & B2 & B3). repeat split; auto; [lia|].
  intros r Hr. rewrite B3 by lia. auto.
Qed.

Lemma evolves_same_regs st st' :
  componentRegistrations st' = componentRegistrations st ->
  regs st' = regs st -> evolves st st'.
Proof.
  intros H1 H2. unfold evolves, reg_at. rewrite H1, H2. auto.
Qed.

Lemma evolves_update_reg r f st :
  (forall R, origMethods (f R) = origMethods R) ->
  evolves st (update_reg r f st).
Proof.
  intros Hf. unfold evolves. rewrite length_regs_update_reg.
  repeat split; auto. intros r' Hr'.
  destruct (Nat.eq_dec r r') as [->|Hne].
  - rewrite reg_at_update_eq by assumption. apply Hf.
  - now rewrite reg_at_update_ne.
Qed.

Lemma keeps_ret {A} (a : A) : keeps (ret a).
Proof. intros st. apply evolves_refl. Qed.

Lemma keeps_throw {A} e : keeps (@throw A e).
Proof. intros st. apply evolves_refl. Qed.

Lemma keeps_bind {A B} (m : M A) (k : A -> M B) :
  keeps m -> (forall a, keeps (k a)) -> keeps (bind m k).
Proof.
  intros Hm Hk st. specialize (Hm st). unfold after, bind in *.
  destruct (m st) as [[a| |] st1]; cbn [snd] in *; auto.
  eapply evolves_trans; [exact Hm|apply Hk].
Qed.

Lemma keeps_get_state : keeps get_state.
Proof. intros st. apply evolves_refl. Qed.

Lemma keeps_getRenderingRef : keeps getRenderingRef.
Proof. intros st. apply evolves_refl. Qed.

Lemma keeps_modify f : (forall st, evolves st (f st)) -> keeps (modify f).
Proof. intros Hf st. apply Hf. Qed.

Lemma keeps_finally {A} (m : M A) f :
  keeps m -> (forall st, evolves st (f st)) -> keeps (finally m f).
Proof.
  intros Hm Hf st. unfold after, finally. specialize (Hm st). unfold after in Hm.
  destruct (m st) as [out st']. cbn [snd] in *.
  eapply evolves_trans; [exact Hm|apply Hf].
Qed.

Lemma keeps_forEach {A} (f : A -> M unit) l :
  (forall a, keeps (f a)) -> keeps (forEach f l).
Proof.
  intros Hf. induction l as [|a l IH]; [apply keeps_ret|].
  cbn [forEach]. apply keeps_bind; auto.
Qed.

(** Closes a goal [keeps m] by following the structure of [m]. *)
Ltac keeps_step :=
  match goal with
  | |- keeps (bind _ _) => apply keeps_bind; [|intros ?]
  | |- keeps (ret _) => apply keeps_ret
  | |- keeps (throw _) => apply keeps_throw
  | |- keeps get_state => apply keeps_get_state
  | |- keeps getRenderingRef => apply keeps_getRenderingRef
  | |- keeps (forEach _ _) => apply keeps_forEach; intros ?
  | |- keeps (modify _) =>
      apply keeps_modify; intros ?;
      first [ apply evolves_same_regs; reflexivity
            | apply evolves_update_reg; intros ?; reflexivity ]
  | |- keeps (if ?b then _ else _) => destruct b
  | |- keeps (match ?x with _ => _ end) => destruct x
  | |- keeps _ => solve [auto]
  end.
Ltac keeps_auto := repeat keeps_step.

Lemma keeps_forceUpdate c : keeps (forceUpdate c).
Proof. unfold forceUpdate. keeps_auto. Qed.

Lemma keeps_run_callback cb v : keeps (run_callback cb v).
Proof. pose proof keeps_forceUpdate. destruct cb; cbn; keeps_auto. Qed.

Lemma keeps_deliver sub v : keeps (deliver sub v).
Proof. unfold deliver. keeps_auto. apply keeps_run_callback. Qed.

Lemma keeps_emit s v : keeps (emit s v).
Proof. unfold emit. keeps_auto. apply keeps_deliver. Qed.

Lemma keeps_run_reactions p : keeps (run_reactions p).
Proof. unfold run_reactions. keeps_auto. apply keeps_run_callback. Qed.

Lemma keeps_settle p v : keeps (settle p v).
Proof. unfold settle. keeps_auto. apply keeps_run_reactions. Qed.

Lemma keeps_unsubscribe_of o : keeps (unsubscribe_of o).
Proof. unfold unsubscribe_of, unsubscribe. keeps_auto. Qed.

Lemma keeps_init c : keeps (init c).
Proof.
  intros st. unfold after.
  destruct (JsMap.has c (componentRegistrations st)) eqn:E.
  - rewrite init_installed by assumption. apply evolves_refl.
  - rewrite init_fresh by assumption. cbn [snd]. unfold evolves. cbn.
    rewrite length_app. cbn. repeat split; [|lia|].
    + apply JsMapFacts.NoDup_keys_set.
    + intros r Hr. unfold reg_at. cbn. now rewrite lookup_app_l.
Qed.

Lemma keeps_destroy c : keeps (destroy c).
Proof.
  unfold destroy. apply keeps_bind; [apply keeps_get_state|]. intros st0.
  destruct (JsMap.get c (componentRegistrations st0)); [|apply keeps_ret].
  apply keeps_bind; [apply keeps_forEach, keeps_unsubscribe_of|intros _].
  apply keeps_bind.
  - apply keeps_modify. intros st. unfold evolves. cbn.
    repeat split; auto. apply JsMapFacts.NoDup_keys_delete.
  - intros _. keeps_auto.
Qed.

Lemma keeps_unregisterObservable c s : keeps (unregisterObservable c s).
Proof.
  pose proof keeps_unsubscribe_of. unfold unregisterObservable. keeps_auto.
  all: apply keeps_unsubscribe_of.
Qed.

Lemma keeps_getComponentRegistration c : keeps (getComponentRegistration c).
Proof.
  pose proof (keeps_init c). unfold getComponentRegistration. keeps_auto.
Qed.

Lemma keeps_readAsync src : keeps (readAsync src).
Proof.
  unfold readAsync, getAsyncValue.
  destruct (isPromise src); [|destruct (isSubscribable src)].
  - unfold getPromiseValue, promise_then, deref.
    keeps_auto; try apply keeps_getComponentRegistration.
  - unfold getObservableValue, subscribe, deref.
    keeps_auto; try apply keeps_getComponentRegistration; try apply keeps_deliver.
  - unfold console_error. keeps_auto.
Qed.

Lemma keeps_run_prog body : keeps (run_prog body).
Proof.
  induction body as [v|src k IH]; cbn [run_prog]; [apply keeps_ret|].
  apply keeps_bind; [apply keeps_readAsync|exact IH].
Qed.

Lemma keeps_call_hook fuel : forall h, keeps (call_hook fuel h).
Proof.
  induction fuel as [|fuel IH]; intros h.
  - intros st. apply evolves_refl.
  - pose proof keeps_init. pose proof keeps_destroy.
    pose proof keeps_run_prog. pose proof keeps_unregisterObservable.
    destruct h; cbn [call_hook]; keeps_auto; auto.
Qed.

Lemma keeps_run_event fuel e : keeps (run_event fuel e).
Proof.
  pose proof (keeps_call_hook fuel).
  destruct e; cbn [run_event].
  - apply keeps_bind; [|intros ?; apply keeps_ret].
    unfold host_render. apply keeps_finally.
    + keeps_auto; auto.
    + intros ?. apply evolves_same_regs; reflexivity.
  - unfold host_connect. keeps_auto; auto.
  - unfold host_disconnect. keeps_auto; auto.
  - apply keeps_settle.
  - apply keeps_run_reactions.
  - apply keeps_emit.
  - apply keeps_bind; [apply keeps_readAsync|intros _; apply keeps_ret].
  - keeps_auto.
Qed.

Lemma run_events_evolves fuel es : forall st, evolves st (run_events fuel es st).
Proof.
  induction es as [|e es IH]; intros st; [apply evolves_refl|].
  cbn [run_events]. eapply evolves_trans; [apply keeps_run_event|apply IH].
Qed.

(** ** Uninstalling *)

(** C6. Destroying a live binding closes the subscription of every stream
    binding, removes the registration and puts back the hooks held in the
    registration's snapshot. That snapshot is the set of hooks the component
    had when [init] created the registration, and nothing that happens
    afterwards changes it. [init] on an installed component and [destroy] on
    an absent one change nothing, and whatever happens no component ever has
    two entries in [componentRegistrations]. *)
Theorem destroy_uninstalls (st : State) (c r : nat) :
  JsMap.get c (componentRegistrations st) = Some r ->
  r < length (regs st) ->
  attached st (reg_at st r) = true ->
  NoDup (JsMap.keys (componentRegistrations st)) ->
  exists st',
    destroy c st = (Returned tt, st')
    /\ (forall s o sub x,
          JsMap.get s (observables (reg_at st r)) = Some o ->
          subscription (oreg_at st o) = Some sub ->
          subs st' !! sub = Some x -> sub_closed x = true)
    /\ JsMap.get c (componentRegistrations st') = None
    /\ component_at st' c = origMethods (reg_at st r)
    /\ init c st = (Returned tt, st)
    /\ destroy c st' = (Returned tt, st')
    /\ (forall fuel es,
          NoDup (JsMap.keys (componentRegistrations (run_events fuel es st)))
          /\ origMethods (reg_at (run_events fuel es st) r)
             = origMethods (reg_at st r))
    /\ (let st2 := after (init c) st' in
        JsMap.get c (componentRegistrations st2) = Some (length (regs st'))
        /\ component_at (after (destroy c) st2) c = component_at st' c
        /\ componentRegistrations (after (destroy c) st2) = componentRegistrations st'
        /\ forall fuel es,
             origMethods (reg_at (run_events fuel es st2) (length (regs st')))
             = component_at st' c).
Proof.
  intros Hget Hr Hatt Hnd.
  eexists. split; [apply (destroy_live st c r Hget Hatt)|].
  set (st' := set_components _ _).
  assert (Habs : JsMap.get c (componentRegistrations st') = None).
  { apply JsMapFacts.get_delete_eq. }
  assert (Hfresh : JsMap.has c (componentRegistrations st') = false).
  { now apply JsMapFacts.has_false_get. }
  split; [|split; [exact Habs|split; [|split; [|split; [|split]]]]].
  - intros s o sub x Hs Ho Hx. simpl in Hx.
    destruct (lookup_lt_is_Some_2 (subs st) sub) as [x0 Hx0].
    { rewrite <- (close_all_length
                    (handles st (JsMap.values (observables (reg_at st r))))).
      now apply lookup_lt_Some with x. }
    destruct (close_all_lookup
                (handles st (JsMap.values (observables (reg_at st r))))
                _ _ _ Hx0) as (x' & Hx' & _ & _ & _ & Hin & _).
    rewrite Hx in Hx'. injection Hx' as <-. apply Hin.
    apply handles_In with o; [|assumption].
    now apply JsMapFacts.get_Some_values with s.
  - apply component_at_set. intros m. apply JsMapFacts.get_set_eq.
  - apply init_installed. apply JsMapFacts.has_true_get. eauto.
  - now apply destroy_absent.
  - intros fuel es.
    destruct (run_events_evolves fuel es st) as (E1 & _ & E3). auto.
  - destruct (init_fresh_live st' c Hfresh) as (Hget2 & Hreg2 & Hlen2 & _).
    cbn zeta. set (st2 := after (init c) st') in *.
    split; [exact Hget2|].
    assert (Hd : destroy c st2
                 = (Returned tt,
                    set_components (JsMap.set c (origMethods (reg_at st2 (length (regs st')))))
                      (set_componentRegistrations (JsMap.delete c)
                         (set_subs
                            (close_all
                               (handles st2
                                  (JsMap.values
                                     (observables (reg_at st2 (length (regs st')))))))
                            st2)))).
    { apply (destroy_live st2 c _ Hget2). now rewrite Hreg2. }
    unfold after at 1 2. rewrite Hd. cbn [snd]. rewrite Hreg2.
    cbn [origMethods observables]. split; [|split].
    + apply component_at_set. intros m. apply JsMapFacts.get_set_eq.
    + cbn [componentRegistrations set_components set_componentRegistrations set_subs].
      unfold st2, after. rewrite (init_fresh st' c Hfresh). cbn.
      apply JsMapFacts.delete_set_absent. exact Habs.
    + intros fuel es.
      destruct (run_events_evolves fuel es st2) as (_ & _ & E3).
      rewrite E3 by lia. now rewrite Hreg2.
Qed.

Lemma destroy_uninstalls_witness :
  exists st',
    destroy 0 stream_rendered = (Returned tt, st')
    /\ JsMap.get 0 (componentRegistrations st') = None
    /\ component_at st' 0 = reader aStream.
Proof.
  destruct (destroy_uninstalls stream_rendered 0 0) as (st' & H1 & _ & H3 & H4 & _).
  - reflexivity.
  - vm_compute. lia.
  - reflexivity.
  - vm_compute. repeat constructor. intros H. inversion H.
  - exists st'. repeat split; assumption.
Defined.

(** ** Well-formed states stay well-formed *)

Lemma wf_initial cs emits : wf (initial cs emits).
Proof.
  split.
  - intros c r H. discriminate H.
  - intros r o H. unfold reg_at in H. cbn in H. destruct r; destruct H.
Qed.

Lemma wf_frame st st' :
  componentRegistrations st' = componentRegistrations st ->
  regs st' = regs st ->
  (forall o sub, subscription (oreg_at st o) = Some sub ->
                 subscription (oreg_at st' o) = Some sub) ->
  length (subs st) <= length (subs st') ->
  wf st -> wf st'.
Proof.
  intros H1 H2 H3 H4 (W1 & W2). split.
  - intros c r. rewrite H1, H2. apply W1.
  - intros r o. unfold reg_at. rewrite H2. intros Hin.
    destruct (W2 r o Hin) as (sub & Hs & Hl). exists sub. split; [auto|lia].
Qed.

Lemma wf_update_reg r f st :
  (forall R o, In o (JsMap.values (observables (f R))) ->
               In o (JsMap.values (observables R))) ->
  wf st -> wf (update_reg r f st).
Proof.
  intros Hf (W1 & W2). split.
  - intros c r'. rewrite length_regs_update_reg. apply W1.
  - intros r' o Hin.
    change (oreg_at (update_reg r f st) o) with (oreg_at st o).
    change (subs (update_reg r f st)) with (subs st).
    destruct (Nat.eq_dec r r') as [<-|Hne].
    + destruct (Nat.lt_ge_cases r (length (regs st))) as [Hlt|Hge].
      * rewrite reg_at_update_eq in Hin by assumption. eauto.
      * unfold reg_at, update_reg in Hin. cbn in Hin.
        rewrite lookup_ge_None_2 in Hin by (rewrite length_alter; lia).
        destruct Hin.
    + rewrite reg_at_update_ne in Hin by assumption. eauto.
Qed.

Lemma wf_attached st r : wf st -> attached st (reg_at st r) = true.
Proof.
  intros (_ & W2). apply attached_iff. intros o Hin.
  destruct (W2 r o Hin) as (sub & Hs & _). eauto.
Qed.

Lemma holds_ret {A} (a : A) : holds (ret a).
Proof. intros st H. exact H. Qed.

Lemma holds_throw {A} e : holds (@throw A e).
Proof. intros st H. exact H. Qed.

Lemma holds_get_state : holds get_state.
Proof. intros st H. exact H. Qed.

Lemma holds_getRenderingRef : holds getRenderingRef.
Proof. intros st H. exact H. Qed.

Lemma holds_bind {A B} (m : M A) (k : A -> M B) :
  holds m -> (forall a, holds (k a)) -> holds (bind m k).
Proof.
  intros Hm Hk st Hwf. specialize (Hm st Hwf). unfold after, bind in *.
  destruct (m st) as [[a| |] st1]; cbn [snd] in *; auto.
  now apply Hk.
Qed.

Lemma holds_modify f : (forall st, wf st -> wf (f st)) -> holds (modify f).
Proof. intros Hf st. apply Hf. Qed.

Lemma holds_finally {A} (m : M A) f :
  holds m -> (forall st, wf st -> wf (f st)) -> holds (finally m f).
Proof.
  intros Hm Hf st Hwf. unfold after, finally. specialize (Hm st Hwf).
  unfold after in Hm. destruct (m st) as [out st']. cbn [snd] in *.
  now apply Hf.
Qed.

Lemma holds_forEach {A} (f : A -> M unit) l :
  (forall a, holds (f a)) -> holds (forEach f l).
Proof.
  intros Hf. induction l as [|a l IH]; [apply holds_ret|].
  cbn [forEach]. apply holds_bind; auto.
Qed.

Lemma oreg_at_with_result st o v o' sub :
  subscription (oreg_at st o') = Some sub ->
  subscription (oreg_at (update_oreg o (with_result v) st) o') = Some sub.
Proof.
  intros H. destruct (Nat.eq_dec o o') as [<-|Hne].
  - rewrite oreg_at_update_eq by now apply oreg_at_bound with sub.
    exact H.
  - now rewrite oreg_at_update_ne.
Qed.

Lemma oreg_at_snoc st o x sub :
  subscription (oreg_at st o) = Some sub ->
  subscription (oreg_at (set_oregs (fun l => l ++ [x]) st) o) = Some sub.
Proof.
  intros H. unfold oreg_at. cbn.
  rewrite lookup_app_l by now apply oreg_at_bound with sub. exact H.
Qed.

(** Closes a goal [holds m] by following the structure of [m]. *)
Ltac holds_frame :=
  apply wf_frame;
  [ reflexivity | reflexivity
  | first [ intros ? ? ?; assumption
          | intros ? ?; apply oreg_at_with_result
          | intros ? ?; apply oreg_at_snoc ]
  | cbn; rewrite ?length_alter, ?length_app; lia ].
Ltac holds_step :=
  match goal with
  | |- holds (bind _ _) => apply holds_bind; [|intros ?]
  | |- holds (ret _) => apply holds_ret
  | |- holds (throw _) => apply holds_throw
  | |- holds get_state => apply holds_get_state
  | |- holds getRenderingRef => apply holds_getRenderingRef
  | |- holds (forEach _ _) => apply holds_forEach; intros ?
  | |- holds (modify _) =>
      apply holds_modify; intros ?;
      first [ holds_frame
            | apply wf_update_reg; intros ? ?; first [ exact (fun H => H)
                                                      | apply values_delete ] ]
  | |- holds (if ?b then _ else _) => destruct b
  | |- holds (match ?x with _ => _ end) => destruct x
  | |- holds _ => solve [auto]
  end.
Ltac holds_auto := repeat holds_step.

Lemma holds_forceUpdate c : holds (forceUpdate c).
Proof. unfold forceUpdate. holds_auto. Qed.

Lemma holds_run_callback cb v : holds (run_callback cb v).
Proof. pose proof holds_forceUpdate. destruct cb; cbn; holds_auto. Qed.

Lemma holds_deliver sub v : holds (deliver sub v).
Proof. pose proof holds_run_callback. unfold deliver. holds_auto. Qed.

Lemma holds_emit s v : holds (emit s v).
Proof. pose proof holds_deliver. unfold emit. holds_auto. Qed.

Lemma holds_run_reactions p : holds (run_reactions p).
Proof. pose proof holds_run_callback. unfold run_reactions. holds_auto. Qed.

Lemma holds_settle p v : holds (settle p v).
Proof. pose proof holds_run_reactions. unfold settle. holds_auto. Qed.

Lemma holds_unsubscribe_of o : holds (unsubscribe_of o).
Proof. unfold unsubscribe_of, unsubscribe. holds_auto. Qed.

Lemma holds_init c : holds (init c).
Proof.
  intros st (W1 & W2). unfold after.
  destruct (JsMap.has c (componentRegistrations st)) eqn:E.
  - rewrite init_installed by assumption. now split.
  - rewrite init_fresh by assumption. cbn [snd]. split.
    + intros c' r. cbn. rewrite length_app. cbn.
      destruct (Nat.eq_dec c c') as [<-|Hne].
      * rewrite JsMapFacts.get_set_eq. intros [= <-]. lia.
      * rewrite JsMapFacts.get_set_ne by assumption. intros H.
        apply W1 in H. lia.
    + intros r o. unfold reg_at. cbn.
      destruct (Nat.lt_ge_cases r (length (regs st))) as [Hlt|Hge].
      * rewrite lookup_app_l by assumption. apply W2.
      * rewrite lookup_app_r by assumption.
        destruct (r - length (regs st)) as [|n]; cbn; [intros []|].
        rewrite ?lookup_nil. cbn. intros [].
Qed.

Lemma wf_registry_delete c st :
  wf st -> wf (set_componentRegistrations (JsMap.delete c) st).
Proof.
  intros (W1 & W2). split; [|exact W2].
  intros c' r. cbn. destruct (Nat.eq_dec c c') as [<-|Hne].
  - now rewrite JsMapFacts.get_delete_eq.
  - rewrite JsMapFacts.get_delete_ne by assumption. apply W1.
Qed.

Lemma holds_destroy c : holds (destroy c).
Proof.
  pose proof holds_unsubscribe_of. unfold destroy.
  apply holds_bind; [apply holds_get_state|intros st0].
  destruct (JsMap.get c (componentRegistrations st0)); [|apply holds_ret].
  apply holds_bind; [holds_auto|intros _].
  apply holds_bind; [apply holds_modify, wf_registry_delete|intros _].
  holds_auto.
Qed.

Lemma holds_unregisterObservable c s : holds (unregisterObservable c s).
Proof.
  pose proof holds_unsubscribe_of. unfold unregisterObservable. holds_auto.
Qed.

Lemma holds_getComponentRegistration c : holds (getComponentRegistration c).
Proof.
  pose proof (holds_init c). unfold getComponentRegistration. holds_auto.
Qed.

Lemma holds_getPromiseValue obj : holds (getPromiseValue obj).
Proof.
  pose proof holds_getComponentRegistration.
  unfold getPromiseValue, promise_then, deref. holds_auto.
Qed.

Lemma wf_subscribed c r s st :
  r < length (regs st) -> wf st -> wf (subscribed c r s st).
Proof.
  intros Hr (W1 & W2).
  destruct (subscribed_frame c r s st)
    as (F1 & _ & _ & _ & _ & _ & _ & F8 & _ & F10 & F11).
  split.
  - intros c' r'. rewrite F1, F10. apply W1.
  - intros r' o Hin. rewrite F8, length_app. cbn [length].
    destruct (Nat.eq_dec r' r) as [->|Hne].
    + rewrite subscribed_reg in Hin by assumption. cbn [observables] in Hin.
      apply values_set in Hin as [->|Hin].
      * exists (length (subs st)). split; [|lia].
        unfold oreg_at. rewrite subscribed_oregs.
        rewrite lookup_app_r by lia. now rewrite Nat.sub_diag.
      * destruct (W2 r o Hin) as (sub & Hs & Hl). exists sub. split; [|lia].
        rewrite subscribed_oreg_old; [exact Hs|now apply oreg_at_bound with sub].
    + rewrite F11 in Hin by assumption.
      destruct (W2 r' o Hin) as (sub & Hs & Hl). exists sub. split; [|lia].
      rewrite subscribed_oreg_old; [exact Hs|now apply oreg_at_bound with sub].
Qed.

Lemma holds_getObservableValue obj : holds (getObservableValue obj).
Proof.
  intros st Hwf.
  destruct (renderingRef st) as [c|] eqn:Href.
  - assert (Hlive : forall st0 r,
               wf st0 -> renderingRef st0 = Some c ->
               JsMap.get c (componentRegistrations st0) = Some r ->
               wf (after (getObservableValue obj) st0)).
    { intros st0 r Hwf0 Href0 Hget0.
      assert (Hr0 : r < length (regs st0)) by (apply (proj1 Hwf0 c r Hget0)).
      unfold after.
      destruct (JsMap.get (ident obj) (observables (reg_at st0 r))) as [o|] eqn:Ho.
      - rewrite (getObservableValue_bound st0 c r obj o Href0 Hget0 Hr0 Ho).
        cbn [snd]. apply wf_update_reg; [|exact Hwf0]. intros R o' H. exact H.
      - rewrite (getObservableValue_fresh st0 c r obj Href0 Hget0 Hr0)
          by now apply JsMapFacts.has_false_get.
        cbn [snd]. now apply wf_subscribed. }
    destruct (JsMap.get c (componentRegistrations st)) as [r|] eqn:Hget.
    + now apply (Hlive st r).
    + assert (Hhas : JsMap.has c (componentRegistrations st) = false).
      { now apply JsMapFacts.has_false_get. }
      unfold after. rewrite (getObservableValue_init st c obj Href Hhas).
      destruct (init_fresh_live st c Hhas) as (Hget1 & _ & _ & Href1 & _).
      apply (Hlive (after (init c) st) (length (regs st))).
      * now apply holds_init.
      * congruence.
      * exact Hget1.
  - unfold after, getObservableValue, bind, getRenderingRef. rewrite Href.
    exact Hwf.
Qed.

Lemma holds_readAsync src : holds (readAsync src).
Proof.
  unfold readAsync, getAsyncValue.
  destruct (isPromise src); [apply holds_getPromiseValue|].
  destruct (isSubscribable src); [apply holds_getObservableValue|].
  unfold console_error. holds_auto.
Qed.

Lemma holds_run_prog body : holds (run_prog body).
Proof.
  induction body as [v|src k IH]; cbn [run_prog]; [apply holds_ret|].
  apply holds_bind; [apply holds_readAsync|exact IH].
Qed.

Lemma holds_call_hook fuel : forall h, holds (call_hook fuel h).
Proof.
  induction fuel as [|fuel IH]; intros h.
  - intros st H. exact H.
  - pose proof holds_init. pose proof holds_destroy.
    pose proof holds_run_prog. pose proof holds_unregisterObservable.
    destruct h; cbn [call_hook]; holds_auto; auto.
Qed.

Lemma holds_run_event fuel e : holds (run_event fuel e).
Proof.
  pose proof (holds_call_hook fuel).
  destruct e; cbn [run_event].
  - apply holds_bind; [|intros ?; apply holds_ret].
    unfold host_render. apply holds_finally.
    + holds_auto; auto.
    + intros st0 Hwf.
      apply (wf_frame st0); [reflexivity|reflexivity|auto|cbn; lia|exact Hwf].
  - unfold host_connect. holds_auto; auto.
  - unfold host_disconnect. holds_auto; auto.
  - apply holds_settle.
  - apply holds_run_reactions.
  - apply holds_emit.
  - apply holds_bind; [apply holds_readAsync|intros _; apply holds_ret].
  - holds_auto.
Qed.

(** Whatever happens, starting from a state in which nothing is installed,
    the state is well-formed: the side conditions of the statements about
    live bindings hold in every state the module can reach. *)
Lemma reachable_wf fuel es cs emits :
  wf (run_events fuel es (initial cs emits)).
Proof.
  assert (H : forall st, wf st -> wf (run_events fuel es st)).
  { induction es as [|e es IH]; intros st Hwf; [exact Hwf|].
    cbn [run_events]. apply IH. now apply holds_run_event. }
  apply H, wf_initial.
Qed.

Lemma reachable_live fuel es cs emits c r :
  let st := run_events fuel es (initial cs emits) in
  JsMap.get c (componentRegistrations st) = Some r ->
  r < length (regs st) /\ attached st (reg_at st r) = true.
Proof.
  intros st Hget. pose proof (reachable_wf fuel es cs emits) as Hwf.
  fold st in Hwf. split; [apply (proj1 Hwf c r Hget)|now apply wf_attached].
Qed.

(** * Further properties of the module *)

(** ** The frame of a read *)

Lemma pass_frame_refl r st : pass_frame r st st.
Proof. unfold pass_frame. repeat split; auto. Qed.

Lemma pass_frame_trans r a b c :
  (forall s o, JsMap.get s (observables (reg_at b r)) = Some o ->
               exists sub, subscription (oreg_at b o) = Some sub) ->
  pass_frame r a b -> pass_frame r b c -> pass_frame r a c.
Proof.
  intros Hatt (A1 & A2 & A3 & A4 & A5 & A6 & A7 & A8 & A9 & A10 & A11 & A12)
         (B1 & B2 & B3 & B4 & B5 & B6 & B7 & B8 & B9 & B10 & B11 & B12).
  unfold pass_frame. repeat split; try congruence; auto; try lia.
  - intros o Ho. rewrite B6 by lia. auto.
  - intros i Hi. rewrite B8 by lia. auto.
  - intros r' Hr'. rewrite B10 by assumption. auto.
  - intros s o Hso. destruct (B12 s o Hso) as [Hb|(sub & Hsub & Hle)].
    + destruct (A12 s o Hb) as [Ha|(sub & Hsub & Hle)]; [now left|right].
      exists sub. split; [|exact Hle].
      rewrite B6; [exact Hsub|]. now apply oreg_at_bound with sub.
    + right. exists sub. split; [exact Hsub|lia].
Qed.

Lemma readAsync_frame c r src st :
  bound_inv c r st -> pass_frame r st (after (readAsync src) st).
Proof.
  intros (Href & Hget & Hr & Hatt & Hrec).
  unfold after, readAsync, getAsyncValue.
  destruct (isPromise src) eqn:Hp.
  - destruct (JsMap.has (ident src) (promises (reg_at st r))) eqn:Hhas.
    + rewrite (getPromiseValue_known st c r src Href Hget Hhas).
      apply pass_frame_refl.
    + rewrite (getPromiseValue_first st c r src Href Hget Hr Hhas). cbn [snd].
      assert (Hreg : reg_at (continued c r (ident src) st) r
                     = with_promises (JsMap.set (ident src) VNull) (reg_at st r)).
      { unfold continued.
        change (reg_at (set_thenables ?f ?s) r) with (reg_at s r).
        now apply reg_at_update_eq. }
      unfold pass_frame. rewrite Hreg. cbn [promises observables origMethods with_promises].
      repeat split; auto.
      * intros p x Hpx. rewrite JsMapFacts.get_set_ne; [exact Hpx|].
        intros <-. apply JsMapFacts.has_false_get in Hhas. congruence.
      * intros r' Hne. unfold continued.
        change (reg_at (set_thenables ?f ?s) r') with (reg_at s r').
        now apply reg_at_update_ne.
  - destruct (isSubscribable src) eqn:Hs.
    + destruct (JsMap.get (ident src) (observables (reg_at st r))) as [o'|] eqn:Ho.
      * rewrite (getObservableValue_bound st c r src o' Href Hget Hr Ho). cbn [snd].
        unfold pass_frame. rewrite reg_at_update_eq by assumption.
        cbn [promises observables origMethods with_recentlyUsedObservables].
        repeat split; auto.
        intros r' Hne. now apply reg_at_update_ne.
      * assert (Hhas : JsMap.has (ident src) (observables (reg_at st r)) = false).
        { now apply JsMapFacts.has_false_get. }
        rewrite (getObservableValue_fresh st c r src Href Hget Hr Hhas). cbn [snd].
        destruct (subscribed_frame c r (ident src) st)
          as (F1 & F2 & F3 & F4 & F5 & F6 & F7 & F8 & F9 & F10 & F11).
        unfold pass_frame. rewrite (subscribed_reg c r (ident src) st Hr).
        cbn [promises observables origMethods].
        rewrite F1, F2, F5, F8, subscribed_oregs, !length_app. cbn [length].
        repeat split; auto; try lia.
        -- intros s o Hso. rewrite JsMapFacts.get_set_ne; [exact Hso|].
           intros <-. congruence.
        -- intros o Hlt. now apply subscribed_oreg_old.
        -- intros i Hi. now rewrite lookup_app_l.
        -- intros s o Hso.
           destruct (Nat.eq_dec (ident src) s) as [<-|Hne].
           ++ rewrite JsMapFacts.get_set_eq in Hso. injection Hso as <-.
              right. exists (length (subs st)). split; [|lia].
              unfold oreg_at. rewrite subscribed_oregs.
              rewrite lookup_app_r by lia. now rewrite Nat.sub_diag.
           ++ rewrite JsMapFacts.get_set_ne in Hso by assumption. now left.
    + unfold console_error, bind, modify, ret. cbn [snd].
      unfold pass_frame. repeat split; auto.
Qed.

Lemma bound_inv_handles c r st :
  bound_inv c r st ->
  forall s o, JsMap.get s (observables (reg_at st r)) = Some o ->
              exists sub, subscription (oreg_at st o) = Some sub.
Proof.
  intros (_ & _ & _ & Hatt & _) s o Hso.
  apply (proj1 (attached_iff st (reg_at st r)) Hatt).
  now apply JsMapFacts.get_Some_values with s.
Qed.

Lemma run_prog_frame c r body :
  forall st, bound_inv c r st -> pass_frame r st (after (run_prog body) st).
Proof.
  induction body as [v|src k IH]; intros st Hinv.
  - apply pass_frame_refl.
  - destruct (readAsync_inv c r src st Hinv) as (v & st1 & Hread & Hinv1 & _).
    pose proof (readAsync_frame c r src st Hinv) as Hf1.
    unfold after in Hf1. rewrite Hread in Hf1. cbn [snd] in Hf1.
    specialize (IH v st1 Hinv1).
    unfold after. cbn [run_prog]. unfold bind. rewrite Hread.
    apply pass_frame_trans with st1; auto.
    now apply bound_inv_handles with c.
Qed.

(** ** Looking up and creating the registration *)

(** X1. [getComponentRegistration] always returns a registration and never
    throws. For an installed component it returns the registration on record
    and changes nothing. For any other component it installs the module: the
    new registration is empty, its snapshot holds the hooks the component had,
    the component's three hooks become the wrappers, and no other component is
    touched. Asking again returns the same registration and changes
    nothing. *)
Theorem getComponentRegistration_installs_once (st : State) (c : nat) :
  exists r st',
    getComponentRegistration c st = (Returned r, st')
    /\ JsMap.get c (componentRegistrations st') = Some r
    /\ getComponentRegistration c st' = (Returned r, st')
    /\ (JsMap.has c (componentRegistrations st) = true -> st' = st)
    /\ (JsMap.has c (componentRegistrations st) = false ->
        r = length (regs st)
        /\ reg_at st' r
           = {| promises := []; observables := []; recentlyUsedObservables := [];
                origMethods := component_at st c |}
        /\ component_at st' c
           = {| connectedCallback := HConnect c r;
                disconnectedCallback := HDisconnect c r;
                render := HRender c r |}
        /\ (forall c', c' <> c ->
                       component_at st' c' = component_at st c'
                       /\ JsMap.get c' (componentRegistrations st')
                          = JsMap.get c' (componentRegistrations st))
        /\ (forall r', r' < length (regs st) -> reg_at st' r' = reg_at st r')).
Proof.
  destruct (JsMap.has c (componentRegistrations st)) eqn:Hhas.
  - apply JsMapFacts.has_true_get in Hhas as Hget. destruct Hget as [r Hget].
    exists r, st. rewrite (getComponentRegistration_live st c r Hget).
    repeat split; auto; discriminate.
  - exists (length (regs st)), (after (init c) st).
    destruct (init_fresh_live st c Hhas) as (Hget & Hreg & _).
    rewrite (getComponentRegistration_fresh st c Hhas).
    rewrite (getComponentRegistration_live _ c _ Hget).
    split; [reflexivity|]. split; [exact Hget|]. split; [reflexivity|].
    split; [discriminate|]. intros _.
    split; [reflexivity|]. split; [exact Hreg|].
    unfold after. rewrite (init_fresh st c Hhas). cbn [snd]. split; [|split].
    + apply component_at_set. intros m. apply JsMapFacts.get_set_eq.
    + intros c' Hne. split.
      * unfold component_at. cbn. now rewrite JsMapFacts.get_set_ne by congruence.
      * cbn. now rewrite JsMapFacts.get_set_ne by congruence.
    + intros r' Hr'. unfold reg_at. cbn. now rewrite lookup_app_l.
Qed.

Lemma getComponentRegistration_installs_once_witness :
  exists r st',
    getComponentRegistration 0 eager_stream_start = (Returned r, st')
    /\ r = 0
    /\ component_at st' 0
       = {| connectedCallback := HConnect 0 0;
            disconnectedCallback := HDisconnect 0 0;
            render := HRender 0 0 |}
    /\ origMethods (reg_at st' 0) = reader aStream.
Proof.
  destruct (getComponentRegistration_installs_once eager_stream_start 0)
    as (r & st' & H1 & _ & _ & _ & H5).
  destruct H5 as (-> & Hreg & Hc & _); [reflexivity|].
  exists 0, st'. split; [exact H1|]. split; [reflexivity|]. split; [exact Hc|].
  change (length (regs eager_stream_start)) with 0 in Hreg. now rewrite Hreg.
Defined.

(** ** Reading outside any render *)

(** X2. When no component has been rendered yet, [async] of a promise or of
    an observable throws, and it throws before anything is recorded: the state
    is unchanged. *)
Theorem read_without_rendering_component_throws (obj : Value) (st : State) :
  renderingRef st = None ->
  invalid obj = false ->
  exists e, readAsync obj st = (Thrown e, st).
Proof.
  intros Href Hinv. unfold invalid in Hinv. unfold readAsync, getAsyncValue.
  destruct (isPromise obj).
  - eexists. unfold getPromiseValue, bind, getRenderingRef. rewrite Href.
    reflexivity.
  - destruct (isSubscribable obj); [|discriminate].
    eexists. unfold getObservableValue, bind, getRenderingRef. rewrite Href.
    reflexivity.
Qed.

Lemma read_without_rendering_component_throws_witness :
  exists e, readAsync aStream (initial [(0, reader aStream)] [])
            = (Thrown e, initial [(0, reader aStream)] []).
Proof.
  apply (read_without_rendering_component_throws aStream
           (initial [(0, reader aStream)] [])); reflexivity.
Defined.

(** ** A promise that is already settled *)

Lemma run_reactions_settled st p v :
  settled (thenable_at st p) = Some v ->
  run_reactions p st
  = (Returned tt,
     reacted v (reactions (thenable_at st p))
       (set_thenables (JsMap.set p {| settled := Some v; reactions := [] |}) st)).
Proof.
  intros Hp. unfold run_reactions, bind at 1, get_state at 1. rewrite Hp.
  unfold bind at 1, modify at 1. now rewrite forEach_run_callback.
Qed.

(** The first read, by an installed component, of a promise that has
    settled. *)
Lemma settled_promise_first_read_installed
    (st : State) (c r : nat) (obj v : Value) :
  isPromise obj = true ->
  renderingRef st = Some c ->
  JsMap.get c (componentRegistrations st) = Some r ->
  r < length (regs st) ->
  JsMap.has (ident obj) (promises (reg_at st r)) = false ->
  thenable_at st (ident obj) = {| settled := Some v; reactions := [] |} ->
  let st1 := after (readAsync obj) st in
  let st2 := after (run_reactions (ident obj)) st1 in
  readAsync obj st = (Returned VNull, st1)
  /\ forceUpdates st1 = forceUpdates st
  /\ readAsync obj st1 = (Returned VNull, st1)
  /\ fst (run_reactions (ident obj) st1) = Returned tt
  /\ forceUpdates st2 = forceUpdates st ++ [c]
  /\ readAsync obj st2 = (Returned (VArr [v]), st2).
Proof.
  intros Hp Href Hget Hr Hhas Hthen st1 st2.
  assert (Hread : readAsync obj st = (Returned VNull, continued c r (ident obj) st)).
  { unfold readAsync, getAsyncValue. rewrite Hp.
    now apply getPromiseValue_first. }
  assert (Hst1 : st1 = continued c r (ident obj) st).
  { unfold st1, after. now rewrite Hread. }
  destruct (continued_frame c r (ident obj) st) as (F1 & F2 & F3 & F4 & F5).
  rewrite <- Hst1 in F1, F2, F3, F4, F5. rewrite Hthen in F5.
  cbn [settled reactions app] in F5.
  assert (Hreg1 : reg_at st1 r
                  = with_promises (JsMap.set (ident obj) VNull) (reg_at st r)).
  { rewrite Hst1. unfold continued.
    change (reg_at (set_thenables ?f ?s) r) with (reg_at s r).
    now apply reg_at_update_eq. }
  assert (Hrun : run_reactions (ident obj) st1
                 = (Returned tt,
                    reacted v [CbPromise c r (ident obj)]
                      (set_thenables
                         (JsMap.set (ident obj) {| settled := Some v; reactions := [] |})
                         st1))).
  { rewrite (run_reactions_settled st1 (ident obj) v) by now rewrite F5.
    now rewrite F5. }
  assert (Hst2 : st2 = set_forceUpdates (fun l => l ++ [c])
                         (update_reg r (with_promises (JsMap.set (ident obj) (VArr [v])))
                            (set_thenables
                               (JsMap.set (ident obj)
                                  {| settled := Some v; reactions := [] |}) st1))).
  { unfold st2, after. rewrite Hrun. reflexivity. }
  split; [now rewrite Hst1|]. split; [exact F4|]. split.
  { unfold readAsync, getAsyncValue. rewrite Hp.
    rewrite (getPromiseValue_known st1 c r obj); try congruence.
    - rewrite Hreg1. cbn [promises with_promises].
      now rewrite JsMapFacts.get_set_eq.
    - rewrite Hreg1. cbn [promises with_promises].
      apply JsMapFacts.has_true_get. rewrite JsMapFacts.get_set_eq. eauto. }
  split; [now rewrite Hrun|]. split.
  { rewrite Hst2. cbn. now rewrite F4. }
  assert (Hreg2 : JsMap.get (ident obj) (promises (reg_at st2 r)) = Some (VArr [v])).
  { rewrite Hst2.
    change (reg_at (set_forceUpdates ?f ?s) r) with (reg_at s r).
    rewrite reg_at_update_eq by (cbn; lia). cbn [promises with_promises].
    apply JsMapFacts.get_set_eq. }
  unfold readAsync, getAsyncValue. rewrite Hp.
  rewrite (getPromiseValue_known st2 c r obj).
  - now rewrite Hreg2.
  - rewrite Hst2. cbn. congruence.
  - rewrite Hst2. cbn. congruence.
  - apply JsMapFacts.has_true_get. eauto.
Qed.

(** X3. The first read of a promise returns [null] even when the promise
    settled long ago, and requests no re-render: the value only arrives with
    the continuation, which the promise runs later. Once it has run, one
    re-render has been requested for the component and the reads return the
    one-element array holding the value. The read may be the one that
    installs the module on the component. *)
Theorem settled_promise_is_first_read_as_null
    (st : State) (c : nat) (obj v : Value) :
  isPromise obj = true ->
  renderingRef st = Some c ->
  first_promise_read c (ident obj) st = true ->
  thenable_at st (ident obj) = {| settled := Some v; reactions := [] |} ->
  let st1 := after (readAsync obj) st in
  let st2 := after (run_reactions (ident obj)) st1 in
  readAsync obj st = (Returned VNull, st1)
  /\ forceUpdates st1 = forceUpdates st
  /\ readAsync obj st1 = (Returned VNull, st1)
  /\ fst (run_reactions (ident obj) st1) = Returned tt
  /\ forceUpdates st2 = forceUpdates st ++ [c]
  /\ readAsync obj st2 = (Returned (VArr [v]), st2).
Proof.
  intros Hp Href Hfirst Hthen. unfold first_promise_read in Hfirst.
  destruct (JsMap.get c (componentRegistrations st)) as [r|] eqn:Hget.
  - apply andb_true_iff in Hfirst as [Hr Hhas].
    apply Nat.ltb_lt in Hr. apply negb_true_iff in Hhas.
    exact (settled_promise_first_read_installed st c r obj v Hp Href Hget Hr
             Hhas Hthen).
  - assert (Hhas : JsMap.has c (componentRegistrations st) = false).
    { unfold JsMap.has. now rewrite Hget. }
    destruct (init_fresh_live st c Hhas)
      as (I1 & I2 & I3 & I4 & _ & _ & I7 & _ & I9).
    assert (Hsame : readAsync obj st = readAsync obj (after (init c) st)).
    { unfold readAsync, getAsyncValue. rewrite Hp.
      exact (getPromiseValue_init st c obj Href Hhas). }
    assert (Hth : thenable_at (after (init c) st) (ident obj)
                  = thenable_at st (ident obj)).
    { unfold thenable_at. now rewrite I7. }
    remember (after (init c) st) as s0 eqn:Es0.
    destruct (settled_promise_first_read_installed s0 c (length (regs st)) obj v)
      as (L1 & L2 & L3 & L4 & L5 & L6); try assumption.
    + congruence.
    + lia.
    + now rewrite I2.
    + now rewrite Hth.
    + assert (Hafter : after (readAsync obj) st = after (readAsync obj) s0)
        by (unfold after; now rewrite Hsame).
      cbn zeta. rewrite Hafter, Hsame. rewrite I9 in L2, L5.
      repeat split; assumption.
Qed.

Lemma settled_promise_is_first_read_as_null_witness :
  let st1 := after (readAsync aPromise) settled_before_read in
  let st2 := after (run_reactions 7) st1 in
  readAsync aPromise settled_before_read = (Returned VNull, st1)
  /\ forceUpdates st1 = []
  /\ readAsync aPromise st1 = (Returned VNull, st1)
  /\ fst (run_reactions 7 st1) = Returned tt
  /\ forceUpdates st2 = [0]
  /\ readAsync aPromise st2 = (Returned (VArr [VStr "X"]), st2).
Proof.
  apply (settled_promise_is_first_read_as_null settled_before_read 0 aPromise
           (VStr "X")); reflexivity.
Defined.

(** ** The promise path stays away from streams *)

Lemma getPromiseValue_first_any st c r obj :
  renderingRef st = Some c ->
  JsMap.get c (componentRegistrations st) = Some r ->
  JsMap.has (ident obj) (promises (reg_at st r)) = false ->
  exists v, getPromiseValue obj st = (Returned v, continued c r (ident obj) st).
Proof.
  intros Href Hget Hhas. unfold getPromiseValue, bind at 1, getRenderingRef.
  rewrite Href. unfold bind at 1, deref, ret at 1.
  unfold bind at 1. rewrite (getComponentRegistration_live st c r Hget).
  unfold bind, get_state. rewrite Hhas.
  unfold promise_then. msimpl. eexists. reflexivity.
Qed.

Lemma recentlyUsed_update_promises st r r' f :
  recentlyUsedObservables (reg_at (update_reg r' (with_promises f) st) r)
  = recentlyUsedObservables (reg_at st r).
Proof.
  destruct (Nat.eq_dec r' r) as [->|Hne].
  - destruct (Nat.lt_ge_cases r (length (regs st))) as [Hlt|Hge].
    + now rewrite reg_at_update_eq.
    + unfold reg_at, update_reg. cbn.
      now rewrite !lookup_ge_None_2 by (rewrite ?length_alter; lia).
  - now rewrite reg_at_update_ne.
Qed.

(** X4. Reading a promise, or an object that has both [then] and
    [subscribe], never subscribes to anything, never touches a stream binding
    or a registration object of a stream, and requests no re-render by
    itself, whatever the state. *)
Theorem promise_read_never_subscribes (obj : Value) (st : State) :
  isPromise obj = true ->
  let st' := after (readAsync obj) st in
  subs st' = subs st
  /\ oregs st' = oregs st
  /\ forceUpdates st' = forceUpdates st
  /\ (forall r, observables (reg_at st' r) = observables (reg_at st r))
  /\ (forall r, recentlyUsedObservables (reg_at st' r)
                = recentlyUsedObservables (reg_at st r)).
Proof.
  intros Hp.
  assert (Hlive : forall st0 c r,
             renderingRef st0 = Some c ->
             JsMap.get c (componentRegistrations st0) = Some r ->
             let st' := after (getPromiseValue obj) st0 in
             subs st' = subs st0 /\ oregs st' = oregs st0
             /\ forceUpdates st' = forceUpdates st0
             /\ (forall r', observables (reg_at st' r') = observables (reg_at st0 r'))
             /\ (forall r', recentlyUsedObservables (reg_at st' r')
                            = recentlyUsedObservables (reg_at st0 r'))).
  { intros st0 c r Href Hget. unfold after.
    destruct (JsMap.has (ident obj) (promises (reg_at st0 r))) eqn:Hhas.
    - rewrite (getPromiseValue_known st0 c r obj Href Hget Hhas). cbn. auto.
    - destruct (getPromiseValue_first_any st0 c r obj Href Hget Hhas) as [w ->].
      cbn [snd].
      unfold continued. cbn [subs oregs forceUpdates set_thenables update_reg set_regs].
      split; [reflexivity|]. split; [reflexivity|]. split; [reflexivity|].
      split; intros r';
        change (reg_at (set_thenables ?f ?s) r') with (reg_at s r').
      + apply observables_update_promises.
      + apply recentlyUsed_update_promises. }
  intros st'. unfold st', after, readAsync, getAsyncValue. rewrite Hp.
  destruct (renderingRef st) as [c|] eqn:Href.
  - destruct (JsMap.get c (componentRegistrations st)) as [r|] eqn:Hget.
    + apply (Hlive st c r Href Hget).
    + assert (Hhas : JsMap.has c (componentRegistrations st) = false).
      { now apply JsMapFacts.has_false_get. }
      rewrite (getPromiseValue_init st c obj Href Hhas).
      destruct (init_fresh_live st c Hhas)
        as (Hget1 & Hreg1 & Hlen1 & Href1 & Ho1 & Hs1 & _ & _ & Hf1).
      destruct (Hlive (after (init c) st) c (length (regs st)))
        as (L1 & L2 & L3 & L4 & L5); [congruence|exact Hget1|].
      fold (after (getPromiseValue obj) (after (init c) st)).
      rewrite L1, L2, L3.
      split; [congruence|]. split; [congruence|]. split; [congruence|]. split.
      * intros r. rewrite L4. unfold after. rewrite (init_fresh st c Hhas).
        unfold reg_at. cbn.
        destruct (Nat.lt_ge_cases r (length (regs st))) as [Hlt|Hge].
        -- now rewrite lookup_app_l.
        -- rewrite (lookup_ge_None_2 (regs st)) by assumption.
           rewrite lookup_app_r by assumption.
           destruct (r - length (regs st)) as [|n]; cbn; [reflexivity|].
           now rewrite ?lookup_nil.
      * intros r. rewrite L5. unfold after. rewrite (init_fresh st c Hhas).
        unfold reg_at. cbn.
        destruct (Nat.lt_ge_cases r (length (regs st))) as [Hlt|Hge].
        -- now rewrite lookup_app_l.
        -- rewrite (lookup_ge_None_2 (regs st)) by assumption.
           rewrite lookup_app_r by assumption.
           destruct (r - length (regs st)) as [|n]; cbn; [reflexivity|].
           now rewrite ?lookup_nil.
  - unfold getPromiseValue, bind, getRenderingRef. rewrite Href. cbn. auto.
Qed.

Lemma promise_read_never_subscribes_witness :
  let st' := after (readAsync aBoth) (rendering 0 stream_rendered) in
  subs st' = subs (rendering 0 stream_rendered)
  /\ oregs st' = oregs (rendering 0 stream_rendered)
  /\ forceUpdates st' = forceUpdates (rendering 0 stream_rendered).
Proof.
  destruct (promise_read_never_subscribes aBoth (rendering 0 stream_rendered))
    as (H1 & H2 & H3 & _); [reflexivity|].
  repeat split; assumption.
Defined.

(** ** Render passes *)

Lemma pass_start_props c r f st :
  renderingRef st = Some c ->
  JsMap.get c (componentRegistrations st) = Some r ->
  r < length (regs st) ->
  attached st (reg_at st r) = true ->
  let st0 := pass_start r f st in
  bound_inv c r st0
  /\ reg_at st0 r = with_recentlyUsedObservables (fun _ => []) (reg_at st r)
  /\ components st0 = components st
  /\ componentRegistrations st0 = componentRegistrations st
  /\ oregs st0 = oregs st /\ subs st0 = subs st
  /\ calls st0 = calls st ++ [f]
  /\ forceUpdates st0 = forceUpdates st
  /\ (forall r', r' <> r -> reg_at st0 r' = reg_at st r').
Proof.
  intros Href Hget Hr Hatt st0.
  assert (Hreg0 : reg_at st0 r
                  = with_recentlyUsedObservables (fun _ => []) (reg_at st r)).
  { unfold st0, pass_start. change (reg_at (set_calls ?g ?s) r) with (reg_at s r).
    now apply reg_at_update_eq. }
  split.
  { unfold bound_inv. rewrite Hreg0. unfold st0, pass_start. cbn.
    rewrite length_alter. repeat split; auto. intros s []. }
  split; [exact Hreg0|]. repeat split.
  intros r' Hne. unfold st0, pass_start.
  change (reg_at (set_calls ?g ?s) r') with (reg_at s r').
  now apply reg_at_update_ne.
Qed.

Lemma size_zero_get {V} (m : JsMap.t V) k v :
  JsMap.get k m = Some v -> Nat.eqb (JsMap.size m) 0 = false.
Proof. destruct m; [discriminate|reflexivity]. Qed.

(** X5. A component that has a promise binding is never uninstalled by a
    render pass: whatever the render function reads, after the wrapper
    returns the component is still registered with the same registration, its
    hooks are still the ones it had, and the promise's entry is still there
    with its value. *)
Theorem promise_binding_outlives_render_pass
    (fuel c r f : nat) (body : Prog) (p : nat) (x : Value) (st : State) :
  renderingRef st = Some c ->
  JsMap.get c (componentRegistrations st) = Some r ->
  r < length (regs st) ->
  attached st (reg_at st r) = true ->
  render (origMethods (reg_at st r)) = HUser f body ->
  JsMap.get p (promises (reg_at st r)) = Some x ->
  exists v st',
    call_hook (S (S fuel)) (HRender c r) st = (Returned v, st')
    /\ JsMap.get c (componentRegistrations st') = Some r
    /\ components st' = components st
    /\ JsMap.get p (promises (reg_at st' r)) = Some x.
Proof.
  intros Href Hget Hr Hatt Hrender Hp.
  destruct (wrapper_pass fuel c r f body st Href Hget Hr Hatt Hrender)
    as (v & st1 & Hrun & Hinv1 & _ & Hcode & _).
  destruct (pass_start_props c r f st Href Hget Hr Hatt)
    as (Hinv0 & Hreg0 & S3 & S4 & _).
  pose proof (run_prog_frame c r body _ Hinv0) as Hframe.
  unfold after in Hframe. rewrite Hrun in Hframe. cbn [snd] in Hframe.
  destruct Hframe as (P1 & P2 & _ & P4 & _).
  destruct Hinv1 as (Href1 & Hget1 & Hr1 & Hatt1 & Hrec1).
  destruct (reaped_props r (unusedObservables (reg_at st1 r)) st1 Hr1 Hatt1)
    as (R1 & _ & _ & R4 & _ & _ & _ & R8 & _).
  set (st2 := reaped r (unusedObservables (reg_at st1 r)) st1) in *.
  assert (Hp2 : JsMap.get p (promises (reg_at st2 r)) = Some x).
  { rewrite R8. cbn [promises with_observables]. apply P4.
    rewrite Hreg0. exact Hp. }
  exists v, st2. rewrite Hcode.
  rewrite (size_zero_get _ _ _ Hp2), andb_false_r.
  split; [reflexivity|]. split; [congruence|]. split; [congruence|exact Hp2].
Qed.

Lemma promise_binding_outlives_render_pass_witness :
  exists v st',
    call_hook 2 (HRender 0 0) (rendering 0 fickle_settled) = (Returned v, st')
    /\ JsMap.get 0 (componentRegistrations st') = Some 0
    /\ components st' = components (rendering 0 fickle_settled)
    /\ JsMap.get 7 (promises (reg_at st' 0)) = Some (VArr [VStr "X"]).
Proof.
  apply (promise_binding_outlives_render_pass 0 0 0 1 fickle 7 (VArr [VStr "X"])
           (rendering 0 fickle_settled)); try reflexivity.
  vm_compute. lia.
Defined.

(** X6. A render pass that reads no stream, in a binding without promises,
    uninstalls the module from the component: when the wrapper returns the
    component is no longer registered, its three hooks are the ones saved at
    installation, and every subscription of the binding is cancelled. *)
Theorem idle_pass_uninstalls
    (fuel c r f : nat) (body : Prog) (st : State) :
  renderingRef st = Some c ->
  JsMap.get c (componentRegistrations st) = Some r ->
  r < length (regs st) ->
  attached st (reg_at st r) = true ->
  render (origMethods (reg_at st r)) = HUser f body ->
  pass_reads r f body st = [] ->
  pass_promises r f body st = [] ->
  exists v st',
    call_hook (S (S fuel)) (HRender c r) st = (Returned v, st')
    /\ JsMap.get c (componentRegistrations st') = None
    /\ component_at st' c = origMethods (reg_at st r)
    /\ (forall s o sub,
          JsMap.get s (observables (reg_at st r)) = Some o ->
          subscription (oreg_at st o) = Some sub ->
          sub < length (subs st) -> closed_at st' sub).
Proof.
  intros Href Hget Hr Hatt Hrender Hreads Hproms.
  destruct (wrapper_pass fuel c r f body st Href Hget Hr Hatt Hrender)
    as (v & st1 & Hrun & Hinv1 & Hkeep & Hcode & _).
  destruct (pass_start_props c r f st Href Hget Hr Hatt)
    as (Hinv0 & Hreg0 & S3 & S4 & S5 & S6 & _).
  pose proof (run_prog_frame c r body _ Hinv0) as Hframe.
  unfold after in Hframe. rewrite Hrun in Hframe. cbn [snd] in Hframe.
  destruct Hframe as (_ & _ & _ & _ & _ & _ & _ & _ & _ & _ & P11 & _).
  unfold pass_reads, pass_promises, after in Hreads, Hproms.
  rewrite Hrun in Hreads, Hproms. cbn [snd] in Hreads, Hproms.
  destruct Hinv1 as (Href1 & Hget1 & Hr1 & Hatt1 & Hrec1).
  destruct (reaped_props r (unusedObservables (reg_at st1 r)) st1 Hr1 Hatt1)
    as (R1 & _ & _ & _ & _ & _ & _ & R8 & R9 & _ & R11).
  set (st2 := reaped r (unusedObservables (reg_at st1 r)) st1) in *.
  assert (Hget2 : JsMap.get c (componentRegistrations st2) = Some r) by congruence.
  exists v. eexists. rewrite Hcode.
  rewrite R8. cbn [recentlyUsedObservables promises with_observables].
  rewrite Hreads, Hproms. cbn [length JsMap.size Nat.eqb andb].
  unfold bind. rewrite (destroy_live st2 c r Hget2 R9).
  split; [reflexivity|]. split; [apply JsMapFacts.get_delete_eq|]. split.
  - rewrite component_at_set with (h := origMethods (reg_at st2 r));
      [|intros m; apply JsMapFacts.get_set_eq].
    rewrite R8. cbn [origMethods with_observables]. rewrite P11, Hreg0.
    reflexivity.
  - intros s o sub Hs Ho Hsub.
    assert (Hk0 : kept r s o sub (pass_start r f st)).
    { unfold kept, oreg_at. rewrite Hreg0, S5, S6.
      cbn [observables recentlyUsedObservables with_recentlyUsedObservables].
      repeat split; auto. }
    assert (Hnot : ~ In s (recentlyUsedObservables (reg_at st1 r))).
    { rewrite Hreads. intros []. }
    destruct (Hkeep s o sub Hnot Hk0) as (K1 & K2 & K3 & K4).
    apply (closed_at_close_all st2
             (handles st2 (JsMap.values (observables (reg_at st2 r)))) sub).
    apply (R11 s o sub); auto.
    apply unusedObservables_In. split; [|exact Hnot].
    apply JsMapFacts.has_keys, JsMapFacts.has_true_get. eauto.
Qed.

Lemma idle_pass_uninstalls_witness :
  exists v st',
    call_hook 2 (HRender 0 0) (rendering 0 gone_idle) = (Returned v, st')
    /\ JsMap.get 0 (componentRegistrations st') = None
    /\ render (component_at st' 0) = HUser 1 idle
    /\ closed_at st' 0.
Proof.
  destruct (idle_pass_uninstalls 0 0 0 1 idle (rendering 0 gone_idle))
    as (v & st' & H1 & H2 & H3 & H4); try reflexivity.
  - vm_compute. lia.
  - exists v, st'. split; [exact H1|]. split; [exact H2|]. split.
    + now rewrite H3.
    + apply (H4 9 0 0); try reflexivity. vm_compute. lia.
Defined.

Lemma get_deleted_notin {V} l :
  forall (m : JsMap.t V) s, ~ In s l -> JsMap.get s (deleted l m) = JsMap.get s m.
Proof.
  induction l as [|s0 l IH]; intros m s Hnot; [reflexivity|].
  unfold deleted. cbn [fold_left]. fold (deleted l (JsMap.delete s0 m)).
  rewrite IH by (intros H; apply Hnot; now right).
  apply JsMapFacts.get_delete_ne. intros ->. apply Hnot. now left.
Qed.

Lemma get_delete_Some {V} k k' (m : JsMap.t V) v :
  JsMap.get k (JsMap.delete k' m) = Some v -> JsMap.get k m = Some v.
Proof.
  destruct (Nat.eq_dec k' k) as [->|Hne].
  - now rewrite JsMapFacts.get_delete_eq.
  - now rewrite JsMapFacts.get_delete_ne.
Qed.

Lemma get_Some_In {V} k (v : V) m : JsMap.get k m = Some v -> In (k, v) m.
Proof.
  induction m as [|[k0 v0] m IH]; simpl; [discriminate|].
  destruct (Nat.eqb k0 k) eqn:E; [|auto].
  apply Nat.eqb_eq in E. intros [= ->]. left. now subst.
Qed.

Lemma own_handle_spec s sub st R s' o' :
  own_handle s sub st R = true ->
  JsMap.get s' (observables R) = Some o' -> s' <> s ->
  subscription (oreg_at st o') <> Some sub.
Proof.
  unfold own_handle. rewrite forallb_forall. intros Hall Hget Hne.
  specialize (Hall _ (get_Some_In _ _ _ Hget)). cbn [fst snd] in Hall.
  apply orb_true_iff in Hall. destruct Hall as [Heq|Hh].
  - apply Nat.eqb_eq in Heq. contradiction.
  - destruct (subscription (oreg_at st o')) as [h|]; [|discriminate].
    apply negb_true_iff, Nat.eqb_neq in Hh. congruence.
Qed.

(** [unregisterObservable] cancels the handle of the stream it is given and
    no other subscription. *)
Lemma unregistered_subs_other r s st i :
  (forall o, JsMap.get s (observables (reg_at st r)) = Some o ->
             subscription (oreg_at st o) <> Some i) ->
  subs (unregistered r s st) !! i = subs st !! i.
Proof.
  intros Hother. unfold unregistered.
  change (subs (update_reg r ?g ?s)) with (subs s).
  destruct (JsMap.get s (observables (reg_at st r))) as [o|]; [|reflexivity].
  specialize (Hother o eq_refl).
  destruct (subscription (oreg_at st o)) as [sub|]; [|reflexivity].
  cbn. apply list_lookup_alter_ne. congruence.
Qed.

Lemma reaped_subs_other r l i :
  forall st,
    r < length (regs st) ->
    attached st (reg_at st r) = true ->
    (forall s o, In s l -> JsMap.get s (observables (reg_at st r)) = Some o ->
                 subscription (oreg_at st o) <> Some i) ->
    subs (reaped r l st) !! i = subs st !! i.
Proof.
  induction l as [|s0 l IH]; intros st Hr Hatt Hother; [reflexivity|].
  unfold reaped. cbn [fold_left]. fold (reaped r l (unregistered r s0 st)).
  destruct (unregistered_props r s0 st Hr Hatt)
    as (_ & _ & U3 & _ & _ & U6 & _ & U8 & U9 & _).
  rewrite IH.
  - apply unregistered_subs_other. intros o. apply Hother. now left.
  - now rewrite U6.
  - exact U9.
  - intros s o Hin. rewrite U8. cbn [observables with_observables].
    intros Hs. apply get_delete_Some in Hs. unfold oreg_at. rewrite U3.
    apply (Hother s o); [now right|exact Hs].
Qed.

(** X7. A stream that the render function reads again keeps its binding
    through the render pass: when the wrapper returns, the component is still
    registered, the stream is bound to the same registration object with the
    same cancel handle and last value, and the subscription behind that
    handle is exactly as it was, hence not cancelled and not replaced. The
    handle is required to belong to that stream alone among the component's
    bindings. *)
Theorem reread_stream_keeps_subscription
    (fuel c r f : nat) (body : Prog) (s o sub : nat) (st : State) :
  renderingRef st = Some c ->
  JsMap.get c (componentRegistrations st) = Some r ->
  r < length (regs st) ->
  attached st (reg_at st r) = true ->
  render (origMethods (reg_at st r)) = HUser f body ->
  JsMap.get s (observables (reg_at st r)) = Some o ->
  o < length (oregs st) ->
  subscription (oreg_at st o) = Some sub ->
  sub < length (subs st) ->
  own_handle s sub st (reg_at st r) = true ->
  In s (pass_reads r f body st) ->
  exists v st',
    call_hook (S (S fuel)) (HRender c r) st = (Returned v, st')
    /\ JsMap.get c (componentRegistrations st') = Some r
    /\ JsMap.get s (observables (reg_at st' r)) = Some o
    /\ oreg_at st' o = oreg_at st o
    /\ subs st' !! sub = subs st !! sub.
Proof.
  intros Href Hget Hr Hatt Hrender Hs Ho Hsub Hlt Hown Hread.
  destruct (wrapper_pass fuel c r f body st Href Hget Hr Hatt Hrender)
    as (v & st1 & Hrun & Hinv1 & _ & Hcode & _).
  destruct (pass_start_props c r f st Href Hget Hr Hatt)
    as (Hinv0 & Hreg0 & S3 & S4 & S5 & S6 & _).
  pose proof (run_prog_frame c r body _ Hinv0) as Hframe.
  unfold pass_reads, after in Hread, Hframe. rewrite Hrun in Hread, Hframe.
  cbn [snd] in Hread, Hframe.
  destruct Hframe as (_ & P2 & _ & _ & P5 & P6 & _ & P8 & _ & _ & _ & P12).
  rewrite Hreg0 in P5, P12. cbn [observables with_recentlyUsedObservables] in P5, P12.
  rewrite S5 in P6. rewrite S6 in P8, P12.
  assert (Oeq : forall o', o' < length (oregs st) -> oreg_at st1 o' = oreg_at st o').
  { intros o' Ho'. rewrite (P6 o' Ho'). unfold oreg_at. now rewrite S5. }
  destruct Hinv1 as (Href1 & Hget1 & Hr1 & Hatt1 & Hrec1).
  destruct (reaped_props r (unusedObservables (reg_at st1 r)) st1 Hr1 Hatt1)
    as (R1 & _ & R3 & _ & _ & _ & _ & R8 & _).
  set (st2 := reaped r (unusedObservables (reg_at st1 r)) st1) in *.
  assert (Hused : ~ In s (unusedObservables (reg_at st1 r))).
  { rewrite unusedObservables_In. tauto. }
  exists v, st2. rewrite Hcode.
  assert (Hlen : Nat.eqb (length (recentlyUsedObservables (reg_at st2 r))) 0 = false).
  { rewrite R8. cbn [recentlyUsedObservables with_observables].
    destruct (recentlyUsedObservables (reg_at st1 r)); [destruct Hread|reflexivity]. }
  rewrite Hlen. cbn [andb].
  split; [reflexivity|]. split; [congruence|]. split.
  { rewrite R8. cbn [observables with_observables].
    rewrite get_deleted_notin by exact Hused. now apply P5. }
  split.
  { unfold oreg_at at 1. rewrite R3. now apply Oeq. }
  unfold st2. rewrite reaped_subs_other; auto.
  intros s' o' Hin Hs'.
  assert (Hne : s' <> s) by (intros ->; contradiction).
  destruct (P12 s' o' Hs') as [Hold|(sub' & Hsub' & Hnew)].
  - assert (Ho' : o' < length (oregs st)).
    { pose proof (JsMapFacts.get_Some_values _ _ _ Hold) as Hin'.
      unfold attached in Hatt. rewrite forallb_forall in Hatt.
      specialize (Hatt _ Hin').
      destruct (subscription (oreg_at st o')) eqn:E; [|discriminate].
      destruct (Nat.lt_ge_cases o' (length (oregs st))) as [|Hge]; [assumption|].
      unfold oreg_at in E. rewrite lookup_ge_None_2 in E by exact Hge.
      discriminate. }
    rewrite (Oeq o' Ho'). now apply (own_handle_spec s sub st (reg_at st r) s').
  - rewrite Hsub'. intros [= ->]. lia.
Qed.

Lemma reread_stream_keeps_subscription_witness :
  exists v st',
    call_hook 2 (HRender 0 0) (rendering 0 stream_rendered) = (Returned v, st')
    /\ JsMap.get 0 (componentRegistrations st') = Some 0
    /\ JsMap.get 9 (observables (reg_at st' 0)) = Some 0
    /\ oreg_at st' 0 = oreg_at (rendering 0 stream_rendered) 0
    /\ subs st' !! 0 = subs (rendering 0 stream_rendered) !! 0.
Proof.
  apply (reread_stream_keeps_subscription 0 0 0 1 (Read aStream Ret) 9 0 0
           (rendering 0 stream_rendered)); try reflexivity; vm_compute; lia.
Defined.

(** ** Unregistering and uninstalling *)

Lemma alter_fixed {A} (f : A -> A) (l : list A) :
  forall i, (forall x, l !! i = Some x -> f x = x) -> alter f i l = l.
Proof.
  induction l as [|a l IH]; intros [|i] H; cbn; try reflexivity.
  - f_equal. now apply H.
  - f_equal. apply IH. exact H.
Qed.

Lemma update_reg_fixed r f st :
  (forall R, regs st !! r = Some R -> f R = R) -> update_reg r f st = st.
Proof.
  intros H. apply State_eq; try reflexivity. cbn. now apply alter_fixed.
Qed.

Lemma close_all_other ids i :
  forall l : list Subscription, ~ In i ids -> close_all ids l !! i = l !! i.
Proof.
  induction ids as [|j ids IH]; intros l Hnot; [reflexivity|].
  unfold close_all. cbn [fold_left]. fold (close_all ids (alter close j l)).
  rewrite IH by (intros H; apply Hnot; now right).
  apply list_lookup_alter_ne. intros ->. apply Hnot. now left.
Qed.

(** X8. [unregisterObservable] for a component that is not registered, or
    for a stream the component has no binding for, returns without an
    exception and leaves the whole state as it is: nothing is cancelled and
    no binding of another stream is touched. *)
Theorem unregisterObservable_unbound_is_noop (c s : nat) (st : State) :
  (forall r, JsMap.get c (componentRegistrations st) = Some r ->
             JsMap.get s (observables (reg_at st r)) = None) ->
  unregisterObservable c s st = (Returned tt, st).
Proof.
  intros H. unfold unregisterObservable, bind at 1, get_state at 1.
  destruct (JsMap.get c (componentRegistrations st)) as [r|]; [|reflexivity].
  specialize (H r eq_refl). rewrite H. unfold bind, ret, modify.
  f_equal. apply update_reg_fixed. intros R HR.
  unfold reg_at in H. rewrite HR in H. cbn in H.
  destruct R as [p o u h]. unfold with_observables. cbn in *.
  now rewrite JsMapFacts.delete_absent.
Qed.

Lemma unregisterObservable_unbound_is_noop_witness :
  unregisterObservable 0 7 stream_rendered = (Returned tt, stream_rendered)
  /\ unregisterObservable 1 9 stream_rendered = (Returned tt, stream_rendered).
Proof.
  split; apply unregisterObservable_unbound_is_noop; intros r H;
    vm_compute in H; first [discriminate|injection H as <-; reflexivity].
Defined.

(** X9. [destroy] stays within its component. It does not clear the
    registration object, so the promise and stream bindings, the stream
    registrations with their last values and the continuations queued on
    promises are all as they were, and it requests no re-render. Every other
    component keeps its registry entry and its hooks, and a subscription that
    is not a cancel handle of the destroyed binding is not touched. *)
Theorem destroy_stays_within_component (c r : nat) (st : State) :
  JsMap.get c (componentRegistrations st) = Some r ->
  attached st (reg_at st r) = true ->
  exists st',
    destroy c st = (Returned tt, st')
    /\ regs st' = regs st /\ oregs st' = oregs st
    /\ thenables st' = thenables st /\ forceUpdates st' = forceUpdates st
    /\ (forall c', c' <> c ->
          JsMap.get c' (componentRegistrations st')
          = JsMap.get c' (componentRegistrations st)
          /\ component_at st' c' = component_at st c')
    /\ (forall i, ~ In i (handles st (JsMap.values (observables (reg_at st r)))) ->
                  subs st' !! i = subs st !! i).
Proof.
  intros Hget Hatt. eexists. split; [apply (destroy_live st c r Hget Hatt)|].
  repeat (split; [reflexivity|]). split.
  - intros c' Hne. split.
    + cbn. apply JsMapFacts.get_delete_ne. congruence.
    + unfold component_at. cbn. rewrite JsMapFacts.get_set_ne by congruence.
      reflexivity.
  - intros i Hnot. cbn. now apply close_all_other.
Qed.

Lemma destroy_stays_within_component_witness :
  exists st',
    destroy 0 second_reader = (Returned tt, st')
    /\ regs st' = regs second_reader /\ oregs st' = oregs second_reader
    /\ thenables st' = thenables second_reader
    /\ forceUpdates st' = forceUpdates second_reader
    /\ (forall c', c' <> 0 ->
          JsMap.get c' (componentRegistrations st')
          = JsMap.get c' (componentRegistrations second_reader)
          /\ component_at st' c' = component_at second_reader c')
    /\ (forall i, ~ In i (handles second_reader
                            (JsMap.values (observables (reg_at second_reader 0)))) ->
                  subs st' !! i = subs second_reader !! i).
Proof.
  apply (destroy_stays_within_component 0 0 second_reader); reflexivity.
Defined.

(** X10. The disconnect wrapper first uninstalls and then forwards: the
    component's own [disconnectedCallback], taken from the snapshot, runs
    exactly once in the state [destroy] has left (component no longer
    registered, hooks put back), and whatever it returns the wrapper returns
    [undefined]. Without an original hook the wrapper only uninstalls. *)
Theorem disconnect_wrapper_uninstalls_then_forwards
    (fuel c r : nat) (st : State) :
  JsMap.get c (componentRegistrations st) = Some r ->
  attached st (reg_at st r) = true ->
  exists st1,
    destroy c st = (Returned tt, st1)
    /\ JsMap.get c (componentRegistrations st1) = None
    /\ component_at st1 c = origMethods (reg_at st r)
    /\ call_hook (S (S fuel)) (HDisconnect c r) st
       = match disconnectedCallback (origMethods (reg_at st r)) with
         | HAbsent => (Returned VUndefined, st1)
         | HUser f body =>
             (run_prog body >> ret VUndefined)
               (set_calls (fun l => l ++ [f]) st1)
         | h => (call_hook (S fuel) h >> ret VUndefined) st1
         end.
Proof.
  intros Hget Hatt. eexists. split; [apply (destroy_live st c r Hget Hatt)|].
  split; [apply JsMapFacts.get_delete_eq|]. split.
  { apply component_at_set. intros m. apply JsMapFacts.get_set_eq. }
  cbn [call_hook]. unfold bind at 1. rewrite (destroy_live st c r Hget Hatt).
  unfold bind at 1, get_state at 1.
  change (reg_at (set_components ?f (set_componentRegistrations ?g (set_subs ?h st))) r)
    with (reg_at st r).
  destruct (disconnectedCallback (origMethods (reg_at st r))); reflexivity.
Qed.

Lemma disconnect_wrapper_uninstalls_then_forwards_witness :
  exists st1,
    destroy 0 stream_rendered = (Returned tt, st1)
    /\ JsMap.get 0 (componentRegistrations st1) = None
    /\ component_at st1 0 = reader aStream
    /\ call_hook 2 (HDisconnect 0 0) stream_rendered
       = (Returned VUndefined, set_calls (fun l => l ++ [2]) st1).
Proof.
  destruct (disconnect_wrapper_uninstalls_then_forwards 0 0 0 stream_rendered)
    as (st1 & H1 & H2 & H3 & H4); try reflexivity.
  exists st1. split; [exact H1|]. split; [exact H2|]. split; [exact H3|].
  exact H4.
Defined.

(** ** The render wrapper as a whole *)

Lemma unregistered_frame r s st :
  calls (unregistered r s st) = calls st
  /\ thenables (unregistered r s st) = thenables st
  /\ console (unregistered r s st) = console st
  /\ (forall r', r' <> r -> reg_at (unregistered r s st) r' = reg_at st r').
Proof.
  unfold unregistered.
  destruct (JsMap.get s (observables (reg_at st r))) as [o|];
    [destruct (subscription (oreg_at st o)) as [sub|]|];
    repeat split; intros r' Hne; rewrite reg_at_update_ne by congruence;
    reflexivity.
Qed.

Lemma reaped_frame r l :
  forall st,
    calls (reaped r l st) = calls st
    /\ thenables (reaped r l st) = thenables st
    /\ console (reaped r l st) = console st
    /\ (forall r', r' <> r -> reg_at (reaped r l st) r' = reg_at st r').
Proof.
  induction l as [|s l IH]; intros st; [repeat split|].
  unfold reaped. cbn [fold_left]. fold (reaped r l (unregistered r s st)).
  destruct (IH (unregistered r s st)) as (A1 & A2 & A3 & A4).
  destruct (unregistered_frame r s st) as (B1 & B2 & B3 & B4).
  rewrite A1, A2, A3, B1, B2, B3. repeat split.
  intros r' Hne. rewrite A4, B4 by exact Hne. reflexivity.
Qed.

(** The two ways a pass through the wrapper ends: with the reaper's state,
    or with that state uninstalled. *)
Lemma wrapper_outcome fuel c r f body st :
  renderingRef st = Some c ->
  JsMap.get c (componentRegistrations st) = Some r ->
  r < length (regs st) ->
  attached st (reg_at st r) = true ->
  render (origMethods (reg_at st r)) = HUser f body ->
  exists v st1,
    run_prog body (pass_start r f st) = (Returned v, st1)
    /\ bound_inv c r st1
    /\ let st2 := reaped r (unusedObservables (reg_at st1 r)) st1 in
       call_hook (S (S fuel)) (HRender c r) st = (Returned v, st2)
       \/ call_hook (S (S fuel)) (HRender c r) st
          = (Returned v,
             set_components (JsMap.set c (origMethods (reg_at st2 r)))
               (set_componentRegistrations (JsMap.delete c)
                  (set_subs
                     (close_all
                        (handles st2 (JsMap.values (observables (reg_at st2 r)))))
                     st2))).
Proof.
  intros Href Hget Hr Hatt Hrender.
  destruct (wrapper_pass fuel c r f body st Href Hget Hr Hatt Hrender)
    as (v & st1 & Hrun & Hinv1 & _ & Hcode & _).
  exists v, st1. split; [exact Hrun|]. split; [exact Hinv1|].
  destruct Hinv1 as (Href1 & Hget1 & Hr1 & Hatt1 & Hrec1).
  destruct (reaped_props r (unusedObservables (reg_at st1 r)) st1 Hr1 Hatt1)
    as (R1 & _ & _ & _ & _ & _ & _ & _ & R9 & _).
  cbn zeta. rewrite Hcode.
  set (st2 := reaped r (unusedObservables (reg_at st1 r)) st1) in *.
  destruct (Nat.eqb (length (recentlyUsedObservables (reg_at st2 r))) 0
            && Nat.eqb (JsMap.size (promises (reg_at st2 r))) 0).
  - right. unfold bind.
    rewrite (destroy_live st2 c r) by (try exact R9; congruence). reflexivity.
  - left. reflexivity.
Qed.

(** X11. Rendering one component leaves the others alone: after a pass
    through the render wrapper of component [c], whether or not the pass
    ends by uninstalling [c], every other component has the registry entry
    and the hooks it had, and every other registration object is unchanged,
    with its promise bindings, stream bindings, list of streams read and
    snapshot of hooks. *)
Theorem render_pass_leaves_other_components_alone
    (fuel c r f : nat) (body : Prog) (st : State) :
  renderingRef st = Some c ->
  JsMap.get c (componentRegistrations st) = Some r ->
  r < length (regs st) ->
  attached st (reg_at st r) = true ->
  render (origMethods (reg_at st r)) = HUser f body ->
  exists v st',
    call_hook (S (S fuel)) (HRender c r) st = (Returned v, st')
    /\ (forall c', c' <> c ->
          JsMap.get c' (componentRegistrations st')
          = JsMap.get c' (componentRegistrations st)
          /\ component_at st' c' = component_at st c')
    /\ (forall r', r' <> r -> reg_at st' r' = reg_at st r').
Proof.
  intros Href Hget Hr Hatt Hrender.
  destruct (wrapper_outcome fuel c r f body st Href Hget Hr Hatt Hrender)
    as (v & st1 & Hrun & Hinv1 & Hend).
  destruct (pass_start_props c r f st Href Hget Hr Hatt)
    as (Hinv0 & _ & S3 & S4 & _ & _ & _ & _ & S9).
  pose proof (run_prog_frame c r body _ Hinv0) as Hframe.
  unfold after in Hframe. rewrite Hrun in Hframe. cbn [snd] in Hframe.
  destruct Hframe as (P1 & P2 & _ & _ & _ & _ & _ & _ & _ & P10 & _).
  destruct Hinv1 as (_ & _ & Hr1 & Hatt1 & _).
  destruct (reaped_props r (unusedObservables (reg_at st1 r)) st1 Hr1 Hatt1)
    as (R1 & _ & _ & R4 & _).
  destruct (reaped_frame r (unusedObservables (reg_at st1 r)) st1)
    as (_ & _ & _ & F4).
  cbn zeta in Hend.
  set (st2 := reaped r (unusedObservables (reg_at st1 r)) st1) in *.
  assert (Hreg : forall r', r' <> r -> reg_at st2 r' = reg_at st r').
  { intros r' Hne. rewrite F4, P10, S9 by exact Hne. reflexivity. }
  exists v. destruct Hend as [Hend|Hend]; eexists; (split; [exact Hend|]).
  - split; [|exact Hreg]. intros c' Hne. split; [congruence|].
    unfold component_at. congruence.
  - split; [|exact Hreg]. intros c' Hne. split.
    + cbn. rewrite JsMapFacts.get_delete_ne by congruence. congruence.
    + unfold component_at. cbn. rewrite JsMapFacts.get_set_ne by congruence.
      congruence.
Qed.

Lemma render_pass_leaves_other_components_alone_witness :
  exists v st',
    call_hook 2 (HRender 0 0) (rendering 0 fickle_settled) = (Returned v, st')
    /\ (forall c', c' <> 0 ->
          JsMap.get c' (componentRegistrations st')
          = JsMap.get c' (componentRegistrations (rendering 0 fickle_settled))
          /\ component_at st' c' = component_at (rendering 0 fickle_settled) c')
    /\ (forall r', r' <> 0 -> reg_at st' r' = reg_at (rendering 0 fickle_settled) r').
Proof.
  apply (render_pass_leaves_other_components_alone 0 0 0 1 fickle (rendering 0 fickle_settled));
    try reflexivity.
  vm_compute. lia.
Defined.

(** X12. The render wrapper is transparent for the caller: it calls the
    component's own render function exactly once, and it returns the very
    value that function returned, whether the pass ends by uninstalling the
    module or not. *)
Theorem render_wrapper_is_transparent
    (fuel c r f : nat) (body : Prog) (st : State) :
  renderingRef st = Some c ->
  JsMap.get c (componentRegistrations st) = Some r ->
  r < length (regs st) ->
  attached st (reg_at st r) = true ->
  render (origMethods (reg_at st r)) = HUser f body ->
  exists v st',
    call_hook (S (S fuel)) (HRender c r) st = (Returned v, st')
    /\ fst (run_prog body (pass_start r f st)) = Returned v
    /\ calls st' = calls st ++ [f].
Proof.
  intros Href Hget Hr Hatt Hrender.
  destruct (wrapper_outcome fuel c r f body st Href Hget Hr Hatt Hrender)
    as (v & st1 & Hrun & Hinv1 & Hend).
  destruct (pass_start_props c r f st Href Hget Hr Hatt)
    as (Hinv0 & _ & _ & _ & _ & _ & S7 & _).
  pose proof (run_prog_frame c r body _ Hinv0) as Hframe.
  unfold after in Hframe. rewrite Hrun in Hframe. cbn [snd] in Hframe.
  destruct Hframe as (_ & _ & P3 & _).
  destruct (reaped_frame r (unusedObservables (reg_at st1 r)) st1)
    as (F1 & _).
  cbn zeta in Hend.
  exists v. destruct Hend as [Hend|Hend]; eexists;
    (split; [exact Hend|]); (split; [now rewrite Hrun|]); cbn; congruence.
Qed.

Lemma render_wrapper_is_transparent_witness :
  exists v st',
    call_hook 2 (HRender 0 0) (rendering 0 stream_rendered) = (Returned v, st')
    /\ fst (run_prog (Read aStream Ret) (pass_start 0 1 (rendering 0 stream_rendered)))
       = Returned v
    /\ calls st' = calls (rendering 0 stream_rendered) ++ [1].
Proof.
  apply (render_wrapper_is_transparent 0 0 0 1 (Read aStream Ret) (rendering 0 stream_rendered));
    try reflexivity.
  vm_compute. lia.
Defined.

(** ** Every state the module can reach *)

(** X13. In every state reached from a state in which nothing is installed,
    by any sequence of renders, connects, disconnects, settlements,
    emissions, stray reads and assignments of hooks, a registered component
    refers to a registration object that exists, and each of its stream
    bindings refers to a stream registration whose cancel handle is set and
    is a subscription that exists. *)
Theorem reachable_bindings_have_handles
    (fuel : nat) (es : list Event) (cs : JsMap.t ComponentInterface)
    (emits : JsMap.t (list Value)) (c r s o : nat) :
  let st := run_events fuel es (initial cs emits) in
  JsMap.get c (componentRegistrations st) = Some r ->
  JsMap.get s (observables (reg_at st r)) = Some o ->
  r < length (regs st)
  /\ exists sub, subscription (oreg_at st o) = Some sub
                 /\ sub < length (subs st).
Proof.
  intros st Hc Hs. destruct (reachable_wf fuel es cs emits) as (W1 & W2).
  fold st in W1, W2. split; [now apply (W1 c r)|].
  apply (W2 r o). now apply JsMapFacts.get_Some_values with s.
Qed.

Lemma reachable_bindings_have_handles_witness :
  let st := run_events 2 [HostRender 0; Emits 9 (VNum 4); HostRender 0]
              (initial [(0, reader aStream)] []) in
  0 < length (regs st)
  /\ exists sub, subscription (oreg_at st 0) = Some sub
                 /\ sub < length (subs st).
Proof.
  apply (reachable_bindings_have_handles 2
           [HostRender 0; Emits 9 (VNum 4); HostRender 0]
           [(0, reader aStream)] [] 0 0 9 0); reflexivity.
Defined.

(** X14. In every such state [destroy] and [unregisterObservable] return
    without an exception, for any component and any stream: the cancel
    handle they dereference is never missing. *)
Theorem uninstalling_never_throws
    (fuel : nat) (es : list Event) (cs : JsMap.t ComponentInterface)
    (emits : JsMap.t (list Value)) (c s : nat) :
  let st := run_events fuel es (initial cs emits) in
  (exists st', destroy c st = (Returned tt, st'))
  /\ (exists st', unregisterObservable c s st = (Returned tt, st')).
Proof.
  intros st. pose proof (reachable_wf fuel es cs emits) as Hwf. fold st in Hwf.
  destruct (JsMap.get c (componentRegistrations st)) as [r|] eqn:Hget.
  - pose proof (wf_attached st r Hwf) as Hatt. split; eexists.
    + apply (destroy_live st c r Hget Hatt).
    + apply (unregisterObservable_eq c r s st Hget Hatt).
  - split; eexists.
    + now apply destroy_absent.
    + unfold unregisterObservable, bind, get_state. rewrite Hget. reflexivity.
Qed.

(** ** The first render *)

(** X15. The first render of a component whose render function starts by
    reading a promise or a stream: the host calls the component's own render
    function, not a wrapper, and the read installs the module. When the
    function returns, whatever else it has read, the component is registered
    with a fresh registration object, its three hooks are the wrappers of
    that registration, the snapshot holds the hooks the component had before,
    and the source read first is bound: a promise to [null], a stream to a
    registration. *)
Theorem first_render_installs
    (fuel c f : nat) (src : Value) (k : Value -> Prog) (st : State) :
  JsMap.has c (componentRegistrations st) = false ->
  render (component_at st c) = HUser f (Read src k) ->
  invalid src = false ->
  let r := length (regs st) in
  exists v st',
    host_render (S fuel) c st = (Returned v, st')
    /\ JsMap.get c (componentRegistrations st') = Some r
    /\ component_at st' c
       = {| connectedCallback := HConnect c r;
            disconnectedCallback := HDisconnect c r;
            render := HRender c r |}
    /\ origMethods (reg_at st' r) = component_at st c
    /\ (if isPromise src
        then JsMap.get (ident src) (promises (reg_at st' r)) = Some VNull
        else JsMap.has (ident src) (observables (reg_at st' r)) = true).
Proof.
  intros Hhas Hrender Hvalid r.
  set (s1 := set_calls (fun l => l ++ [f]) (set_renderingRef (Some c) st)).
  assert (Hhas1 : JsMap.has c (componentRegistrations s1) = false) by exact Hhas.
  assert (Href1 : renderingRef s1 = Some c) by reflexivity.
  destruct (init_fresh_live s1 c Hhas1) as (I1 & I2 & I3 & I4 & _).
  change (length (regs s1)) with r in I1, I2, I3.
  change (component_at s1 c) with (component_at st c) in I2.
  set (s2 := after (init c) s1) in *.
  assert (Hcomp2 : component_at s2 c
                   = {| connectedCallback := HConnect c r;
                        disconnectedCallback := HDisconnect c r;
                        render := HRender c r |}).
  { unfold s2, after. rewrite (init_fresh s1 c Hhas1). cbn [snd].
    apply component_at_set. intros m. apply JsMapFacts.get_set_eq. }
  assert (Hinv2 : bound_inv c r s2).
  { unfold bound_inv. rewrite I2. cbn [observables recentlyUsedObservables].
    repeat split; try assumption; try congruence; try lia. intros s []. }
  assert (Hsame : readAsync src s1 = readAsync src s2).
  { unfold readAsync, getAsyncValue. unfold invalid in Hvalid.
    destruct (isPromise src).
    - apply (getPromiseValue_init s1 c src Href1 Hhas1).
    - destruct (isSubscribable src); [|discriminate].
      apply (getObservableValue_init s1 c src Href1 Hhas1). }
  destruct (readAsync_inv c r src s2 Hinv2)
    as (v1 & s3 & Hread & Hinv3 & _ & _ & Hin3).
  pose proof (readAsync_frame c r src s2 Hinv2) as F23.
  unfold after in F23. rewrite Hread in F23. cbn [snd] in F23.
  destruct (run_prog_inv c r (k v1) s3 Hinv3) as (v & st' & Hrun & Hinv' & _).
  pose proof (run_prog_frame c r (k v1) s3 Hinv3) as F3.
  unfold after in F3. rewrite Hrun in F3. cbn [snd] in F3.
  destruct F23 as (A1 & _ & _ & _ & _ & _ & _ & _ & _ & _ & A11 & _).
  destruct F3 as (B1 & _ & _ & B4 & B5 & _ & _ & _ & _ & _ & B11 & _).
  exists v, (set_renderingRef None st').
  change (reg_at (set_renderingRef None st') r) with (reg_at st' r).
  change (component_at (set_renderingRef None st') c) with (component_at st' c).
  change (componentRegistrations (set_renderingRef None st'))
    with (componentRegistrations st').
  split.
  { assert (Hin : (modify (set_renderingRef (Some c)) >>
                   let* st0 := get_state in
                   if present (render (component_at st0 c))
                   then call_hook (S fuel) (render (component_at st0 c))
                   else ret VUndefined) st = (Returned v, st')).
    { unfold bind at 1, modify at 1. unfold bind at 1, get_state at 1.
      change (component_at (set_renderingRef (Some c) st) c)
        with (component_at st c).
      rewrite Hrender. cbn [present call_hook run_prog].
      unfold bind at 1, modify at 1. fold s1.
      unfold bind at 1. rewrite Hsame, Hread. exact Hrun. }
    unfold host_render, finally. now rewrite Hin. }
  split; [apply Hinv'|]. split.
  { unfold component_at in *. congruence. }
  split.
  { rewrite B11, A11, I2. reflexivity. }
  destruct (isPromise src) eqn:Hp.
  - apply B4.
    assert (Hnew : JsMap.has (ident src) (promises (reg_at s2 r)) = false)
      by now rewrite I2.
    destruct Hinv2 as (H1 & H2 & H3 & _).
    unfold readAsync, getAsyncValue in Hread. rewrite Hp in Hread.
    rewrite (getPromiseValue_first s2 c r src H1 H2 H3 Hnew) in Hread.
    injection Hread as _ <-. unfold continued.
    change (reg_at (set_thenables ?g ?s) r) with (reg_at s r).
    rewrite reg_at_update_eq by exact H3. cbn [promises with_promises].
    apply JsMapFacts.get_set_eq.
  - assert (Hs : stream_read src = Some (ident src)).
    { unfold stream_read. rewrite Hp. unfold invalid in Hvalid. rewrite Hp in Hvalid.
      destruct (isSubscribable src); [reflexivity|discriminate]. }
    destruct Hinv3 as (_ & _ & _ & _ & Hrec3).
    pose proof (Hrec3 _ (Hin3 _ Hs)) as Hkey.
    apply JsMapFacts.has_keys, JsMapFacts.has_true_get in Hkey.
    destruct Hkey as [o Ho]. apply JsMapFacts.has_true_get. exists o.
    now apply B5.
Qed.

Lemma first_render_installs_witness :
  exists v st',
    host_render 1 0 (initial [(0, reader aPromise)] []) = (Returned v, st')
    /\ JsMap.get 0 (componentRegistrations st') = Some 0
    /\ component_at st' 0
       = {| connectedCallback := HConnect 0 0;
            disconnectedCallback := HDisconnect 0 0;
            render := HRender 0 0 |}
    /\ origMethods (reg_at st' 0) = reader aPromise
    /\ JsMap.get 7 (promises (reg_at st' 0)) = Some VNull.
Proof.
  apply (first_render_installs 0 0 1 aPromise Ret (initial [(0, reader aPromise)] []));
    reflexivity.
Defined.

(** ** The connect wrapper *)

(** X16. Connecting a component on which the module is installed does not
    install it again and resets nothing: the wrapper's call of [init] finds
    the component registered and returns, and the wrapper then runs the
    component's own [connectedCallback] from the snapshot exactly once, in
    the state it was called in, and returns [undefined] whatever that hook
    returns. Without an original hook the wrapper changes nothing at all. *)
Theorem connect_wrapper_only_forwards (fuel c r : nat) (st : State) :
  JsMap.has c (componentRegistrations st) = true ->
  call_hook (S (S fuel)) (HConnect c r) st
  = match connectedCallback (origMethods (reg_at st r)) with
    | HAbsent => (Returned VUndefined, st)
    | HUser f body =>
        (run_prog body >> ret VUndefined) (set_calls (fun l => l ++ [f]) st)
    | h => (call_hook (S fuel) h >> ret VUndefined) st
    end.
Proof.
  intros Hhas. cbn [call_hook]. unfold bind at 1.
  rewrite (init_installed st c Hhas). unfold bind at 1, get_state at 1.
  destruct (connectedCallback (origMethods (reg_at st r))); reflexivity.
Qed.

Lemma connect_wrapper_only_forwards_witness :
  call_hook 2 (HConnect 0 0) stream_rendered = (Returned VUndefined, stream_rendered).
Proof.
  apply (connect_wrapper_only_forwards 0 0 0 stream_rendered). reflexivity.
Defined.
